(** * Reference and weight management of the MPC controller

    Shallow embedding of
    [src/external/mpc/control/mpc_controller/src/mpc_controller/references.cpp]
    (namespace [motion::control::mpc_controller]) and the properties of its
    horizon buffers.

    Conventions of the embedding.
    - [Index] and [std::size_t] are unsigned 64-bit integers: a [Z] in
      [0, 2^64) whose arithmetic wraps around ([iadd], [isub], [imul]).
    - [real_t] ([AcadoReal]) values are modelled by the real numbers [R]:
      rounding of the floating-point operations is not modelled, and
      [static_cast<AcadoReal>] is the identity.  What is stated of computed
      values therefore keeps a margin far above the rounding (the bounds of
      the heading pass), and what is stated of stored values is about values
      copied or written as constants, or does not depend on the values at
      all (which entries an operation writes).
    - The global [acadoVariables] holds statically sized C arrays.  An array
      is a total function from indices to values together with its static
      size; an access outside the size is undefined behaviour, which the
      embedding reports as the outcome [Undefined].
    - A member function is a function from the controller state to an
      [outcome]: normal return, a thrown [std::logic_error] (with the state
      reached when it was thrown) or undefined behaviour. *)

From Stdlib Require Import ZArith Reals Machin Lra Lia List Bool String.
From Stdlib Require Import FunctionalExtensionality.
Import ListNotations.

Open Scope Z_scope.

(** ** Machine integers *)

Definition SIZE_BITS : Z := 64.
Definition SIZE_MOD : Z := 2 ^ SIZE_BITS.

(** [Index] is declared in [mpc_controller.hpp]; the static assertions of
    the source bound its width by that of [std::size_t], and every use mixes
    it with [std::size_t] operands, so both are the same 64-bit type here. *)
Definition Index : Type := Z.

Definition wrap (z : Z) : Index := z mod SIZE_MOD.
Definition iadd (a b : Index) : Index := wrap (a + b).
Definition isub (a b : Index) : Index := wrap (a - b).
Definition imul (a b : Index) : Index := wrap (a * b).

Definition is_index (z : Z) : Prop := 0 <= z < SIZE_MOD.

(** ** Values and arrays *)

Definition AcadoReal : Type := R.

Definition array : Type := Z -> AcadoReal.

Definition upd (a : array) (i : Z) (v : AcadoReal) : array :=
  fun j => if j =? i then v else a j.

(** [std::fill(first, last, v)]: assigns [v] to [n = last - first] elements,
    front to back. *)
Fixpoint std_fill (n : nat) (first : Z) (v : AcadoReal) (a : array) : array :=
  match n with
  | O => a
  | S n' => std_fill n' (first + 1) v (upd a first v)
  end.

(** [std::copy(first, last, d_first)]: copies [n = last - first] elements,
    front to back, so that the source may overlap the destination from
    above. *)
Fixpoint std_copy (n : nat) (first d_first : Z) (a : array) : array :=
  match n with
  | O => a
  | S n' => std_copy n' (first + 1) (d_first + 1) (upd a d_first (a first))
  end.

(** ** Messages and configuration *)

Module msg.

(** Heading of a trajectory point, a complex number. *)
Record Complex32 : Type := mkComplex32 { real : R; imag : R }.

Record TrajectoryPoint : Type := mkPoint {
  x : R;
  y : R;
  heading : Complex32;
  longitudinal_velocity_mps : R
}.

Record Trajectory : Type := mkTrajectory { points : list TrajectoryPoint }.

Definition size (t : Trajectory) : Index := Z.of_nat (List.length (points t)).

End msg.

Definition Point : Type := msg.TrajectoryPoint.
Definition Trajectory : Type := msg.Trajectory.

Record StateWeight : Type := mkStateWeight {
  pose : R;
  heading : R;
  longitudinal_velocity : R
}.

Record OptimizationConfig : Type := mkOptimizationConfig {
  nominal : StateWeight;
  terminal : StateWeight
}.

(** ** The solver's buffers *)

Module ACADO.

(** The global [acadoVariables]: states [x], controls [u], stage references
    [y], terminal reference [yN], stage weights [W], terminal weight [WN] and
    the initial state [x0]. *)
Record variables : Type := mk {
  x : array;
  u : array;
  y : array;
  yN : array;
  W : array;
  WN : array;
  x0 : array
}.

Definition with_x (a : variables) (v : array) : variables :=
  mk v (u a) (y a) (yN a) (W a) (WN a) (x0 a).
Definition with_u (a : variables) (v : array) : variables :=
  mk (x a) v (y a) (yN a) (W a) (WN a) (x0 a).
Definition with_y (a : variables) (v : array) : variables :=
  mk (x a) (u a) v (yN a) (W a) (WN a) (x0 a).
Definition with_yN (a : variables) (v : array) : variables :=
  mk (x a) (u a) (y a) v (W a) (WN a) (x0 a).
Definition with_W (a : variables) (v : array) : variables :=
  mk (x a) (u a) (y a) (yN a) v (WN a) (x0 a).
Definition with_WN (a : variables) (v : array) : variables :=
  mk (x a) (u a) (y a) (yN a) (W a) v (x0 a).

End ACADO.

(** State of the controller: the solver's buffers, the configuration, the
    reference trajectory and temporal index kept by the base class, the
    optional buffer of the resampler and the last applied reference index. *)
Record MpcController : Type := mkController {
  acadoVariables : ACADO.variables;
  config : OptimizationConfig;
  reference_trajectory : Trajectory;
  current_state_temporal_index : Index;
  m_interpolated_trajectory : option Trajectory;
  m_last_reference_index : Index
}.

Definition with_acado (c : MpcController) (a : ACADO.variables) : MpcController :=
  mkController a (config c) (reference_trajectory c)
    (current_state_temporal_index c) (m_interpolated_trajectory c)
    (m_last_reference_index c).

Definition with_interpolated (c : MpcController) (t : option Trajectory)
  : MpcController :=
  mkController (acadoVariables c) (config c) (reference_trajectory c)
    (current_state_temporal_index c) t (m_last_reference_index c).

Definition with_last_reference_index (c : MpcController) (i : Index)
  : MpcController :=
  mkController (acadoVariables c) (config c) (reference_trajectory c)
    (current_state_temporal_index c) (m_interpolated_trajectory c) i.

(** ** Outcomes and the monad of member functions *)

Inductive outcome (A : Type) : Type :=
| Ok (a : A) (c : MpcController)
| Throw (what : string) (c : MpcController)
| Undefined.

Arguments Ok {A} a c.
Arguments Throw {A} what c.
Arguments Undefined {A}.

Definition M (A : Type) : Type := MpcController -> outcome A.

Definition ret {A} (a : A) : M A := fun c => Ok a c.

Definition bind {A B} (m : M A) (f : A -> M B) : M B :=
  fun c =>
    match m c with
    | Ok a c' => f a c'
    | Throw what c' => Throw what c'
    | Undefined => Undefined
    end.

Definition throw {A} (what : string) : M A := fun c => Throw what c.
Definition undefined {A} : M A := fun _ => Undefined.
Definition get : M MpcController := fun c => Ok c c.
Definition modify (f : MpcController -> MpcController) : M unit :=
  fun c => Ok tt (f c).

Notation "m1 ;; m2" := (bind m1 (fun _ => m2))
  (at level 61, right associativity).
Notation "x <- m1 ;; m2" := (bind m1 (fun x => m2))
  (at level 61, m1 at next level, right associativity).

(** [for (Index i = first; i < last; ++i) body(i)]: [n = last - first]
    iterations, none when [last <= first].  The counter stays below [last],
    so [++i] never wraps around. *)
Fixpoint for_loop (n : nat) (i : Index) (body : Index -> M unit) : M unit :=
  match n with
  | O => ret tt
  | S n' => body i ;; for_loop n' (i + 1) body
  end.

Definition for_range (first last : Index) (body : Index -> M unit) : M unit :=
  for_loop (Z.to_nat (last - first)) first body.

(** The state a call leaves behind, when it has one. *)
Definition final_state {A} (o : outcome A) : option MpcController :=
  match o with
  | Ok _ c => Some c
  | Throw _ c => Some c
  | Undefined => None
  end.

Definition throws {A} (o : outcome A) : bool :=
  match o with
  | Throw _ _ => true
  | _ => false
  end.

(** ** Functions of the C++ standard library on reals *)

(** [std::atan2(y, x)]: the argument of the point [(x, y)], in [(-PI, PI]]. *)
Definition atan2 (y x : R) : R :=
  if Rlt_dec 0 x then atan (y / x)
  else if Rlt_dec x 0 then
    (if Rle_dec 0 y then atan (y / x) + PI else atan (y / x) - PI)%R
  else if Rlt_dec 0 y then (PI / 2)%R
  else if Rlt_dec y 0 then (- (PI / 2))%R
  else 0%R.

(** ** The member functions of [MpcController] *)

(** Dimensions fixed by static assertions of the source. *)
Definition NX : Index := 4.
Definition IDX_HEADING : Index := 2.
Definition NYN : Index := 4.
Definition IDYN_X : Index := 0.
Definition IDYN_Y : Index := 1.
Definition IDYN_HEADING : Index := 2.
Definition IDYN_VEL_LONG : Index := 3.
Definition NY : Index := 4.
Definition IDY_X : Index := 0.
Definition IDY_Y : Index := 1.
Definition IDY_HEADING : Index := 2.
Definition IDY_VEL_LONG : Index := 3.

(** [constexpr auto PI = AcadoReal{3.14159}] of
    [ensure_reference_consistency]. *)
Definition PI_3_14159 : AcadoReal := (314159 / 100000)%R.

Section Controller.

(** [ACADO_N] and [ACADO_NU] come from the generated [acado_common.h],
    [motion_common::to_angle] and [motion_common::sample] (at the solver's
    time step) from [motion_common]; none of them is part of the sources at
    hand, so they are parameters of the development. *)
Variable HORIZON : Index.
Variable NU : Index.
Variable to_angle : msg.Complex32 -> R.
Variable sample : Trajectory -> Trajectory -> Trajectory.

(** Static sizes of the arrays of [acadoVariables]. *)
Definition size_x : Z := (HORIZON + 1) * NX.
Definition size_u : Z := HORIZON * NU.
Definition size_y : Z := HORIZON * NY.
Definition size_yN : Z := NYN.
Definition size_W : Z := HORIZON * NY * NY.
Definition size_WN : Z := NYN * NYN.
Definition size_x0 : Z := NX.

(** Element accesses [acadoVariables.a[i]], checked against the static
    size. *)
Definition load (sel : ACADO.variables -> array) (size : Z) (i : Index)
  : M AcadoReal :=
  fun c => if i <? size then Ok (sel (acadoVariables c) i) c else Undefined.

Definition store (sel : ACADO.variables -> array)
    (put : ACADO.variables -> array -> ACADO.variables)
    (size : Z) (i : Index) (v : AcadoReal) : M unit :=
  fun c =>
    if i <? size
    then Ok tt (with_acado c (put (acadoVariables c)
                                (upd (sel (acadoVariables c)) i v)))
    else Undefined.

Definition store_y := store ACADO.y ACADO.with_y size_y.
Definition store_yN := store ACADO.yN ACADO.with_yN size_yN.
Definition store_W := store ACADO.W ACADO.with_W size_W.
Definition store_WN := store ACADO.WN ACADO.with_WN size_WN.

(** [std::fill(&a[first], &a[last], v)] and
    [std::copy(&a[first], &a[last], &a[d_first])] on an array of
    [acadoVariables]: the ranges have to lie inside the array. *)
Definition fill (sel : ACADO.variables -> array)
    (put : ACADO.variables -> array -> ACADO.variables)
    (size : Z) (first last : Index) (v : AcadoReal) : M unit :=
  fun c =>
    if (first <=? last) && (last <=? size)
    then Ok tt (with_acado c (put (acadoVariables c)
           (std_fill (Z.to_nat (last - first)) first v (sel (acadoVariables c)))))
    else Undefined.

Definition copy (sel : ACADO.variables -> array)
    (put : ACADO.variables -> array -> ACADO.variables)
    (size : Z) (first last d_first : Index) : M unit :=
  fun c =>
    if (first <=? last) && (last <=? size) && (d_first + (last - first) <=? size)
    then Ok tt (with_acado c (put (acadoVariables c)
           (std_copy (Z.to_nat (last - first)) first d_first
              (sel (acadoVariables c)))))
    else Undefined.

(** [traj.points[i]], unchecked in the source. *)
Definition point_at (traj : Trajectory) (i : Index) : M Point :=
  match nth_error (msg.points traj) (Z.to_nat i) with
  | Some pt => ret pt
  | None => undefined
  end.

Definition zero_terminal_weights : M unit :=
  store_WN (iadd (imul IDYN_X NYN) IDYN_X) 0%R ;;
  store_WN (iadd (imul IDYN_Y NYN) IDYN_Y) 0%R ;;
  store_WN (iadd (imul IDYN_HEADING NYN) IDYN_HEADING) 0%R ;;
  store_WN (iadd (imul IDYN_VEL_LONG NYN) IDYN_VEL_LONG) 0%R.

Definition set_terminal_weights (cfg : StateWeight) : M unit :=
  store_WN (iadd (imul IDYN_X NYN) IDYN_X) (pose cfg) ;;
  store_WN (iadd (imul IDYN_Y NYN) IDYN_Y) (pose cfg) ;;
  store_WN (iadd (imul IDYN_HEADING NYN) IDYN_HEADING) (heading cfg) ;;
  store_WN (iadd (imul IDYN_VEL_LONG NYN) IDYN_VEL_LONG)
    (longitudinal_velocity cfg).

Definition apply_nominal_weights (cfg : StateWeight) (start end_ : Index)
  : M unit :=
  let end_ := Z.min end_ HORIZON in
  if start >? end_ then
    throw "Inconsistent bounds: apply! There's likely an indexing bug somewhere"
  else
    for_range start end_ (fun i =>
      let NY2 := imul NY NY in
      let idx := imul i NY2 in
      store_W (iadd (iadd idx (imul IDY_X NY)) IDY_X) (pose cfg) ;;
      store_W (iadd (iadd idx (imul IDY_Y NY)) IDY_Y) (pose cfg) ;;
      store_W (iadd (iadd idx (imul IDY_HEADING NY)) IDY_HEADING)
        (heading cfg) ;;
      store_W (iadd (iadd idx (imul IDY_VEL_LONG NY)) IDY_VEL_LONG)
        (longitudinal_velocity cfg)).

Definition apply_weights (cfg : OptimizationConfig) : M unit :=
  apply_nominal_weights (nominal cfg) 0 HORIZON ;;
  set_terminal_weights (terminal cfg).

Definition apply_terminal_weights (idx : Index) : M unit :=
  if idx >=? HORIZON then
    throw "Out of bounds terminal weight index"
  else
    c <- get ;;
    let param := terminal (config c) in
    apply_nominal_weights param idx (iadd idx 1).

Definition zero_nominal_weights (start end_ : Index) : M unit :=
  let end_ := Z.min HORIZON end_ in
  if start >? end_ then
    throw "Inconsistent bounds: zero! There's likely an indexing bug somewhere"
  else
    let NY2 := imul NY NY in
    fill ACADO.W ACADO.with_W size_W (imul start NY2) (imul end_ NY2) 0%R.

Definition advance_problem (count : Index) : M unit :=
  if HORIZON <=? count then
    throw "Advancing count too high! Likely indexing bug somewhere"
  else
    copy ACADO.x ACADO.with_x size_x
      (imul NX (iadd count 1)) (imul (iadd HORIZON 1) NX) NX ;;
    copy ACADO.y ACADO.with_y size_y
      (imul NY count) (imul HORIZON NY) 0 ;;
    copy ACADO.u ACADO.with_u size_u
      (imul NU count) (imul HORIZON NU) 0.

Definition set_reference (traj : Trajectory) (y_start traj_start count : Index)
  : M unit :=
  if (iadd y_start count >? HORIZON) || (iadd traj_start count >? msg.size traj)
  then
    throw "set_reference would go out of bounds! Indexing bug likely!"
  else
    for_range 0 count (fun i =>
      pt <- point_at traj (iadd traj_start i) ;;
      let ydx := imul (iadd y_start i) NY in
      store_y (iadd ydx IDY_X) (msg.x pt) ;;
      store_y (iadd ydx IDY_Y) (msg.y pt) ;;
      store_y (iadd ydx IDY_VEL_LONG) (msg.longitudinal_velocity_mps pt) ;;
      store_y (iadd ydx IDY_HEADING) (to_angle (msg.heading pt))).

Definition set_terminal_reference (pt : Point) : M unit :=
  store_yN IDYN_X (msg.x pt) ;;
  store_yN IDYN_Y (msg.y pt) ;;
  store_yN IDYN_VEL_LONG (msg.longitudinal_velocity_mps pt) ;;
  store_yN IDYN_HEADING (to_angle (msg.heading pt)).

(** The locals of [backfill_reference]. *)
Definition backfill_ref_start (count : Index) : Index := isub HORIZON count.
Definition backfill_traj_start (c : MpcController) (count : Index) : Index :=
  let max_pts := msg.size (reference_trajectory c) in
  let curr_idx := current_state_temporal_index c in
  Z.min (iadd curr_idx (backfill_ref_start count)) max_pts.
Definition backfill_traj_end (c : MpcController) (count : Index) : Index :=
  let max_pts := msg.size (reference_trajectory c) in
  Z.min (iadd (backfill_traj_start c count) count) max_pts.
Definition backfill_safe_count (c : MpcController) (count : Index) : Index :=
  isub (backfill_traj_end c count) (backfill_traj_start c count).

Definition backfill_reference (count : Index) : M unit :=
  if HORIZON <=? count then
    throw "Backfill count too high! Likely indexing bug somewhere"
  else
    c <- get ;;
    let ref_start := backfill_ref_start count in
    let max_pts := msg.size (reference_trajectory c) in
    let traj_start := backfill_traj_start c count in
    let safe_count := backfill_safe_count c count in
    set_reference (reference_trajectory c) ref_start traj_start safe_count ;;
    (if safe_count <? count then
       let remainder := isub count safe_count in
       zero_nominal_weights (isub HORIZON remainder) HORIZON ;;
       apply_terminal_weights (isub HORIZON (iadd remainder 1))
     else ret tt) ;;
    (if iadd traj_start count <? max_pts then
       pt <- point_at (reference_trajectory c) (iadd traj_start count) ;;
       set_terminal_reference pt
     else zero_terminal_weights).

(** The closure [fn] of [ensure_reference_consistency]: [ref] is the
    reference it is applied to, [last_angle] and [err] the captured locals;
    it returns the new values of the three.  The subtraction, [std::sin],
    [std::cos], [std::atan2], the addition and [std::fabs] are those of the
    reals: an equation that holds here up to the last bit only (a heading
    that needs no unwrapping is written back unchanged) is not stated of
    the program. *)
Definition fn (ref last_angle err : AcadoReal)
  : AcadoReal * AcadoReal * AcadoReal :=
  let dth := (ref - last_angle)%R in
  let diff := atan2 (sin dth) (cos dth) in
  let ref_old := ref in
  let ref := (last_angle + diff)%R in
  let err := (err + Rabs (ref - ref_old))%R in
  let last_angle := ref in
  (ref, last_angle, err).

(** The loop over the stages, threading [last_angle] and [err]. *)
Fixpoint consistency_loop (n : nat) (i : Index) (last_angle err : AcadoReal)
  : M (AcadoReal * AcadoReal) :=
  match n with
  | O => ret (last_angle, err)
  | S n' =>
      let idx := imul NY i in
      ref <- load ACADO.y size_y (iadd idx IDY_HEADING) ;;
      let '(ref', last_angle', err') := fn ref last_angle err in
      store_y (iadd idx IDY_HEADING) ref' ;;
      consistency_loop n' (i + 1) last_angle' err'
  end.

(** The body of [ensure_reference_consistency] up to the final comparison:
    it returns the accumulated [err]. *)
Definition reference_consistency_error (horizon : Index) : M AcadoReal :=
  let horizon := Z.min horizon HORIZON in
  last_angle <- load ACADO.x0 size_x0 IDX_HEADING ;;
  let err := 0%R in
  r <- consistency_loop (Z.to_nat (horizon - 0)) 0 last_angle err ;;
  let '(last_angle, err) := r in
  ref <- load ACADO.yN size_yN IDY_HEADING ;;
  let '(ref', _, err') := fn ref last_angle err in
  store_yN IDY_HEADING ref' ;;
  ret err'.

Definition ensure_reference_consistency (horizon : Index) : M bool :=
  err <- reference_consistency_error horizon ;;
  ret (if Rgt_dec err PI_3_14159 then true else false).

Definition handle_new_trajectory (trajectory : Trajectory) : M Trajectory :=
  c0 <- get ;;
  (match m_interpolated_trajectory c0 with
   | Some buffer =>
       modify (fun c => with_interpolated c (Some (sample trajectory buffer)))
   | None => ret tt
   end) ;;
  c <- get ;;
  let traj :=
    match m_interpolated_trajectory c with
    | Some buffer => buffer
    | None => trajectory
    end in
  let t_max := Z.min (msg.size traj) HORIZON in
  set_reference traj 0 0 t_max ;;
  let weights := config c in
  apply_nominal_weights (nominal weights) 0 t_max ;;
  (if t_max <? HORIZON then zero_nominal_weights t_max HORIZON else ret tt) ;;
  (if t_max >=? msg.size traj then
     zero_terminal_weights ;;
     apply_terminal_weights (isub (msg.size traj) 1)
   else
     pt <- point_at traj t_max ;;
     set_terminal_reference pt) ;;
  modify (fun c => with_last_reference_index c 0) ;;
  ret traj.

End Controller.

(** ** Views of the buffers *)

Section Views.

Variable NU : Index.
Variable c : MpcController.

(** Component [k] of the state, control and reference vector of stage [i],
    component [k] of the terminal reference, and entry [(r, col)] of the
    weight matrix of stage [i] and of the terminal weight matrix. *)
Definition state (i k : Z) : AcadoReal :=
  ACADO.x (acadoVariables c) (i * NX + k).
Definition control (i k : Z) : AcadoReal :=
  ACADO.u (acadoVariables c) (i * NU + k).
Definition stage_ref (i k : Z) : AcadoReal :=
  ACADO.y (acadoVariables c) (i * NY + k).
Definition terminal_ref (k : Z) : AcadoReal :=
  ACADO.yN (acadoVariables c) k.
Definition stage_weight (i r col : Z) : AcadoReal :=
  ACADO.W (acadoVariables c) (i * (NY * NY) + r * NY + col).
Definition terminal_weight (r col : Z) : AcadoReal :=
  ACADO.WN (acadoVariables c) (r * NYN + col).

End Views.

(** ** Closed forms, predicates and concrete inputs *)

(** The buffers after [advance_problem(count)]. *)
Definition advanced (HORIZON NU : Index) (count : Index) (c : MpcController)
  : MpcController :=
  let a := acadoVariables c in
  with_acado c
    (ACADO.mk
       (std_copy (Z.to_nat ((HORIZON + 1) * NX - NX * (count + 1)))
          (NX * (count + 1)) NX (ACADO.x a))
       (std_copy (Z.to_nat (HORIZON * NU - NU * count)) (NU * count) 0
          (ACADO.u a))
       (std_copy (Z.to_nat (HORIZON * NY - NY * count)) (NY * count) 0
          (ACADO.y a))
       (ACADO.yN a) (ACADO.W a) (ACADO.WN a) (ACADO.x0 a)).

(** The controller with one array of [acadoVariables] replaced. *)
Definition set_y (c : MpcController) (v : array) : MpcController :=
  with_acado c (ACADO.with_y (acadoVariables c) v).
Definition set_yN (c : MpcController) (v : array) : MpcController :=
  with_acado c (ACADO.with_yN (acadoVariables c) v).
Definition set_W (c : MpcController) (v : array) : MpcController :=
  with_acado c (ACADO.with_W (acadoVariables c) v).
Definition set_WN (c : MpcController) (v : array) : MpcController :=
  with_acado c (ACADO.with_WN (acadoVariables c) v).

(** The weights of one stage, and the references of one stage, written as
    the source writes them. *)
Definition W_stage (cfg : StateWeight) (i : Z) (w : array) : array :=
  upd (upd (upd (upd w (i * 16 + 0) (pose cfg)) (i * 16 + 5) (pose cfg))
         (i * 16 + 10) (heading cfg))
    (i * 16 + 15) (longitudinal_velocity cfg).

Definition diag_profile (cfg : StateWeight) (e : Z) (old : AcadoReal)
  : AcadoReal :=
  if e =? 0 then pose cfg
  else if e =? 5 then pose cfg
  else if e =? 10 then heading cfg
  else if e =? 15 then longitudinal_velocity cfg
  else old.

(** [W] after the loop of [apply_nominal_weights] over the stages
    [[first, last)]. *)
Definition W_apply (cfg : StateWeight) (first last : Z) (w : array) : array :=
  fun j =>
    if (first <=? j / 16) && (j / 16 <? last)
    then diag_profile cfg (j mod 16) (w j)
    else w j.

(** [W] after [zero_nominal_weights] over the stages [[first, last)]. *)
Definition W_zero (first last : Z) (w : array) : array :=
  fun j => if (first * 16 <=? j) && (j <? last * 16) then 0%R else w j.

(** [WN] after [set_terminal_weights]. *)
Definition WN_set (p h v : AcadoReal) (w : array) : array :=
  upd (upd (upd (upd w 0 p) 5 p) 10 h) 15 v.

Definition point_field (to_angle : msg.Complex32 -> R) (pt : Point) (k : Z)
  : AcadoReal :=
  if k =? 0 then msg.x pt
  else if k =? 1 then msg.y pt
  else if k =? 2 then to_angle (msg.heading pt)
  else msg.longitudinal_velocity_mps pt.

(** [yN] after [set_terminal_reference]. *)
Definition yN_set (to_angle : msg.Complex32 -> R) (pt : Point) (r : array)
  : array :=
  upd (upd (upd (upd r 0 (msg.x pt)) 1 (msg.y pt))
         3 (msg.longitudinal_velocity_mps pt))
    2 (to_angle (msg.heading pt)).

(** [y] after the loop of [set_reference]: stage [s] of [[first, last)]
    holds the point of index [s + delta]. *)
Definition y_set (to_angle : msg.Complex32 -> R) (traj : Trajectory)
    (delta first last : Z) (r : array) : array :=
  fun j =>
    if (first <=? j / 4) && (j / 4 <? last)
    then match nth_error (msg.points traj) (Z.to_nat (j / 4 + delta)) with
         | Some pt => point_field to_angle pt (j mod 4)
         | None => r j
         end
    else r j.

Definition y_stage (to_angle : msg.Complex32 -> R) (pt : Point) (s : Z)
    (r : array) : array :=
  upd (upd (upd (upd r (s * 4 + 0) (msg.x pt)) (s * 4 + 1) (msg.y pt))
         (s * 4 + 3) (msg.longitudinal_velocity_mps pt))
    (s * 4 + 2) (to_angle (msg.heading pt)).

(** The controller after [backfill_reference(count)], when it returns. *)
Definition backfilled (HORIZON : Index) (to_angle : msg.Complex32 -> R)
    (count : Index) (c : MpcController) : MpcController :=
  let traj := reference_trajectory c in
  let ref_start := HORIZON - count in
  let traj_start := backfill_traj_start HORIZON c count in
  let safe_count := backfill_safe_count HORIZON c count in
  let c1 :=
    set_y c (y_set to_angle traj (traj_start - ref_start) ref_start
               (ref_start + safe_count) (ACADO.y (acadoVariables c))) in
  let c2 :=
    if safe_count <? count then
      let remainder := count - safe_count in
      let c' := set_W c1 (W_zero (HORIZON - remainder) HORIZON
                            (ACADO.W (acadoVariables c1))) in
      set_W c' (W_apply (terminal (config c')) (HORIZON - remainder - 1)
                  (HORIZON - remainder) (ACADO.W (acadoVariables c')))
    else c1 in
  if traj_start + count <? msg.size traj then
    match nth_error (msg.points traj) (Z.to_nat (traj_start + count)) with
    | Some pt => set_yN c2 (yN_set to_angle pt (ACADO.yN (acadoVariables c2)))
    | None => c2
    end
  else set_WN c2 (WN_set 0%R 0%R 0%R (ACADO.WN (acadoVariables c2))).

(** The weight profile [cfg] sits on the diagonal of the weights of
    stage [i]. *)
Definition carries_profile (cfg : StateWeight) (c : MpcController) (i : Z)
  : Prop :=
  stage_weight c i IDY_X IDY_X = pose cfg /\
  stage_weight c i IDY_Y IDY_Y = pose cfg /\
  stage_weight c i IDY_HEADING IDY_HEADING = heading cfg /\
  stage_weight c i IDY_VEL_LONG IDY_VEL_LONG = longitudinal_velocity cfg.

(** Every entry of the weights of the stages [[first, last)] is zero. *)
Definition zero_stage_weights (c : MpcController) (first last : Z) : Prop :=
  forall i r col, first <= i < last -> 0 <= r < NY -> 0 <= col < NY ->
    stage_weight c i r col = 0%R.

(** Stage [s] holds the reference of the trajectory point [pt]. *)
Definition holds_point (to_angle : msg.Complex32 -> R) (c : MpcController)
    (s : Z) (pt : Point) : Prop :=
  stage_ref c s IDY_X = msg.x pt /\
  stage_ref c s IDY_Y = msg.y pt /\
  stage_ref c s IDY_VEL_LONG = msg.longitudinal_velocity_mps pt /\
  stage_ref c s IDY_HEADING = to_angle (msg.heading pt).

(** The outcome described for a backfill of [count] stages that runs out of
    trajectory: with [c] before and [c'] after the call, the first [filled]
    of the tail stages hold the trajectory points from index [first_pt] on,
    the remaining tail stages have zero weights, and the stage just before
    them carries the terminal weight profile of the configuration the call
    started with. *)
Definition soft_landing (HORIZON : Index) (to_angle : msg.Complex32 -> R)
    (count filled first_pt : Z) (c c' : MpcController) : Prop :=
  (forall i, 0 <= i < filled ->
     exists pt,
       nth_error (msg.points (reference_trajectory c)) (Z.to_nat (first_pt + i))
       = Some pt /\
       holds_point to_angle c' (HORIZON - count + i) pt) /\
  zero_stage_weights c' (HORIZON - count + filled) HORIZON /\
  carries_profile (terminal (config c)) c' (HORIZON - count + filled - 1).

(** The buffers after the weights of a trajectory of [n <= HORIZON] points
    are laid out, up to and including [zero_terminal_weights]. *)
Definition short_plan_laid_out (HORIZON : Index)
    (to_angle : msg.Complex32 -> R) (traj : Trajectory) (c : MpcController)
  : MpcController :=
  let n := msg.size traj in
  let c1 := set_y c (y_set to_angle traj 0 0 n (ACADO.y (acadoVariables c))) in
  let c2 := set_W c1 (W_apply (nominal (config c)) 0 n
                        (ACADO.W (acadoVariables c1))) in
  let c3 := if n <? HORIZON
            then set_W c2 (W_zero n HORIZON (ACADO.W (acadoVariables c2)))
            else c2 in
  set_WN c3 (WN_set 0%R 0%R 0%R (ACADO.WN (acadoVariables c3))).

(** The controller after [handle_new_trajectory] for such a trajectory. *)
Definition short_plan_handled (HORIZON : Index)
    (to_angle : msg.Complex32 -> R) (traj : Trajectory) (c : MpcController)
  : MpcController :=
  let n := msg.size traj in
  let c4 := short_plan_laid_out HORIZON to_angle traj c in
  let c5 := set_W c4 (W_apply (terminal (config c)) (n - 1) n
                        (ACADO.W (acadoVariables c4))) in
  with_last_reference_index c5 0.

(** Whether the flat index [j] of [W] or [WN] addresses a diagonal entry of a
    4 x 4 matrix. *)
Definition is_diagonal_entry (j : Z) : bool :=
  let e := j mod 16 in (e =? 0) || (e =? 5) || (e =? 10) || (e =? 15).

(** Every off-diagonal entry of every stage weight matrix and of the terminal
    weight matrix is zero. *)
Definition off_diagonal_zero (HORIZON : Index) (c : MpcController) : Prop :=
  (forall i r col, 0 <= i < HORIZON -> 0 <= r < NY -> 0 <= col < NY ->
     r <> col -> stage_weight c i r col = 0%R) /\
  (forall r col, 0 <= r < NYN -> 0 <= col < NYN ->
     r <> col -> terminal_weight c r col = 0%R).

(** The same on the flat arrays. *)
Definition weights_diagonal (HORIZON : Index) (c : MpcController) : Prop :=
  (forall j, 0 <= j < size_W HORIZON -> is_diagonal_entry j = false ->
     ACADO.W (acadoVariables c) j = 0%R) /\
  (forall j, 0 <= j < size_WN -> is_diagonal_entry j = false ->
     ACADO.WN (acadoVariables c) j = 0%R).

(** The public operations, with their arguments. *)
Inductive PublicOp : Type :=
| op_apply_nominal_weights (cfg : StateWeight) (start end_ : Index)
| op_zero_nominal_weights (start end_ : Index)
| op_set_terminal_weights (cfg : StateWeight)
| op_zero_terminal_weights
| op_apply_terminal_weights (idx : Index)
| op_apply_weights (cfg : OptimizationConfig)
| op_set_reference (traj : Trajectory) (y_start traj_start count : Index)
| op_set_terminal_reference (pt : Point)
| op_handle_new_trajectory (trajectory : Trajectory)
| op_advance_problem (count : Index)
| op_backfill_reference (count : Index)
| op_ensure_reference_consistency (horizon : Index).

(** A call of a public operation, its result dropped. *)
Definition run (HORIZON NU : Index) (to_angle : msg.Complex32 -> R)
    (sample : Trajectory -> Trajectory -> Trajectory) (op : PublicOp)
  : M unit :=
  match op with
  | op_apply_nominal_weights cfg start end_ =>
      apply_nominal_weights HORIZON cfg start end_
  | op_zero_nominal_weights start end_ =>
      zero_nominal_weights HORIZON start end_
  | op_set_terminal_weights cfg => set_terminal_weights cfg
  | op_zero_terminal_weights => zero_terminal_weights
  | op_apply_terminal_weights idx => apply_terminal_weights HORIZON idx
  | op_apply_weights cfg => apply_weights HORIZON cfg
  | op_set_reference traj y_start traj_start count =>
      set_reference HORIZON to_angle traj y_start traj_start count
  | op_set_terminal_reference pt => set_terminal_reference to_angle pt
  | op_handle_new_trajectory trajectory =>
      handle_new_trajectory HORIZON to_angle sample trajectory ;; ret tt
  | op_advance_problem count => advance_problem HORIZON NU count
  | op_backfill_reference count => backfill_reference HORIZON to_angle count
  | op_ensure_reference_consistency horizon =>
      ensure_reference_consistency HORIZON horizon ;; ret tt
  end.

(** [m] keeps the property [P] of the controller, whether it returns or
    throws. *)
Definition preserves (P : MpcController -> Prop) {A} (m : M A) : Prop :=
  forall c c', P c -> final_state (m c) = Some c' -> P c'.

(** The loop of [ensure_reference_consistency] on the array [y] alone. *)
Fixpoint unwrap_loop (n : nat) (i : Z) (last_angle err : AcadoReal)
    (r : array) : array * (AcadoReal * AcadoReal) :=
  match n with
  | O => (r, (last_angle, err))
  | S n' =>
      let '(ref', last_angle', err') := fn (r (i * 4 + 2)) last_angle err in
      unwrap_loop n' (i + 1) last_angle' err' (upd r (i * 4 + 2) ref')
  end.

Definition zero_array : array := fun _ => 0%R.

(** The buffers as the program starts: a zero-initialised global. *)
Definition zero_buffers : ACADO.variables :=
  ACADO.mk zero_array zero_array zero_array zero_array zero_array zero_array
    zero_array.

Definition example_config : OptimizationConfig :=
  mkOptimizationConfig (mkStateWeight 1 2 3) (mkStateWeight 10 20 30).

(** A controller without resampler, at temporal index [curr_idx] of the
    stored trajectory [traj]. *)
Definition example_controller (traj : Trajectory) (curr_idx : Index)
  : MpcController :=
  mkController zero_buffers example_config traj curr_idx None 0.

(** A conversion between headings and angles: the heading is the point of
    the unit circle at the angle. *)
Definition to_angle_cartesian (z : msg.Complex32) : R :=
  atan2 (msg.imag z) (msg.real z).
Definition from_angle_cartesian (a : R) : msg.Complex32 :=
  msg.mkComplex32 (cos a) (sin a).

Definition no_resampling (trajectory buffer : Trajectory) : Trajectory :=
  trajectory.

(** The waypoint at [(v, v)], heading along the first axis, with velocity
    [v]. *)
Definition waypoint (v : R) : Point :=
  msg.mkPoint v v (msg.mkComplex32 1 0) v.

Definition trajectory_of (n : nat) : Trajectory :=
  msg.mkTrajectory (map (fun k => waypoint (INR k)) (seq 1 n)).

(** Buffers whose first two stage references head to [-3] and [3], measured
    at the heading [-3]. *)
Definition heading_example : MpcController :=
  mkController
    (ACADO.mk zero_array zero_array
       (fun j => if j =? 6 then 3%R else (-3)%R)
       zero_array zero_array zero_array
       (fun _ => (-3)%R))
    example_config (trajectory_of 0) 0 None 0.



(** The outcome of the heading pass as described for the headings [-3] and
    [3]: both end up at most [0.3] apart, [err] stays below [PI], and the
    pass reports [false]. *)
Definition heading_unwrap_as_described (HORIZON horizon : Index)
    (c : MpcController) : Prop :=
  exists c' err,
    reference_consistency_error HORIZON horizon c = Ok err c' /\
    (Rabs (stage_ref c' 1 IDY_HEADING - stage_ref c' 0 IDY_HEADING)
     <= 3 / 10)%R /\
    (err < PI)%R /\
    ensure_reference_consistency HORIZON horizon c = Ok false c'.

(** Modelled from the spec: the angle conversion [motion_common::to_angle]
    and its inverse, which are not part of the sources at hand.  The spec
    asks for a bidirectional mapping between the heading representation of
    the trajectory and the internal angle in radian that preserves precision:
    converting an angle of [(-PI, PI]] to a heading and back changes it by at
    most [1e-6]. *)
Definition precision_preserving (to_angle : msg.Complex32 -> R)
    (from_angle : R -> msg.Complex32) : Prop :=
  forall a, (- PI < a <= PI)%R ->
    (Rabs (to_angle (from_angle a) - a) <= 1 / 1000000)%R.

(** [m] never throws, whatever the state it starts from. *)
Definition never_throws {A} (m : M A) : Prop :=
  forall c, throws (m c) = false.

(** The first [n] stage references follow the trajectory [traj] from its
    index [base] on. *)
Definition aligned (to_angle : msg.Complex32 -> R) (c : MpcController)
    (traj : Trajectory) (base n : Z) : Prop :=
  forall i, 0 <= i < n ->
    exists pt,
      nth_error (msg.points traj) (Z.to_nat (base + i)) = Some pt /\
      holds_point to_angle c i pt.

(** The controller and the accumulated [err] after the heading pass. *)
Definition consistency_pass (HORIZON horizon : Index) (c : MpcController)
  : MpcController * AcadoReal :=
  let a := acadoVariables c in
  let r := unwrap_loop (Z.to_nat (Z.min horizon HORIZON - 0)) 0
             (ACADO.x0 a IDX_HEADING) 0%R (ACADO.y a) in
  let t := fn (ACADO.yN a IDY_HEADING) (fst (snd r)) (snd (snd r)) in
  (set_yN (set_y c (fst r)) (upd (ACADO.yN a) IDY_HEADING (fst (fst t))),
   snd t).

(** The controller after [handle_new_trajectory] for a trajectory of more
    than [HORIZON] points, whose point of index [HORIZON] is [pt]. *)
Definition long_plan_handled (HORIZON : Index)
    (to_angle : msg.Complex32 -> R) (traj : Trajectory) (pt : Point)
    (c : MpcController) : MpcController :=
  let c1 := set_y c (y_set to_angle traj 0 0 HORIZON
                       (ACADO.y (acadoVariables c))) in
  let c2 := set_W c1 (W_apply (nominal (config c)) 0 HORIZON
                        (ACADO.W (acadoVariables c1))) in
  let c3 := set_yN c2 (yN_set to_angle pt (ACADO.yN (acadoVariables c2))) in
  with_last_reference_index c3 0.

(** A controller with a horizon of two stages whose stage references follow
    the stored trajectory of [n] points from its start. *)
Definition following_controller (n : nat) : MpcController :=
  mkController
    (ACADO.mk zero_array zero_array
       (y_set to_angle_cartesian (trajectory_of n) 0 0 2 zero_array)
       zero_array zero_array zero_array zero_array)
    example_config (trajectory_of n) 0 None 0.

(** ** Index arithmetic *)

Lemma SIZE_MOD_eq : SIZE_MOD = 18446744073709551616.
Proof. reflexivity. Qed.

Lemma wrap_small (z : Z) : 0 <= z < SIZE_MOD -> wrap z = z.
Proof. intros H. unfold wrap. now apply Z.mod_small. Qed.

Lemma wrap_range (z : Z) : is_index (wrap z).
Proof. unfold is_index, wrap. apply Z.mod_pos_bound. reflexivity. Qed.

Lemma iadd_small (a b : Z) : 0 <= a + b < SIZE_MOD -> iadd a b = a + b.
Proof. apply wrap_small. Qed.

Lemma isub_small (a b : Z) : 0 <= a - b < SIZE_MOD -> isub a b = a - b.
Proof. apply wrap_small. Qed.

Lemma imul_small (a b : Z) : 0 <= a * b < SIZE_MOD -> imul a b = a * b.
Proof. apply wrap_small. Qed.

(** ** The library loops in closed form *)

Lemma upd_eq (a : array) (i : Z) (v : AcadoReal) : upd a i v i = v.
Proof. unfold upd. now rewrite Z.eqb_refl. Qed.

Lemma upd_neq (a : array) (i j : Z) (v : AcadoReal) :
  j <> i -> upd a i v j = a j.
Proof. intros H. unfold upd. now apply Z.eqb_neq in H as ->. Qed.

(** Case analysis on every integer comparison of the goal. *)
Ltac case_cmp :=
  repeat match goal with
    | |- context [?a <=? ?b] => destruct (Z.leb_spec a b)
    | |- context [?a <? ?b] => destruct (Z.ltb_spec a b)
    | |- context [?a =? ?b] => destruct (Z.eqb_spec a b)
    end;
  cbn [andb orb negb].

Lemma std_fill_spec (n : nat) (v : AcadoReal) :
  forall (first : Z) (a : array) (j : Z),
    std_fill n first v a j =
    if (first <=? j) && (j <? first + Z.of_nat n) then v else a j.
Proof.
  induction n as [|n IH]; intros first a j; cbn [std_fill].
  - case_cmp; reflexivity || lia.
  - rewrite IH. unfold upd. case_cmp; reflexivity || lia.
Qed.

Lemma std_copy_spec (n : nat) :
  forall (first d_first : Z) (a : array) (j : Z),
    d_first <= first ->
    std_copy n first d_first a j =
    if (d_first <=? j) && (j <? d_first + Z.of_nat n)
    then a (j + (first - d_first)) else a j.
Proof.
  induction n as [|n IH]; intros first d_first a j Hle; cbn [std_copy].
  - case_cmp; reflexivity || lia.
  - rewrite IH by lia. unfold upd.
    case_cmp; try reflexivity; try lia; f_equal; lia.
Qed.

(** ** Rolling the horizon: [advance_problem] *)

Section AdvanceProblem.

Variable HORIZON : Index.
Variable NU : Index.

(** The arrays of [acadoVariables] exist, so their sizes are values of
    [std::size_t]. *)
Hypothesis HORIZON_fits : 0 <= HORIZON /\ size_W HORIZON < SIZE_MOD.
Hypothesis NU_fits : 0 <= NU /\ size_u HORIZON NU < SIZE_MOD.

Lemma advance_problem_ok (count : Index) (c : MpcController) :
  0 <= count < HORIZON ->
  advance_problem HORIZON NU count c = Ok tt (advanced HORIZON NU count c).
Proof.
  intros Hc. destruct HORIZON_fits as [HN HW], NU_fits as [HU HSU].
  unfold size_W, size_u, NY in HW, HSU. rewrite SIZE_MOD_eq in HW, HSU.
  unfold advance_problem.
  destruct (Z.leb_spec HORIZON count) as [?|_]; [lia|].
  assert (E1 : iadd count 1 = count + 1)
    by (apply iadd_small; rewrite SIZE_MOD_eq; lia).
  assert (E2 : iadd HORIZON 1 = HORIZON + 1)
    by (apply iadd_small; rewrite SIZE_MOD_eq; lia).
  rewrite E1, E2.
  assert (E3 : imul NX (count + 1) = NX * (count + 1))
    by (apply imul_small; rewrite SIZE_MOD_eq; unfold NX; lia).
  assert (E4 : imul (HORIZON + 1) NX = (HORIZON + 1) * NX)
    by (apply imul_small; rewrite SIZE_MOD_eq; unfold NX; lia).
  assert (E5 : imul NY count = NY * count)
    by (apply imul_small; rewrite SIZE_MOD_eq; unfold NY; lia).
  assert (E6 : imul HORIZON NY = HORIZON * NY)
    by (apply imul_small; rewrite SIZE_MOD_eq; unfold NY; lia).
  assert (E7 : imul NU count = NU * count)
    by (apply imul_small; rewrite SIZE_MOD_eq; nia).
  assert (E8 : imul HORIZON NU = HORIZON * NU)
    by (apply imul_small; rewrite SIZE_MOD_eq; nia).
  rewrite E3, E4, E5, E6, E7, E8.
  unfold bind, copy, size_x, size_y, size_u.
  replace ((NX * (count + 1) <=? (HORIZON + 1) * NX)
           && ((HORIZON + 1) * NX <=? (HORIZON + 1) * NX)
           && (NX + ((HORIZON + 1) * NX - NX * (count + 1))
               <=? (HORIZON + 1) * NX)) with true
    by (unfold NX; case_cmp; reflexivity || lia).
  replace ((NY * count <=? HORIZON * NY) && (HORIZON * NY <=? HORIZON * NY)
           && (0 + (HORIZON * NY - NY * count) <=? HORIZON * NY)) with true
    by (unfold NY; case_cmp; reflexivity || lia).
  replace ((NU * count <=? HORIZON * NU) && (HORIZON * NU <=? HORIZON * NU)
           && (0 + (HORIZON * NU - NU * count) <=? HORIZON * NU)) with true
    by (case_cmp; reflexivity || nia).
  reflexivity.
Qed.

(** C1.  For [0 <= count < HORIZON], [advance_problem(count)] returns and
    shifts the buffers by [count] stages: for every stage [i] of
    [[0, HORIZON - count)], the reference and the control of stage [i] are the
    former ones of stage [i + count], and the state of stage [i + 1] is the
    former one of stage [i + 1 + count]. *)
Theorem advance_problem_shift (count : Index) (c : MpcController) :
  0 <= count < HORIZON ->
  exists c',
    advance_problem HORIZON NU count c = Ok tt c' /\
    forall i, 0 <= i < HORIZON - count ->
      (forall k, 0 <= k < NY -> stage_ref c' i k = stage_ref c (i + count) k) /\
      (forall k, 0 <= k < NU ->
         control NU c' i k = control NU c (i + count) k) /\
      (forall k, 0 <= k < NX ->
         state c' (i + 1) k = state c (i + 1 + count) k).
Proof.
  intros Hc. exists (advanced HORIZON NU count c). split.
  - now apply advance_problem_ok.
  - intros i Hi. unfold stage_ref, control, state, advanced, NX, NY.
    cbn [acadoVariables with_acado ACADO.x ACADO.u ACADO.y].
    repeat split; intros k Hk; rewrite std_copy_spec by lia.
    + case_cmp; try lia. f_equal. lia.
    + case_cmp; try nia. f_equal. lia.
    + case_cmp; try lia. f_equal. lia.
Qed.

(** C8.  For [0 <= count < HORIZON], [advance_problem(count)] returns,
    leaves the measurement slot [state[0]] as it was and changes nothing but
    the state, stage-reference and control arrays: stage weights, terminal
    weight, terminal reference, initial state and the other members of the
    controller are unchanged. *)
Theorem advance_problem_frame (count : Index) (c : MpcController) :
  0 <= count < HORIZON ->
  exists c',
    advance_problem HORIZON NU count c = Ok tt c' /\
    (forall k, 0 <= k < NX -> state c' 0 k = state c 0 k) /\
    ACADO.W (acadoVariables c') = ACADO.W (acadoVariables c) /\
    ACADO.WN (acadoVariables c') = ACADO.WN (acadoVariables c) /\
    ACADO.yN (acadoVariables c') = ACADO.yN (acadoVariables c) /\
    ACADO.x0 (acadoVariables c') = ACADO.x0 (acadoVariables c) /\
    config c' = config c /\
    reference_trajectory c' = reference_trajectory c /\
    current_state_temporal_index c' = current_state_temporal_index c /\
    m_interpolated_trajectory c' = m_interpolated_trajectory c /\
    m_last_reference_index c' = m_last_reference_index c.
Proof.
  intros Hc. exists (advanced HORIZON NU count c). split.
  - now apply advance_problem_ok.
  - repeat split. intros k Hk. unfold state, advanced, NX in *.
    cbn [acadoVariables with_acado ACADO.x].
    rewrite std_copy_spec by lia. case_cmp; reflexivity || lia.
Qed.

End AdvanceProblem.

(** ** Stores into the buffers *)

Lemma set_y_same (c : MpcController) : set_y c (ACADO.y (acadoVariables c)) = c.
Proof. destruct c as [[] ? ? ? ? ?]; reflexivity. Qed.

Lemma set_W_same (c : MpcController) : set_W c (ACADO.W (acadoVariables c)) = c.
Proof. destruct c as [[] ? ? ? ? ?]; reflexivity. Qed.

Lemma set_y_set_y (c : MpcController) (v v' : array) :
  set_y (set_y c v) v' = set_y c v'.
Proof. reflexivity. Qed.

Lemma set_W_set_W (c : MpcController) (v v' : array) :
  set_W (set_W c v) v' = set_W c v'.
Proof. reflexivity. Qed.

Lemma W_apply_empty (cfg : StateWeight) (i : Z) (w : array) :
  W_apply cfg i i w = w.
Proof.
  apply functional_extensionality; intros j. unfold W_apply.
  case_cmp; reflexivity || lia.
Qed.

Lemma W_apply_step (cfg : StateWeight) (i last : Z) (w : array) :
  i < last ->
  W_apply cfg (i + 1) last (W_stage cfg i w) = W_apply cfg i last w.
Proof.
  intros Hi. apply functional_extensionality; intros j.
  unfold W_apply, W_stage, upd, diag_profile.
  pose proof (Z.div_mod j 16 ltac:(lia)) as Hdm.
  pose proof (Z.mod_pos_bound j 16 ltac:(lia)) as Hm.
  case_cmp; reflexivity || lia.
Qed.

Lemma y_set_empty (to_angle : msg.Complex32 -> R) (traj : Trajectory)
    (delta i : Z) (r : array) :
  y_set to_angle traj delta i i r = r.
Proof.
  apply functional_extensionality; intros j. unfold y_set.
  case_cmp; reflexivity || lia.
Qed.

Lemma W_zero_fill (first last : Z) (w : array) :
  first <= last ->
  std_fill (Z.to_nat (last * 16 - first * 16)) (first * 16) 0%R w =
  W_zero first last w.
Proof.
  intros H. apply functional_extensionality; intros j.
  rewrite std_fill_spec. unfold W_zero. rewrite Z2Nat.id by lia.
  case_cmp; reflexivity || lia.
Qed.

Lemma y_set_step (to_angle : msg.Complex32 -> R) (traj : Trajectory)
    (pt : Point) (delta i last : Z) (r : array) :
  nth_error (msg.points traj) (Z.to_nat (i + delta)) = Some pt ->
  i < last ->
  y_set to_angle traj delta (i + 1) last (y_stage to_angle pt i r) =
  y_set to_angle traj delta i last r.
Proof.
  intros Hpt Hi. apply functional_extensionality; intros j.
  unfold y_set, y_stage, upd, point_field.
  pose proof (Z.div_mod j 4 ltac:(lia)) as Hdm.
  pose proof (Z.mod_pos_bound j 4 ltac:(lia)) as Hm.
  destruct (Z.eq_dec (j / 4) i) as [E|E].
  - rewrite E, Hpt. case_cmp; reflexivity || lia.
  - destruct (nth_error (msg.points traj) (Z.to_nat (j / 4 + delta)));
      case_cmp; reflexivity || lia.
Qed.

(** Rewrites the innermost wrapped operation whose result is in range. *)
Ltac unwrap1 :=
  match goal with
  | |- context [wrap ?z] =>
      lazymatch z with
      | context [wrap _] => fail
      | _ => rewrite (wrap_small z) by (rewrite SIZE_MOD_eq; lia)
      end
  end.
Ltac unwrap := unfold iadd, isub, imul; repeat unwrap1.

Section Loops.

Variable HORIZON : Index.
Hypothesis HORIZON_fits : 0 <= HORIZON /\ size_W HORIZON < SIZE_MOD.

Lemma store_W_ok (i : Index) (v : AcadoReal) (c : MpcController) :
  i < size_W HORIZON ->
  store_W HORIZON i v c = Ok tt (set_W c (upd (ACADO.W (acadoVariables c)) i v)).
Proof.
  intros H. unfold store_W, store. now apply Z.ltb_lt in H as ->.
Qed.

Lemma store_y_ok (i : Index) (v : AcadoReal) (c : MpcController) :
  i < size_y HORIZON ->
  store_y HORIZON i v c = Ok tt (set_y c (upd (ACADO.y (acadoVariables c)) i v)).
Proof.
  intros H. unfold store_y, store. now apply Z.ltb_lt in H as ->.
Qed.

Lemma for_loop_W (cfg : StateWeight) (body : Index -> M unit) (n : nat) :
  forall (i : Index) (c : MpcController),
    (forall k c', i <= k < i + Z.of_nat n ->
       body k c' =
       Ok tt (set_W c' (W_stage cfg k (ACADO.W (acadoVariables c'))))) ->
    for_loop n i body c =
    Ok tt (set_W c (W_apply cfg i (i + Z.of_nat n)
                      (ACADO.W (acadoVariables c)))).
Proof.
  induction n as [|n IH]; intros i c Hbody.
  - cbn [for_loop]. unfold ret.
    rewrite Z.add_0_r, W_apply_empty, set_W_same. reflexivity.
  - cbn [for_loop]. unfold bind at 1. rewrite Hbody by lia.
    rewrite IH by (intros; apply Hbody; lia).
    rewrite set_W_set_W. cbn [set_W with_acado acadoVariables ACADO.with_W ACADO.W].
    rewrite W_apply_step by lia.
    do 3 f_equal. lia.
Qed.

Lemma for_loop_y (to_angle : msg.Complex32 -> R) (traj : Trajectory)
    (y_start traj_start : Z) (body : Index -> M unit) (n : nat) :
  forall (k : Index) (c : MpcController),
    (forall k' c', k <= k' < k + Z.of_nat n ->
       exists pt,
         nth_error (msg.points traj) (Z.to_nat (traj_start + k')) = Some pt /\
         body k' c' =
         Ok tt (set_y c' (y_stage to_angle pt (y_start + k')
                            (ACADO.y (acadoVariables c'))))) ->
    for_loop n k body c =
    Ok tt (set_y c (y_set to_angle traj (traj_start - y_start)
                      (y_start + k) (y_start + k + Z.of_nat n)
                      (ACADO.y (acadoVariables c)))).
Proof.
  induction n as [|n IH]; intros k c Hbody.
  - cbn [for_loop]. unfold ret.
    rewrite Z.add_0_r, y_set_empty, set_y_same. reflexivity.
  - cbn [for_loop]. unfold bind at 1.
    destruct (Hbody k c ltac:(lia)) as (pt & Hpt & ->).
    rewrite IH by (intros; apply Hbody; lia).
    rewrite set_y_set_y. cbn [set_y with_acado acadoVariables ACADO.with_y ACADO.y].
    replace (y_start + (k + 1)) with (y_start + k + 1) by lia.
    rewrite (y_set_step to_angle traj pt).
    + do 3 f_equal. lia.
    + replace (y_start + k + (traj_start - y_start)) with (traj_start + k)
        by lia.
      exact Hpt.
    + lia.
Qed.

End Loops.

(** ** The primitives in closed form *)

Section Primitives.

Variable HORIZON : Index.
Variable to_angle : msg.Complex32 -> R.
Hypothesis HORIZON_fits : 0 <= HORIZON /\ size_W HORIZON < SIZE_MOD.

Lemma apply_nominal_weights_throw (cfg : StateWeight) (start end_ : Index)
    (c : MpcController) :
  Z.min end_ HORIZON < start ->
  apply_nominal_weights HORIZON cfg start end_ c =
  Throw "Inconsistent bounds: apply! There's likely an indexing bug somewhere"
    c.
Proof.
  intros H. unfold apply_nominal_weights.
  destruct (Z.gtb_spec start (Z.min end_ HORIZON)); [reflexivity|lia].
Qed.

Lemma apply_nominal_weights_ok (cfg : StateWeight) (start end_ : Index)
    (c : MpcController) :
  0 <= start <= Z.min end_ HORIZON ->
  apply_nominal_weights HORIZON cfg start end_ c =
  Ok tt (set_W c (W_apply cfg start (Z.min end_ HORIZON)
                    (ACADO.W (acadoVariables c)))).
Proof.
  intros H. destruct HORIZON_fits as [HN HW].
  unfold size_W, NY in HW. rewrite SIZE_MOD_eq in HW.
  unfold apply_nominal_weights.
  destruct (Z.gtb_spec start (Z.min end_ HORIZON)); [lia|].
  unfold for_range. rewrite (for_loop_W cfg).
  - rewrite Z2Nat.id by lia. do 3 f_equal. lia.
  - intros k c' Hk. rewrite Z2Nat.id in Hk by lia.
    change (imul NY NY) with 16. change (imul IDY_X NY) with 0.
    change (imul IDY_Y NY) with 4. change (imul IDY_HEADING NY) with 8.
    change (imul IDY_VEL_LONG NY) with 12.
    unfold IDY_X, IDY_Y, IDY_HEADING, IDY_VEL_LONG. unwrap.
    unfold bind.
    repeat (rewrite store_W_ok by (unfold size_W, NY; lia)).
    replace (k * 16 + 0 + 0) with (k * 16 + 0) by lia.
    replace (k * 16 + 4 + 1) with (k * 16 + 5) by lia.
    replace (k * 16 + 8 + 2) with (k * 16 + 10) by lia.
    replace (k * 16 + 12 + 3) with (k * 16 + 15) by lia.
    reflexivity.
Qed.

Lemma apply_terminal_weights_throw (idx : Index) (c : MpcController) :
  HORIZON <= idx ->
  apply_terminal_weights HORIZON idx c =
  Throw "Out of bounds terminal weight index" c.
Proof.
  intros H. unfold apply_terminal_weights.
  destruct (Z.geb_spec idx HORIZON); [reflexivity|lia].
Qed.

Lemma apply_terminal_weights_ok (idx : Index) (c : MpcController) :
  0 <= idx < HORIZON ->
  apply_terminal_weights HORIZON idx c =
  Ok tt (set_W c (W_apply (terminal (config c)) idx (idx + 1)
                    (ACADO.W (acadoVariables c)))).
Proof.
  intros H. destruct HORIZON_fits as [HN HW].
  unfold size_W, NY in HW. rewrite SIZE_MOD_eq in HW.
  unfold apply_terminal_weights.
  destruct (Z.geb_spec idx HORIZON); [lia|].
  unfold bind, get. unwrap.
  rewrite apply_nominal_weights_ok by lia.
  do 3 f_equal. lia.
Qed.

Lemma zero_nominal_weights_throw (start end_ : Index) (c : MpcController) :
  Z.min HORIZON end_ < start ->
  zero_nominal_weights HORIZON start end_ c =
  Throw "Inconsistent bounds: zero! There's likely an indexing bug somewhere"
    c.
Proof.
  intros H. unfold zero_nominal_weights.
  destruct (Z.gtb_spec start (Z.min HORIZON end_)); [reflexivity|lia].
Qed.

Lemma zero_nominal_weights_ok (start end_ : Index) (c : MpcController) :
  0 <= start <= Z.min HORIZON end_ ->
  zero_nominal_weights HORIZON start end_ c =
  Ok tt (set_W c (W_zero start (Z.min HORIZON end_)
                    (ACADO.W (acadoVariables c)))).
Proof.
  intros H. destruct HORIZON_fits as [HN HW].
  unfold size_W, NY in HW. rewrite SIZE_MOD_eq in HW.
  unfold zero_nominal_weights.
  destruct (Z.gtb_spec start (Z.min HORIZON end_)); [lia|].
  change (imul NY NY) with 16. unwrap.
  unfold fill, size_W, NY.
  replace ((start * 16 <=? Z.min HORIZON end_ * 16)
           && (Z.min HORIZON end_ * 16 <=? HORIZON * 4 * 4)) with true
    by (case_cmp; reflexivity || lia).
  rewrite W_zero_fill by lia. reflexivity.
Qed.

Lemma zero_terminal_weights_ok (c : MpcController) :
  zero_terminal_weights c =
  Ok tt (set_WN c (WN_set 0%R 0%R 0%R (ACADO.WN (acadoVariables c)))).
Proof. reflexivity. Qed.

Lemma set_terminal_weights_ok (cfg : StateWeight) (c : MpcController) :
  set_terminal_weights cfg c =
  Ok tt (set_WN c (WN_set (pose cfg) (heading cfg)
                     (longitudinal_velocity cfg)
                     (ACADO.WN (acadoVariables c)))).
Proof. reflexivity. Qed.

Lemma set_terminal_reference_ok (pt : Point) (c : MpcController) :
  set_terminal_reference to_angle pt c =
  Ok tt (set_yN c (yN_set to_angle pt (ACADO.yN (acadoVariables c)))).
Proof. reflexivity. Qed.

Lemma set_reference_throw (traj : Trajectory)
    (y_start traj_start count : Index) (c : MpcController) :
  HORIZON < iadd y_start count \/ msg.size traj < iadd traj_start count ->
  set_reference HORIZON to_angle traj y_start traj_start count c =
  Throw "set_reference would go out of bounds! Indexing bug likely!" c.
Proof.
  intros H. unfold set_reference.
  destruct (Z.gtb_spec (iadd y_start count) HORIZON);
    destruct (Z.gtb_spec (iadd traj_start count) (msg.size traj));
    cbn [orb]; reflexivity || lia.
Qed.

Lemma set_reference_ok (traj : Trajectory)
    (y_start traj_start count : Index) (c : MpcController) :
  0 <= y_start -> 0 <= traj_start -> 0 <= count ->
  y_start + count <= HORIZON ->
  traj_start + count <= msg.size traj ->
  msg.size traj < SIZE_MOD ->
  set_reference HORIZON to_angle traj y_start traj_start count c =
  Ok tt (set_y c (y_set to_angle traj (traj_start - y_start)
                    y_start (y_start + count)
                    (ACADO.y (acadoVariables c)))).
Proof.
  intros Hy Ht Hc Hyc Htc Hsz. destruct HORIZON_fits as [HN HW].
  unfold size_W, NY in HW. rewrite SIZE_MOD_eq in HW, Hsz.
  unfold set_reference. unwrap.
  destruct (Z.gtb_spec (y_start + count) HORIZON); [lia|].
  destruct (Z.gtb_spec (traj_start + count) (msg.size traj)); [lia|].
  cbn [orb]. unfold for_range.
  rewrite (for_loop_y to_angle traj y_start traj_start).
  - rewrite Z.sub_0_r, Z2Nat.id, Z.add_0_r by lia. reflexivity.
  - intros k c' Hk. rewrite Z.sub_0_r, Z2Nat.id in Hk by lia.
    destruct (nth_error (msg.points traj) (Z.to_nat (traj_start + k)))
      as [pt|] eqn:Hpt.
    + exists pt. split; [reflexivity|].
      unfold bind at 1. unfold point_at. unwrap. rewrite Hpt. unfold ret.
      unfold IDY_X, IDY_Y, IDY_HEADING, IDY_VEL_LONG, NY. unwrap.
      unfold bind.
      repeat (rewrite store_y_ok by (unfold size_y, NY; lia)).
      reflexivity.
    + apply nth_error_None in Hpt. unfold msg.size in Htc. lia.
Qed.

End Primitives.

(** ** Refilling the tail: [backfill_reference] *)

Section Backfill.

Variable HORIZON : Index.
Variable to_angle : msg.Complex32 -> R.
Hypothesis HORIZON_fits : 0 <= HORIZON /\ size_W HORIZON < SIZE_MOD.

Lemma backfill_locals (count : Index) (c : MpcController) :
  0 <= count < HORIZON ->
  is_index (current_state_temporal_index c) ->
  msg.size (reference_trajectory c) + HORIZON < SIZE_MOD ->
  let max_pts := msg.size (reference_trajectory c) in
  let ref_start := backfill_ref_start HORIZON count in
  let traj_start := backfill_traj_start HORIZON c count in
  let safe_count := backfill_safe_count HORIZON c count in
  ref_start = HORIZON - count /\
  0 <= traj_start <= max_pts /\
  safe_count = Z.min (traj_start + count) max_pts - traj_start /\
  iadd traj_start count = traj_start + count.
Proof.
  intros Hc Hi Hs. cbv zeta.
  assert (Hsz : 0 <= msg.size (reference_trajectory c))
    by (unfold msg.size; lia).
  rewrite SIZE_MOD_eq in Hs.
  assert (E1 : backfill_ref_start HORIZON count = HORIZON - count).
  { unfold backfill_ref_start. unwrap. reflexivity. }
  assert (E2 : 0 <= backfill_traj_start HORIZON c count
               <= msg.size (reference_trajectory c)).
  { unfold backfill_traj_start, iadd.
    pose proof (wrap_range (current_state_temporal_index c
                            + backfill_ref_start HORIZON count)) as Hw.
    unfold is_index in Hw. lia. }
  assert (E3 : iadd (backfill_traj_start HORIZON c count) count =
               backfill_traj_start HORIZON c count + count).
  { apply iadd_small. rewrite SIZE_MOD_eq. lia. }
  repeat split; try lia; try assumption.
  unfold backfill_safe_count, backfill_traj_end. rewrite E3.
  apply isub_small. rewrite SIZE_MOD_eq. lia.
Qed.

Lemma backfill_reference_ok (count : Index) (c : MpcController) :
  0 <= count < HORIZON ->
  is_index (current_state_temporal_index c) ->
  msg.size (reference_trajectory c) + HORIZON < SIZE_MOD ->
  backfill_reference HORIZON to_angle count c =
  Ok tt (backfilled HORIZON to_angle count c).
Proof.
  intros Hc Hi Hs.
  destruct (backfill_locals count c Hc Hi Hs) as (E1 & E2 & E3 & E4).
  destruct HORIZON_fits as [HN HW].
  unfold size_W, NY in HW. rewrite SIZE_MOD_eq in HW, Hs.
  unfold backfill_reference, backfilled.
  destruct (Z.leb_spec HORIZON count); [lia|].
  unfold bind at 1. unfold get. unfold bind at 1.
  rewrite (set_reference_ok HORIZON to_angle HORIZON_fits)
    by (rewrite ?E1, ?SIZE_MOD_eq; lia).
  rewrite E1, E4.
  set (ts := backfill_traj_start HORIZON c count) in *.
  set (sc := backfill_safe_count HORIZON c count) in *.
  set (c1 := set_y c _).
  unfold bind at 1.
  assert (Hmid :
    (if sc <? count
     then zero_nominal_weights HORIZON (isub HORIZON (isub count sc)) HORIZON ;;
          apply_terminal_weights HORIZON (isub HORIZON (iadd (isub count sc) 1))
     else ret tt) c1 =
    Ok tt
      (if sc <? count
       then
         set_W
           (set_W c1 (W_zero (HORIZON - (count - sc)) HORIZON
                        (ACADO.W (acadoVariables c1))))
           (W_apply (terminal (config c1)) (HORIZON - (count - sc) - 1)
              (HORIZON - (count - sc))
              (ACADO.W (acadoVariables
                 (set_W c1 (W_zero (HORIZON - (count - sc)) HORIZON
                              (ACADO.W (acadoVariables c1)))))))
       else c1)).
  { destruct (Z.ltb_spec sc count); [|reflexivity].
    unwrap. unfold bind.
    rewrite (zero_nominal_weights_ok HORIZON HORIZON_fits) by lia.
    rewrite Z.min_id.
    rewrite (apply_terminal_weights_ok HORIZON HORIZON_fits) by lia.
    replace (HORIZON - (count - sc + 1)) with (HORIZON - (count - sc) - 1)
      by lia.
    replace (HORIZON - (count - sc) - 1 + 1) with (HORIZON - (count - sc))
      by lia.
    reflexivity. }
  rewrite Hmid. clear Hmid.
  destruct (Z.ltb_spec (ts + count) (msg.size (reference_trajectory c)))
    as [Hlt|Hge].
  - unfold bind, point_at.
    destruct (nth_error (msg.points (reference_trajectory c))
                (Z.to_nat (ts + count))) as [pt|] eqn:Hpt.
    + reflexivity.
    + apply nth_error_None in Hpt. unfold msg.size in Hlt. lia.
  - reflexivity.
Qed.

End Backfill.

(** ** Reading the closed forms through the views *)

Lemma flat16 (i e : Z) :
  0 <= e < 16 -> (i * 16 + e) / 16 = i /\ (i * 16 + e) mod 16 = e.
Proof. intros H. Z.div_mod_to_equations. lia. Qed.

Lemma flat4 (i e : Z) :
  0 <= e < 4 -> (i * 4 + e) / 4 = i /\ (i * 4 + e) mod 4 = e.
Proof. intros H. Z.div_mod_to_equations. lia. Qed.

Lemma W_apply_at (cfg : StateWeight) (first last : Z) (w : array)
    (i r col : Z) :
  0 <= r < 4 -> 0 <= col < 4 ->
  W_apply cfg first last w (i * (NY * NY) + r * NY + col) =
  if (first <=? i) && (i <? last)
  then diag_profile cfg (r * 4 + col) (w (i * (NY * NY) + r * NY + col))
  else w (i * (NY * NY) + r * NY + col).
Proof.
  intros Hr Hc. unfold W_apply, NY.
  replace (i * (4 * 4) + r * 4 + col) with (i * 16 + (r * 4 + col)) by lia.
  destruct (flat16 i (r * 4 + col) ltac:(lia)) as [-> ->]. reflexivity.
Qed.

Lemma W_zero_at (first last : Z) (w : array) (i r col : Z) :
  0 <= r < 4 -> 0 <= col < 4 ->
  W_zero first last w (i * (NY * NY) + r * NY + col) =
  if (first <=? i) && (i <? last) then 0%R
  else w (i * (NY * NY) + r * NY + col).
Proof.
  intros Hr Hc. unfold W_zero, NY. case_cmp; reflexivity || lia.
Qed.

Lemma y_set_at (to_angle : msg.Complex32 -> R) (traj : Trajectory)
    (delta first last : Z) (r : array) (i k : Z) :
  0 <= k < 4 ->
  y_set to_angle traj delta first last r (i * NY + k) =
  if (first <=? i) && (i <? last)
  then match nth_error (msg.points traj) (Z.to_nat (i + delta)) with
       | Some pt => point_field to_angle pt k
       | None => r (i * NY + k)
       end
  else r (i * NY + k).
Proof.
  intros Hk. unfold y_set, NY.
  destruct (flat4 i k Hk) as [-> ->]. reflexivity.
Qed.

Section BackfillViews.

Variable HORIZON : Index.
Variable to_angle : msg.Complex32 -> R.
Hypothesis HORIZON_fits : 0 <= HORIZON /\ size_W HORIZON < SIZE_MOD.

Lemma backfilled_y (count : Index) (c : MpcController) :
  ACADO.y (acadoVariables (backfilled HORIZON to_angle count c)) =
  y_set to_angle (reference_trajectory c)
    (backfill_traj_start HORIZON c count - (HORIZON - count))
    (HORIZON - count)
    (HORIZON - count + backfill_safe_count HORIZON c count)
    (ACADO.y (acadoVariables c)).
Proof.
  unfold backfilled. cbv zeta.
  destruct (_ <? count); destruct (_ <? msg.size _);
    try destruct (nth_error _ _); reflexivity.
Qed.

Lemma backfilled_W (count : Index) (c : MpcController) :
  ACADO.W (acadoVariables (backfilled HORIZON to_angle count c)) =
  let safe_count := backfill_safe_count HORIZON c count in
  if safe_count <? count then
    W_apply (terminal (config c)) (HORIZON - (count - safe_count) - 1)
      (HORIZON - (count - safe_count))
      (W_zero (HORIZON - (count - safe_count)) HORIZON
         (ACADO.W (acadoVariables c)))
  else ACADO.W (acadoVariables c).
Proof.
  unfold backfilled. cbv zeta.
  destruct (_ <? count); destruct (_ <? msg.size _);
    try destruct (nth_error _ _); reflexivity.
Qed.

Lemma backfilled_config (count : Index) (c : MpcController) :
  config (backfilled HORIZON to_angle count c) = config c.
Proof.
  unfold backfilled. cbv zeta.
  destruct (_ <? count); destruct (_ <? msg.size _);
    try destruct (nth_error _ _); reflexivity.
Qed.

(** When the trajectory runs out during the refill, [backfill_reference]
    lands softly: it copies [safe_count] points, from the trajectory index
    [traj_start] on. *)
Lemma backfill_reference_soft_landing (count : Index) (c : MpcController) :
  0 <= count < HORIZON ->
  is_index (current_state_temporal_index c) ->
  msg.size (reference_trajectory c) + HORIZON < SIZE_MOD ->
  backfill_safe_count HORIZON c count < count ->
  exists c',
    backfill_reference HORIZON to_angle count c = Ok tt c' /\
    soft_landing HORIZON to_angle count
      (backfill_safe_count HORIZON c count)
      (backfill_traj_start HORIZON c count) c c'.
Proof.
  intros Hc Hi Hs Hlt.
  destruct (backfill_locals HORIZON count c Hc Hi Hs) as (E1 & E2 & E3 & E4).
  exists (backfilled HORIZON to_angle count c). split.
  { now apply backfill_reference_ok. }
  set (ts := backfill_traj_start HORIZON c count) in *.
  set (sc := backfill_safe_count HORIZON c count) in *.
  assert (Hsz : 0 <= msg.size (reference_trajectory c))
    by (unfold msg.size; lia).
  unfold soft_landing. repeat split.
  - intros i Hi'.
    destruct (nth_error (msg.points (reference_trajectory c))
                (Z.to_nat (ts + i))) as [pt|] eqn:Hpt.
    2:{ apply nth_error_None in Hpt. unfold msg.size in *. lia. }
    exists pt. split; [reflexivity|].
    unfold holds_point, stage_ref. rewrite backfilled_y. fold ts sc.
    rewrite !y_set_at by (unfold IDY_X, IDY_Y, IDY_HEADING, IDY_VEL_LONG; lia).
    replace (HORIZON - count + i + (ts - (HORIZON - count))) with (ts + i)
      by lia.
    rewrite Hpt.
    replace ((HORIZON - count <=? HORIZON - count + i)
             && (HORIZON - count + i <? HORIZON - count + sc)) with true
      by (case_cmp; reflexivity || lia).
    repeat split; reflexivity.
  - intros i r col Hi' Hr Hcol. unfold stage_weight, NY in *.
    rewrite backfilled_W. cbv zeta. fold sc.
    destruct (Z.ltb_spec sc count); [|lia].
    rewrite W_apply_at, W_zero_at by lia.
    case_cmp; reflexivity || lia.
  - unfold stage_weight. rewrite backfilled_W.
    cbv zeta. fold sc. destruct (Z.ltb_spec sc count); [|lia].
    rewrite W_apply_at by (unfold IDY_X; lia).
    case_cmp; try lia. reflexivity.
  - unfold stage_weight. rewrite backfilled_W.
    cbv zeta. fold sc. destruct (Z.ltb_spec sc count); [|lia].
    rewrite W_apply_at by (unfold IDY_Y; lia).
    case_cmp; try lia. reflexivity.
  - unfold stage_weight. rewrite backfilled_W.
    cbv zeta. fold sc. destruct (Z.ltb_spec sc count); [|lia].
    rewrite W_apply_at by (unfold IDY_HEADING; lia).
    case_cmp; try lia. reflexivity.
  - unfold stage_weight. rewrite backfilled_W.
    cbv zeta. fold sc. destruct (Z.ltb_spec sc count); [|lia].
    rewrite W_apply_at by (unfold IDY_VEL_LONG; lia).
    case_cmp; try lia. reflexivity.
Qed.

End BackfillViews.

(** ** A new plan that ends within the horizon: [handle_new_trajectory] *)

Section HandleNewTrajectory.

Variable HORIZON : Index.
Variable to_angle : msg.Complex32 -> R.
Variable sample : Trajectory -> Trajectory -> Trajectory.
Hypothesis HORIZON_fits : 0 <= HORIZON /\ size_W HORIZON < SIZE_MOD.

Lemma handle_new_trajectory_within (traj : Trajectory) (c : MpcController) :
  m_interpolated_trajectory c = None ->
  msg.size traj <= HORIZON ->
  handle_new_trajectory HORIZON to_angle sample traj c =
  if msg.size traj =? 0
  then Throw "Out of bounds terminal weight index"
         (short_plan_laid_out HORIZON to_angle traj c)
  else Ok traj (short_plan_handled HORIZON to_angle traj c).
Proof.
  intros Hnone Hsize. destruct HORIZON_fits as [HN HW].
  unfold size_W, NY in HW. rewrite SIZE_MOD_eq in HW.
  assert (Hsz : 0 <= msg.size traj) by (unfold msg.size; lia).
  unfold handle_new_trajectory.
  unfold bind at 1. unfold get. rewrite Hnone.
  unfold bind at 1. unfold ret. unfold bind at 1. rewrite Hnone.
  rewrite Z.min_l by lia.
  unfold bind at 1.
  rewrite (set_reference_ok HORIZON to_angle HORIZON_fits)
    by (rewrite ?SIZE_MOD_eq; lia).
  rewrite Z.sub_0_r, Z.add_0_l.
  unfold bind at 1.
  rewrite (apply_nominal_weights_ok HORIZON HORIZON_fits) by lia.
  rewrite Z.min_l by lia.
  unfold bind at 1.
  set (c2 := set_W _ _).
  assert (Hzero :
    (if msg.size traj <? HORIZON
     then zero_nominal_weights HORIZON (msg.size traj) HORIZON
     else fun c0 => Ok tt c0) c2 =
    Ok tt (if msg.size traj <? HORIZON
           then set_W c2 (W_zero (msg.size traj) HORIZON
                            (ACADO.W (acadoVariables c2)))
           else c2)).
  { destruct (Z.ltb_spec (msg.size traj) HORIZON); [|reflexivity].
    rewrite (zero_nominal_weights_ok HORIZON HORIZON_fits) by lia.
    rewrite Z.min_id. reflexivity. }
  rewrite Hzero. clear Hzero.
  destruct (Z.geb_spec (msg.size traj) (msg.size traj)); [|lia].
  unfold bind at 1. unfold bind at 1. rewrite zero_terminal_weights_ok.
  destruct (Z.eqb_spec (msg.size traj) 0) as [E0|E0].
  - rewrite E0. change (isub 0 1) with (SIZE_MOD - 1).
    rewrite (apply_terminal_weights_throw HORIZON)
      by (rewrite SIZE_MOD_eq; lia).
    unfold short_plan_laid_out. subst c2. rewrite E0. reflexivity.
  - unwrap.
    rewrite (apply_terminal_weights_ok HORIZON HORIZON_fits) by lia.
    unfold bind, modify, ret.
    unfold short_plan_handled, short_plan_laid_out. subst c2. cbv zeta.
    replace (msg.size traj - 1 + 1) with (msg.size traj) by lia.
    destruct (msg.size traj <? HORIZON); reflexivity.
Qed.

End HandleNewTrajectory.

(** ** Diagonal weight matrices *)

Lemma off_diagonal_zero_iff (HORIZON : Index) (c : MpcController) :
  off_diagonal_zero HORIZON c <-> weights_diagonal HORIZON c.
Proof.
  unfold off_diagonal_zero, weights_diagonal, stage_weight, terminal_weight,
    is_diagonal_entry, size_W, size_WN, NY, NYN.
  split; intros [HW HWN]; split.
  - intros j Hj Hd.
    specialize (HW (j / 16) (j mod 16 / 4) (j mod 4)).
    replace (j / 16 * (4 * 4) + j mod 16 / 4 * 4 + j mod 4) with j in HW
      by (Z.div_mod_to_equations; lia).
    apply HW; Z.div_mod_to_equations; lia.
  - intros j Hj Hd.
    specialize (HWN (j / 4) (j mod 4)).
    replace (j / 4 * 4 + j mod 4) with j in HWN
      by (Z.div_mod_to_equations; lia).
    apply HWN; Z.div_mod_to_equations; lia.
  - intros i r col Hi Hr Hc Hne. apply HW; [lia|].
    replace (i * (4 * 4) + r * 4 + col) with (i * 16 + (r * 4 + col)) by lia.
    destruct (flat16 i (r * 4 + col) ltac:(lia)) as [_ ->].
    case_cmp; reflexivity || lia.
  - intros r col Hr Hc Hne. apply HWN; [lia|].
    rewrite Z.mod_small by lia.
    case_cmp; reflexivity || lia.
Qed.

Section Preservation.

Variable P : MpcController -> Prop.

Lemma preserves_ret {A} (a : A) : preserves P (ret a).
Proof. intros c c' HP [= <-]. exact HP. Qed.

Lemma preserves_throw {A} (what : string) : preserves P (@throw A what).
Proof. intros c c' HP [= <-]. exact HP. Qed.

Lemma preserves_undefined {A} : preserves P (@undefined A).
Proof. intros c c' HP [=]. Qed.

Lemma preserves_get : preserves P get.
Proof. intros c c' HP [= <-]. exact HP. Qed.

Lemma preserves_bind {A B} (m : M A) (f : A -> M B) :
  preserves P m -> (forall a, preserves P (f a)) -> preserves P (bind m f).
Proof.
  intros Hm Hf c c' HP. unfold bind.
  destruct (m c) as [a c1|what c1|] eqn:E.
  - apply (Hf a). apply (Hm c c1 HP). now rewrite E.
  - intros [= <-]. apply (Hm c c1 HP). now rewrite E.
  - intros [=].
Qed.

Lemma preserves_for_loop (body : Index -> M unit) (n : nat) :
  (forall i, preserves P (body i)) ->
  forall i, preserves P (for_loop n i body).
Proof.
  intros Hbody. induction n as [|n IH]; intros i; cbn [for_loop].
  - apply preserves_ret.
  - apply preserves_bind; [apply Hbody|intros _; apply IH].
Qed.

Lemma preserves_point_at (traj : Trajectory) (i : Index) :
  preserves P (point_at traj i).
Proof.
  unfold point_at. destruct (nth_error _ _);
    [apply preserves_ret|apply preserves_undefined].
Qed.

Lemma preserves_load (sel : ACADO.variables -> array) (size : Z) (i : Index) :
  preserves P (load sel size i).
Proof.
  intros c c' HP. unfold load. destruct (i <? size); [|intros [=]].
  intros [= <-]. exact HP.
Qed.

End Preservation.

Lemma wrapped_index_mod16 (i a b : Z) :
  (iadd (iadd (imul i 16) a) b) mod 16 = (a + b) mod 16.
Proof.
  unfold iadd, imul, wrap. rewrite SIZE_MOD_eq.
  Z.div_mod_to_equations. lia.
Qed.

Section DiagonalPreserved.

Variable HORIZON : Index.
Variable NU : Index.
Variable to_angle : msg.Complex32 -> R.
Variable sample : Trajectory -> Trajectory -> Trajectory.

Let P := weights_diagonal HORIZON.

Lemma preserves_store_frame (sel : ACADO.variables -> array)
    (put : ACADO.variables -> array -> ACADO.variables)
    (size : Z) (i : Index) (v : AcadoReal) :
  (forall a w, ACADO.W (put a w) = ACADO.W a) ->
  (forall a w, ACADO.WN (put a w) = ACADO.WN a) ->
  preserves P (store sel put size i v).
Proof.
  intros HW HWN c c' HP. unfold store.
  destruct (i <? size); [|intros [=]]. intros [= <-].
  destruct HP as [H1 H2]. split; cbn; intros j Hj Hd.
  - rewrite HW. now apply H1.
  - rewrite HWN. now apply H2.
Qed.

Lemma preserves_copy_frame (sel : ACADO.variables -> array)
    (put : ACADO.variables -> array -> ACADO.variables)
    (size : Z) (first last d_first : Index) :
  (forall a w, ACADO.W (put a w) = ACADO.W a) ->
  (forall a w, ACADO.WN (put a w) = ACADO.WN a) ->
  preserves P (copy sel put size first last d_first).
Proof.
  intros HW HWN c c' HP. unfold copy.
  destruct (_ && _); [|intros [=]]. intros [= <-].
  destruct HP as [H1 H2]. split; cbn; intros j Hj Hd.
  - rewrite HW. now apply H1.
  - rewrite HWN. now apply H2.
Qed.

Lemma preserves_store_y (i : Index) (v : AcadoReal) :
  preserves P (store_y HORIZON i v).
Proof. apply preserves_store_frame; reflexivity. Qed.

Lemma preserves_store_yN (i : Index) (v : AcadoReal) :
  preserves P (store_yN i v).
Proof. apply preserves_store_frame; reflexivity. Qed.

Lemma preserves_store_W (i : Index) (v : AcadoReal) :
  is_diagonal_entry i = true \/ v = 0%R ->
  preserves P (store_W HORIZON i v).
Proof.
  intros Hi c c' HP. unfold store_W, store.
  destruct (i <? size_W HORIZON); [|intros [=]]. intros [= <-].
  destruct HP as [H1 H2]. split; cbn; intros j Hj Hd.
  - unfold upd. destruct (Z.eqb_spec j i) as [->|_].
    + destruct Hi; congruence.
    + now apply H1.
  - now apply H2.
Qed.

Lemma preserves_store_WN (i : Index) (v : AcadoReal) :
  is_diagonal_entry i = true \/ v = 0%R ->
  preserves P (store_WN i v).
Proof.
  intros Hi c c' HP. unfold store_WN, store.
  destruct (i <? size_WN); [|intros [=]]. intros [= <-].
  destruct HP as [H1 H2]. split; cbn; intros j Hj Hd.
  - now apply H1.
  - unfold upd. destruct (Z.eqb_spec j i) as [->|_].
    + destruct Hi; congruence.
    + now apply H2.
Qed.

Lemma preserves_fill_W_zero (first last : Index) :
  preserves P (fill ACADO.W ACADO.with_W (size_W HORIZON) first last 0%R).
Proof.
  intros c c' HP. unfold fill.
  destruct (_ && _); [|intros [=]]. intros [= <-].
  destruct HP as [H1 H2]. split; cbn; intros j Hj Hd.
  - rewrite std_fill_spec. destruct (_ && _); [reflexivity|now apply H1].
  - now apply H2.
Qed.

Lemma preserves_modify (f : MpcController -> MpcController) :
  (forall c, acadoVariables (f c) = acadoVariables c) ->
  preserves P (modify f).
Proof.
  intros Hf c c' HP [= <-]. unfold P, weights_diagonal in *.
  now rewrite Hf.
Qed.

(** Composite operations are taken apart down to the stores. *)
Ltac preserve :=
  repeat first
    [ apply preserves_ret
    | apply preserves_throw
    | apply preserves_undefined
    | apply preserves_get
    | apply preserves_point_at
    | apply preserves_load
    | apply preserves_store_y
    | apply preserves_store_yN
    | apply preserves_fill_W_zero
    | apply preserves_copy_frame; reflexivity
    | apply preserves_modify; reflexivity
    | apply preserves_store_WN; (left; reflexivity) || (right; reflexivity)
    | apply preserves_for_loop; intros ?
    | apply preserves_bind; [|intros ?]
    | match goal with
      | |- preserves _ (if ?b then _ else _) => destruct b
      | |- preserves _ (match ?o with Some _ => _ | None => _ end) =>
          destruct o
      end ].

Lemma diagonal_stage_index (i : Index) :
  is_diagonal_entry (iadd (iadd (imul i (imul NY NY)) (imul IDY_X NY)) IDY_X)
  = true /\
  is_diagonal_entry (iadd (iadd (imul i (imul NY NY)) (imul IDY_Y NY)) IDY_Y)
  = true /\
  is_diagonal_entry
    (iadd (iadd (imul i (imul NY NY)) (imul IDY_HEADING NY)) IDY_HEADING)
  = true /\
  is_diagonal_entry
    (iadd (iadd (imul i (imul NY NY)) (imul IDY_VEL_LONG NY)) IDY_VEL_LONG)
  = true.
Proof.
  change (imul NY NY) with 16. change (imul IDY_X NY) with 0.
  change (imul IDY_Y NY) with 4. change (imul IDY_HEADING NY) with 8.
  change (imul IDY_VEL_LONG NY) with 12.
  unfold is_diagonal_entry. rewrite !wrapped_index_mod16.
  repeat split; reflexivity.
Qed.

Lemma preserves_zero_terminal_weights : preserves P zero_terminal_weights.
Proof. unfold zero_terminal_weights. preserve. Qed.

Lemma preserves_set_terminal_weights (cfg : StateWeight) :
  preserves P (set_terminal_weights cfg).
Proof. unfold set_terminal_weights. preserve. Qed.

Lemma preserves_apply_nominal_weights (cfg : StateWeight)
    (start end_ : Index) :
  preserves P (apply_nominal_weights HORIZON cfg start end_).
Proof.
  unfold apply_nominal_weights, for_range. cbv zeta. preserve.
  all: destruct (diagonal_stage_index i) as (H1 & H2 & H3 & H4).
  all: apply preserves_store_W; left; assumption.
Qed.

Lemma preserves_zero_nominal_weights (start end_ : Index) :
  preserves P (zero_nominal_weights HORIZON start end_).
Proof. unfold zero_nominal_weights. cbv zeta. preserve. Qed.

Lemma preserves_apply_terminal_weights (idx : Index) :
  preserves P (apply_terminal_weights HORIZON idx).
Proof.
  unfold apply_terminal_weights. preserve.
  apply preserves_apply_nominal_weights.
Qed.

Lemma preserves_apply_weights (cfg : OptimizationConfig) :
  preserves P (apply_weights HORIZON cfg).
Proof.
  unfold apply_weights.
  apply preserves_bind;
    [apply preserves_apply_nominal_weights
    |intros _; apply preserves_set_terminal_weights].
Qed.

Lemma preserves_set_reference (traj : Trajectory)
    (y_start traj_start count : Index) :
  preserves P (set_reference HORIZON to_angle traj y_start traj_start count).
Proof. unfold set_reference, for_range. preserve. Qed.

Lemma preserves_set_terminal_reference (pt : Point) :
  preserves P (set_terminal_reference to_angle pt).
Proof. unfold set_terminal_reference. preserve. Qed.

Lemma preserves_advance_problem (count : Index) :
  preserves P (advance_problem HORIZON NU count).
Proof. unfold advance_problem. preserve. Qed.

Lemma preserves_backfill_reference (count : Index) :
  preserves P (backfill_reference HORIZON to_angle count).
Proof.
  unfold backfill_reference. cbv zeta.
  destruct (HORIZON <=? count); [apply preserves_throw|].
  apply preserves_bind; [apply preserves_get|intros c].
  apply preserves_bind; [apply preserves_set_reference|intros _].
  apply preserves_bind.
  - destruct (_ <? count); [|apply preserves_ret].
    apply preserves_bind;
      [apply preserves_zero_nominal_weights
      |intros _; apply preserves_apply_terminal_weights].
  - intros _. destruct (_ <? _); [|apply preserves_zero_terminal_weights].
    apply preserves_bind;
      [apply preserves_point_at
      |intros pt; apply preserves_set_terminal_reference].
Qed.

Lemma preserves_consistency_loop (n : nat) :
  forall (i : Index) (last_angle err : AcadoReal),
    preserves P (consistency_loop HORIZON n i last_angle err).
Proof.
  induction n as [|n IH]; intros i last_angle err; cbn [consistency_loop].
  - apply preserves_ret.
  - apply preserves_bind; [apply preserves_load|intros ref].
    destruct (fn ref last_angle err) as [[ref' last_angle'] err'].
    apply preserves_bind; [apply preserves_store_y|intros _]. apply IH.
Qed.

Lemma preserves_ensure_reference_consistency (horizon : Index) :
  preserves P (ensure_reference_consistency HORIZON horizon).
Proof.
  unfold ensure_reference_consistency, reference_consistency_error.
  cbv zeta.
  apply preserves_bind; [|intros ?; apply preserves_ret].
  apply preserves_bind; [apply preserves_load|intros last_angle].
  apply preserves_bind; [apply preserves_consistency_loop|intros [la err]].
  apply preserves_bind; [apply preserves_load|intros ref].
  destruct (fn ref la err) as [[ref' la'] err'].
  apply preserves_bind; [apply preserves_store_yN|intros _].
  apply preserves_ret.
Qed.

Lemma preserves_handle_new_trajectory (trajectory : Trajectory) :
  preserves P (handle_new_trajectory HORIZON to_angle sample trajectory).
Proof.
  unfold handle_new_trajectory.
  apply preserves_bind; [apply preserves_get|intros c0].
  apply preserves_bind.
  { destruct (m_interpolated_trajectory c0);
      [apply preserves_modify; reflexivity|apply preserves_ret]. }
  intros _. apply preserves_bind; [apply preserves_get|intros c].
  cbv zeta.
  apply preserves_bind; [apply preserves_set_reference|intros _].
  apply preserves_bind; [apply preserves_apply_nominal_weights|intros _].
  apply preserves_bind.
  { destruct (_ <? HORIZON);
      [apply preserves_zero_nominal_weights|apply preserves_ret]. }
  intros _. apply preserves_bind.
  { destruct (_ >=? _).
    - apply preserves_bind;
        [apply preserves_zero_terminal_weights
        |intros _; apply preserves_apply_terminal_weights].
    - apply preserves_bind;
        [apply preserves_point_at
        |intros pt; apply preserves_set_terminal_reference]. }
  intros _. apply preserves_bind;
    [apply preserves_modify; reflexivity|intros _; apply preserves_ret].
Qed.

Lemma preserves_run (op : PublicOp) :
  preserves P (run HORIZON NU to_angle sample op).
Proof.
  destruct op; cbn [run].
  - apply preserves_apply_nominal_weights.
  - apply preserves_zero_nominal_weights.
  - apply preserves_set_terminal_weights.
  - apply preserves_zero_terminal_weights.
  - apply preserves_apply_terminal_weights.
  - apply preserves_apply_weights.
  - apply preserves_set_reference.
  - apply preserves_set_terminal_reference.
  - apply preserves_bind;
      [apply preserves_handle_new_trajectory|intros _; apply preserves_ret].
  - apply preserves_advance_problem.
  - apply preserves_backfill_reference.
  - apply preserves_bind;
      [apply preserves_ensure_reference_consistency
      |intros _; apply preserves_ret].
Qed.

End DiagonalPreserved.

(** ** Angles *)

Section Angles.

Local Open Scope R_scope.

Lemma PI_upper : PI < 315 / 100.
Proof.
  pose proof (PI_2_3_7_ineq 1) as [_ H].
  unfold sum_f_R0, tg_alt, PI_2_3_7_tg, Ratan_seq in H.
  simpl in H. lra.
Qed.

Lemma PI_lower : 3 < PI.
Proof. pose proof PI2_3_2. lra. Qed.

Lemma cos_pos_range (t : R) :
  - PI < t <= PI -> 0 < cos t -> - (PI / 2) < t < PI / 2.
Proof.
  intros [Hlo Hhi] Hc. pose proof PI_RGT_0.
  split; apply Rnot_le_lt; intros Hle.
  - pose proof (cos_le_0 (- t) ltac:(lra) ltac:(lra)) as H1.
    rewrite cos_neg in H1. lra.
  - pose proof (cos_le_0 t ltac:(lra) ltac:(lra)). lra.
Qed.

Lemma atan2_sin_cos (t : R) : - PI < t <= PI -> atan2 (sin t) (cos t) = t.
Proof.
  intros [Hlo Hhi]. pose proof PI_RGT_0 as Hpi. unfold atan2.
  destruct (Rlt_dec 0 (cos t)) as [Hc|Hc].
  - change (sin t / cos t) with (tan t).
    apply atan_tan. now apply cos_pos_range.
  - destruct (Rlt_dec (cos t) 0) as [Hc'|Hc'].
    + destruct (Rle_dec 0 (sin t)) as [Hs|Hs].
      * assert (Ht : PI / 2 < t).
        { apply Rnot_le_lt; intros Hle.
          destruct (Rle_dec (- (PI / 2)) t).
          - pose proof (cos_ge_0 t ltac:(lra) ltac:(lra)). lra.
          - pose proof (sin_lt_0_var t ltac:(lra) ltac:(lra)). lra. }
        replace (sin t / cos t) with (tan (t - PI)).
        -- rewrite atan_tan by lra. lra.
        -- unfold tan. replace t with ((t - PI) + PI) at 3 4 by lra.
           rewrite neg_sin, neg_cos. field.
           replace (t - PI) with (- (PI - t)) by lra. rewrite cos_neg.
           replace (PI - t) with (- t + PI) by lra. rewrite neg_cos, cos_neg.
           lra.
      * assert (Ht : t < - (PI / 2)).
        { apply Rnot_le_lt; intros Hle.
          destruct (Rle_dec t 0).
          - pose proof (cos_ge_0 t ltac:(lra) ltac:(lra)). lra.
          - pose proof (sin_ge_0 t ltac:(lra) ltac:(lra)). lra. }
        replace (sin t / cos t) with (tan (t + PI)).
        -- rewrite atan_tan by lra. lra.
        -- unfold tan. rewrite neg_sin, neg_cos. field. lra.
    + assert (Hc0 : cos t = 0) by lra.
      destruct (Rlt_dec 0 (sin t)) as [Hs|Hs].
      * destruct (Rtotal_order t (PI / 2)) as [Hlt|[Heq|Hgt]].
        -- destruct (Rle_dec t (- (PI / 2))).
           ++ pose proof (sin_lt_0_var t ltac:(lra) ltac:(lra)). lra.
           ++ pose proof (cos_gt_0 t ltac:(lra) ltac:(lra)). lra.
        -- lra.
        -- pose proof (cos_lt_0 t ltac:(lra) ltac:(lra)). lra.
      * destruct (Rlt_dec (sin t) 0) as [Hs'|Hs'].
        -- destruct (Rtotal_order t (- (PI / 2))) as [Hlt|[Heq|Hgt]].
           ++ pose proof (cos_lt_0 (- t) ltac:(lra) ltac:(lra)) as H1.
              rewrite cos_neg in H1. lra.
           ++ lra.
           ++ destruct (Rle_dec (PI / 2) t).
              ** pose proof (sin_ge_0 t ltac:(lra) ltac:(lra)). lra.
              ** pose proof (cos_gt_0 t ltac:(lra) ltac:(lra)). lra.
        -- pose proof (sin2_cos2 t) as H2. unfold Rsqr in H2.
           assert (sin t = 0) by lra. nra.
Qed.

Lemma atan2_sin_cos_2PI (t : R) :
  PI < t <= 3 * PI -> atan2 (sin t) (cos t) = t - 2 * PI.
Proof.
  intros H.
  replace (sin t) with (sin (t - 2 * PI)).
  - replace (cos t) with (cos (t - 2 * PI)).
    + apply atan2_sin_cos. lra.
    + rewrite cos_minus, cos_2PI, sin_2PI. ring.
  - rewrite sin_minus, cos_2PI, sin_2PI. ring.
Qed.

Lemma fn_error_grows (ref last_angle err : AcadoReal) :
  err <= snd (fn ref last_angle err).
Proof.
  unfold fn. cbn [snd].
  pose proof (Rabs_pos (last_angle
    + atan2 (sin (ref - last_angle)) (cos (ref - last_angle)) - ref)).
  lra.
Qed.

End Angles.

(** ** The heading pass: [ensure_reference_consistency] *)

Section Consistency.

Variable HORIZON : Index.
Hypothesis HORIZON_fits : 0 <= HORIZON /\ size_W HORIZON < SIZE_MOD.

Lemma fn_near (ref last_angle err : R) :
  (- PI < ref - last_angle <= PI)%R ->
  fn ref last_angle err = (ref, ref, err).
Proof.
  intros H. unfold fn. rewrite atan2_sin_cos by assumption.
  replace (last_angle + (ref - last_angle))%R with ref by ring.
  replace (ref - ref)%R with 0%R by ring.
  rewrite Rabs_R0, Rplus_0_r. reflexivity.
Qed.

Lemma fn_wrap_down (ref last_angle err : R) :
  (PI < ref - last_angle <= 3 * PI)%R ->
  fn ref last_angle err =
  ((ref - 2 * PI)%R, (ref - 2 * PI)%R, (err + 2 * PI)%R).
Proof.
  intros H. unfold fn. rewrite atan2_sin_cos_2PI by assumption.
  replace (last_angle + (ref - last_angle - 2 * PI))%R
    with (ref - 2 * PI)%R by ring.
  replace (ref - 2 * PI - ref)%R with (- (2 * PI))%R by ring.
  pose proof PI_RGT_0.
  rewrite Rabs_Ropp, Rabs_pos_eq by lra. reflexivity.
Qed.

Lemma unwrap_loop_error_grows (n : nat) :
  forall (i : Z) (last_angle err : AcadoReal) (r : array),
    (err <= snd (snd (unwrap_loop n i last_angle err r)))%R.
Proof.
  induction n as [|n IH]; intros i last_angle err r; cbn [unwrap_loop].
  - cbn. lra.
  - pose proof (fn_error_grows (r (i * 4 + 2)) last_angle err) as Hfn.
    destruct (fn (r (i * 4 + 2)) last_angle err) as [[ref' la'] err'].
    cbn [snd] in Hfn.
    specialize (IH (i + 1) la' err' (upd r (i * 4 + 2) ref')). lra.
Qed.

Lemma unwrap_loop_below (n : nat) :
  forall (i : Z) (last_angle err : AcadoReal) (r : array) (j : Z),
    j < i * 4 ->
    fst (unwrap_loop n i last_angle err r) j = r j.
Proof.
  induction n as [|n IH]; intros i last_angle err r j Hj; cbn [unwrap_loop].
  - reflexivity.
  - destruct (fn (r (i * 4 + 2)) last_angle err) as [[ref' la'] err'].
    rewrite IH by lia. apply upd_neq. lia.
Qed.

Lemma consistency_loop_ok (n : nat) :
  forall (i : Index) (last_angle err : AcadoReal) (c : MpcController),
    0 <= i -> i + Z.of_nat n <= HORIZON ->
    consistency_loop HORIZON n i last_angle err c =
    let r := unwrap_loop n i last_angle err (ACADO.y (acadoVariables c)) in
    Ok (snd r) (set_y c (fst r)).
Proof.
  destruct HORIZON_fits as [HN HW].
  unfold size_W, NY in HW. rewrite SIZE_MOD_eq in HW.
  induction n as [|n IH]; intros i last_angle err c Hi Hn;
    cbn [consistency_loop unwrap_loop]; cbv zeta.
  - cbn [fst snd]. rewrite set_y_same. reflexivity.
  - unfold NY, IDY_HEADING. unwrap.
    replace (4 * i + 2) with (i * 4 + 2) by lia.
    unfold bind at 1. unfold load, size_y, NY.
    destruct (Z.ltb_spec (i * 4 + 2) (HORIZON * 4)); [|lia].
    destruct (fn (ACADO.y (acadoVariables c) (i * 4 + 2)) last_angle err)
      as [[ref' la'] err'].
    unfold bind at 1. rewrite store_y_ok by (unfold size_y, NY; lia).
    rewrite IH by lia. cbv zeta. reflexivity.
Qed.

(** The heading pass, in the arithmetic of the reals, on a reference that
    crosses the cut of the angle from [-3] to [3]: both headings end up
    [2 * PI - 6] apart, the accumulated [err] is at least [2 * PI], and the
    pass reports [true]. *)
Lemma heading_unwrap_general (horizon : Index) (c : MpcController) :
  2 <= HORIZON -> 2 <= horizon ->
  (Rabs (ACADO.x0 (acadoVariables c) IDX_HEADING - -3) < PI)%R ->
  stage_ref c 0 IDY_HEADING = (-3)%R ->
  stage_ref c 1 IDY_HEADING = 3%R ->
  exists c' err,
    reference_consistency_error HORIZON horizon c = Ok err c' /\
    stage_ref c' 0 IDY_HEADING = (-3)%R /\
    stage_ref c' 1 IDY_HEADING = (3 - 2 * PI)%R /\
    (2 * PI <= err)%R /\
    ensure_reference_consistency HORIZON horizon c = Ok true c'.
Proof.
  intros HN2 Hh Hx0 Hy0 Hy1.
  unfold stage_ref, NY, IDY_HEADING in Hy0, Hy1. cbn in Hy0, Hy1.
  apply Rabs_def2 in Hx0.
  pose proof PI_lower as Hpl. pose proof PI_upper as Hpu.
  set (h0 := ACADO.x0 (acadoVariables c) IDX_HEADING) in *.
  set (r := unwrap_loop (Z.to_nat (Z.min horizon HORIZON - 0)) 0 h0 0%R
              (ACADO.y (acadoVariables c))).
  set (t := fn (ACADO.yN (acadoVariables c) IDY_HEADING)
              (fst (snd r)) (snd (snd r))).
  assert (Hrun : reference_consistency_error HORIZON horizon c =
                 Ok (snd t)
                   (set_yN (set_y c (fst r))
                      (upd (ACADO.yN (acadoVariables c)) IDY_HEADING
                         (fst (fst t))))).
  { unfold reference_consistency_error. cbv zeta.
    unfold bind at 1. change (load ACADO.x0 size_x0 IDX_HEADING c) with (Ok h0 c).
    unfold bind at 1. rewrite consistency_loop_ok by lia. cbv zeta. fold r.
    destruct r as [y' [la' err']] eqn:Er. cbn [fst snd] in *.
    unfold bind at 1.
    change (load ACADO.yN size_yN IDY_HEADING (set_y c y'))
      with (@Ok AcadoReal (ACADO.yN (acadoVariables c) IDY_HEADING) (set_y c y')).
    subst t. cbn [fst snd].
    destruct (fn (ACADO.yN (acadoVariables c) IDY_HEADING) la' err')
      as [[ref'' la''] err''].
    reflexivity. }
  assert (Hr : fst r 2 = (-3)%R /\ fst r 6 = (3 - 2 * PI)%R /\
               (2 * PI <= snd (snd r))%R).
  { subst r. destruct (Z.to_nat (Z.min horizon HORIZON - 0)) as [|[|m]] eqn:En;
      try lia.
    cbn [unwrap_loop]. change (0 * 4 + 2) with 2. rewrite Hy0.
    rewrite fn_near by lra.
    change (0 + 1) with 1. change (1 * 4 + 2) with 6.
    rewrite upd_neq by lia. rewrite Hy1.
    rewrite fn_wrap_down by lra.
    repeat split.
    - rewrite unwrap_loop_below by lia.
      rewrite upd_neq by lia. apply upd_eq.
    - rewrite unwrap_loop_below by lia. apply upd_eq.
    - match goal with |- (_ <= snd (snd (unwrap_loop ?n ?i ?la ?e ?a)))%R =>
        pose proof (unwrap_loop_error_grows n i la e a) end.
      lra. }
  destruct Hr as (Hr0 & Hr1 & Hr2).
  assert (Ht : (2 * PI <= snd t)%R).
  { pose proof (fn_error_grows (ACADO.yN (acadoVariables c) IDY_HEADING)
                  (fst (snd r)) (snd (snd r))) as Hg.
    fold t in Hg. lra. }
  eexists _, (snd t). split; [exact Hrun|].
  repeat split.
  - exact Hr0.
  - exact Hr1.
  - exact Ht.
  - unfold ensure_reference_consistency. unfold bind. rewrite Hrun.
    unfold ret. destruct (Rgt_dec (snd t) PI_3_14159) as [_|Hn];
      [reflexivity|].
    exfalso. apply Hn. unfold PI_3_14159. lra.
Qed.

End Consistency.

(** ** Facts about the concrete inputs *)

Lemma fits_10 : 0 <= 10 /\ size_W 10 < SIZE_MOD.
Proof. split; [lia|reflexivity]. Qed.

Lemma fits_2 : 0 <= 2 /\ size_W 2 < SIZE_MOD.
Proof. split; [lia|reflexivity]. Qed.

Lemma example_off_diagonal_zero (traj : Trajectory) (curr_idx : Index) :
  off_diagonal_zero 10 (example_controller traj curr_idx).
Proof. split; intros; reflexivity. Qed.

(** ** Rolling the horizon on a concrete controller *)

Lemma advance_problem_shift_witness :
  0 <= 3 < 10 /\
  exists c',
    advance_problem 10 2 3 (example_controller (trajectory_of 4) 0)
    = Ok tt c' /\
    forall i, 0 <= i < 10 - 3 ->
      (forall k, 0 <= k < NY ->
         stage_ref c' i k
         = stage_ref (example_controller (trajectory_of 4) 0) (i + 3) k) /\
      (forall k, 0 <= k < 2 ->
         control 2 c' i k
         = control 2 (example_controller (trajectory_of 4) 0) (i + 3) k) /\
      (forall k, 0 <= k < NX ->
         state c' (i + 1) k
         = state (example_controller (trajectory_of 4) 0) (i + 1 + 3) k).
Proof.
  split; [lia|].
  apply (advance_problem_shift 10 2).
  - split; [lia|reflexivity].
  - split; [lia|reflexivity].
  - lia.
Defined.

Lemma advance_problem_frame_witness :
  0 <= 3 < 10 /\
  exists c',
    advance_problem 10 2 3 (example_controller (trajectory_of 4) 0)
    = Ok tt c' /\
    (forall k, 0 <= k < NX ->
       state c' 0 k = state (example_controller (trajectory_of 4) 0) 0 k) /\
    ACADO.W (acadoVariables c') = zero_array /\
    ACADO.WN (acadoVariables c') = zero_array /\
    ACADO.yN (acadoVariables c') = zero_array /\
    ACADO.x0 (acadoVariables c') = zero_array /\
    config c' = example_config /\
    reference_trajectory c' = trajectory_of 4 /\
    current_state_temporal_index c' = 0 /\
    m_interpolated_trajectory c' = None /\
    m_last_reference_index c' = 0.
Proof.
  split; [lia|].
  apply (advance_problem_frame 10 2).
  - split; [lia|reflexivity].
  - split; [lia|reflexivity].
  - lia.
Defined.

(** ** Bounds enforcement *)

Section BoundsEnforcement.

Variable HORIZON : Index.
Variable NU : Index.
Variable to_angle : msg.Complex32 -> R.
Hypothesis HORIZON_fits : 0 <= HORIZON /\ size_W HORIZON < SIZE_MOD.
Hypothesis NU_fits : 0 <= NU /\ size_u HORIZON NU < SIZE_MOD.

(** As long as no sum of two indices overflows [Index], every operation
    throws exactly under its documented condition. *)
Lemma bounds_enforcement_without_overflow (c : MpcController) :
  (forall traj y_start traj_start count,
     0 <= y_start -> 0 <= traj_start -> 0 <= count ->
     y_start + count < SIZE_MOD -> traj_start + count < SIZE_MOD ->
     msg.size traj < SIZE_MOD ->
     (throws (set_reference HORIZON to_angle traj y_start traj_start count c)
      = true <->
      HORIZON < y_start + count \/ msg.size traj < traj_start + count)) /\
  (forall cfg start end_, 0 <= start ->
     (throws (apply_nominal_weights HORIZON cfg start end_ c) = true <->
      Z.min end_ HORIZON < start)) /\
  (forall start end_, 0 <= start ->
     (throws (zero_nominal_weights HORIZON start end_ c) = true <->
      Z.min end_ HORIZON < start)) /\
  (forall idx, 0 <= idx ->
     (throws (apply_terminal_weights HORIZON idx c) = true <->
      HORIZON <= idx)) /\
  (forall count, 0 <= count ->
     (throws (advance_problem HORIZON NU count c) = true <->
      HORIZON <= count)) /\
  (forall count, 0 <= count ->
     is_index (current_state_temporal_index c) ->
     msg.size (reference_trajectory c) + HORIZON < SIZE_MOD ->
     (throws (backfill_reference HORIZON to_angle count c) = true <->
      HORIZON <= count)).
Proof.
  repeat split.
  - intros Ht. destruct (Z_le_gt_dec (y_start + count) HORIZON);
      [|lia].
    destruct (Z_le_gt_dec (traj_start + count) (msg.size traj)); [|lia].
    rewrite (set_reference_ok HORIZON to_angle HORIZON_fits) in Ht
      by assumption.
    discriminate.
  - intros Hc. rewrite set_reference_throw; [reflexivity|].
    rewrite !iadd_small by lia. exact Hc.
  - intros Ht. destruct (Z_le_gt_dec start (Z.min end_ HORIZON)); [|lia].
    rewrite (apply_nominal_weights_ok HORIZON HORIZON_fits) in Ht by lia.
    discriminate.
  - intros Hc. now rewrite apply_nominal_weights_throw.
  - intros Ht. destruct (Z_le_gt_dec start (Z.min end_ HORIZON)); [|lia].
    rewrite (zero_nominal_weights_ok HORIZON HORIZON_fits) in Ht by lia.
    discriminate.
  - intros Hc. rewrite zero_nominal_weights_throw; [reflexivity|lia].
  - intros Ht. destruct (Z_le_gt_dec HORIZON idx); [assumption|].
    rewrite (apply_terminal_weights_ok HORIZON HORIZON_fits) in Ht by lia.
    discriminate.
  - intros Hc. now rewrite apply_terminal_weights_throw.
  - intros Ht. destruct (Z_le_gt_dec HORIZON count); [assumption|].
    rewrite (advance_problem_ok HORIZON NU HORIZON_fits NU_fits) in Ht by lia.
    discriminate.
  - intros Hc. unfold advance_problem.
    destruct (Z.leb_spec HORIZON count); [reflexivity|lia].
  - intros Ht. destruct (Z_le_gt_dec HORIZON count); [assumption|].
    rewrite (backfill_reference_ok HORIZON to_angle HORIZON_fits) in Ht
      by (assumption || lia).
    discriminate.
  - intros Hc. unfold backfill_reference.
    destruct (Z.leb_spec HORIZON count); [reflexivity|lia].
Qed.

(** C10.  Once [backfill_reference(count)] has passed its own check of
    [count], its callees cannot fail: the arguments of [set_reference]
    satisfy [ref_start + safe_count <= HORIZON] and
    [traj_start + safe_count <= |traj|], and when the trajectory runs out
    ([safe_count < count], that is [remainder >= 1]) the start
    [HORIZON - remainder] passed to [zero_nominal_weights] is at most
    [HORIZON] and the index [HORIZON - remainder - 1] passed to
    [apply_terminal_weights] lies in [[0, HORIZON)]; the call returns
    normally. *)
Theorem backfill_reference_callees_safe (count : Index) (c : MpcController) :
  0 <= count < HORIZON ->
  is_index (current_state_temporal_index c) ->
  msg.size (reference_trajectory c) + HORIZON < SIZE_MOD ->
  let max_pts := msg.size (reference_trajectory c) in
  let ref_start := backfill_ref_start HORIZON count in
  let traj_start := backfill_traj_start HORIZON c count in
  let safe_count := backfill_safe_count HORIZON c count in
  let remainder := isub count safe_count in
  (0 <= safe_count /\
   ref_start + safe_count <= HORIZON /\
   traj_start + safe_count <= max_pts /\
   iadd ref_start safe_count = ref_start + safe_count /\
   iadd traj_start safe_count = traj_start + safe_count) /\
  (safe_count < count ->
   1 <= remainder /\
   isub HORIZON remainder = HORIZON - remainder /\
   HORIZON - remainder <= Z.min HORIZON HORIZON /\
   isub HORIZON (iadd remainder 1) = HORIZON - remainder - 1 /\
   0 <= HORIZON - remainder - 1 < HORIZON) /\
  exists c', backfill_reference HORIZON to_angle count c = Ok tt c'.
Proof.
  intros Hc Hi Hs. cbv zeta.
  destruct (backfill_locals HORIZON count c Hc Hi Hs) as (E1 & E2 & E3 & E4).
  destruct HORIZON_fits as [HN HW].
  unfold size_W, NY in HW. rewrite SIZE_MOD_eq in HW.
  pose proof Hs as Hs'. rewrite SIZE_MOD_eq in Hs'.
  set (ts := backfill_traj_start HORIZON c count) in *.
  set (sc := backfill_safe_count HORIZON c count) in *.
  rewrite E1. unwrap.
  split; [|split].
  - repeat split; lia.
  - intros Hlt. rewrite Z.min_id. repeat split; lia.
  - exists (backfilled HORIZON to_angle count c).
    now apply backfill_reference_ok.
Qed.

End BoundsEnforcement.

Lemma backfill_reference_callees_safe_witness :
  (0 <= 5 < 10 /\
   is_index (current_state_temporal_index
               (example_controller (trajectory_of 7) 0)) /\
   msg.size (reference_trajectory (example_controller (trajectory_of 7) 0))
   + 10 < SIZE_MOD) /\
  let c := example_controller (trajectory_of 7) 0 in
  let max_pts := msg.size (reference_trajectory c) in
  let ref_start := backfill_ref_start 10 5 in
  let traj_start := backfill_traj_start 10 c 5 in
  let safe_count := backfill_safe_count 10 c 5 in
  let remainder := isub 5 safe_count in
  (0 <= safe_count /\
   ref_start + safe_count <= 10 /\
   traj_start + safe_count <= max_pts /\
   iadd ref_start safe_count = ref_start + safe_count /\
   iadd traj_start safe_count = traj_start + safe_count) /\
  (safe_count < 5 ->
   1 <= remainder /\
   isub 10 remainder = 10 - remainder /\
   10 - remainder <= Z.min 10 10 /\
   isub 10 (iadd remainder 1) = 10 - remainder - 1 /\
   0 <= 10 - remainder - 1 < 10) /\
  exists c', backfill_reference 10 to_angle_cartesian 5 c = Ok tt c'.
Proof.
  assert (H1 : 0 <= 5 < 10) by lia.
  assert (H2 : is_index (current_state_temporal_index
                           (example_controller (trajectory_of 7) 0)))
    by (split; [apply Z.le_refl|reflexivity]).
  assert (H3 : msg.size (reference_trajectory
                           (example_controller (trajectory_of 7) 0))
               + 10 < SIZE_MOD) by reflexivity.
  split; [exact (conj H1 (conj H2 H3))|].
  exact (backfill_reference_callees_safe 10 to_angle_cartesian fits_10 5
           (example_controller (trajectory_of 7) 0) H1 H2 H3).
Defined.

(** C2.  An index sum that overflows [Index] escapes the bounds check of
    [set_reference]: with [HORIZON = 10], [y_start = 2^64 - 1] and
    [count = 1] the sum [y_start + count] exceeds the horizon, yet the call
    does not throw; it goes on to write outside the array [y]. *)
Theorem set_reference_overflow_not_caught :
  let y_start := SIZE_MOD - 1 in
  let c := example_controller (trajectory_of 1) 0 in
  is_index y_start /\
  10 < y_start + 1 /\
  throws (set_reference 10 to_angle_cartesian (trajectory_of 1) y_start 0 1 c)
  = false /\
  set_reference 10 to_angle_cartesian (trajectory_of 1) y_start 0 1 c
  = Undefined.
Proof.
  cbv zeta. rewrite SIZE_MOD_eq. unfold is_index. rewrite SIZE_MOD_eq.
  repeat split; try lia; reflexivity.
Qed.

(** C4.  [handle_new_trajectory] on an empty trajectory, without resampler:
    [traj.points.size() - 1U] wraps around to [2^64 - 1], and
    [apply_terminal_weights] throws. *)
Theorem handle_new_trajectory_empty_throws :
  exists c',
    handle_new_trajectory 10 to_angle_cartesian no_resampling
      (trajectory_of 0) (example_controller (trajectory_of 4) 0)
    = Throw "Out of bounds terminal weight index" c'.
Proof.
  eexists.
  rewrite (handle_new_trajectory_within 10 to_angle_cartesian no_resampling
             fits_10) by (reflexivity || (cbn; lia)).
  reflexivity.
Qed.

(** ** Plans and refills that end within the horizon *)


Lemma short_plan_handled_WN (HORIZON : Index) (to_angle : msg.Complex32 -> R)
    (traj : Trajectory) (c : MpcController) :
  ACADO.WN (acadoVariables (short_plan_handled HORIZON to_angle traj c)) =
  WN_set 0%R 0%R 0%R (ACADO.WN (acadoVariables c)).
Proof.
  unfold short_plan_handled, short_plan_laid_out. cbv zeta.
  destruct (msg.size traj <? HORIZON); reflexivity.
Qed.

Lemma short_plan_handled_config (HORIZON : Index)
    (to_angle : msg.Complex32 -> R) (traj : Trajectory) (c : MpcController) :
  config (short_plan_handled HORIZON to_angle traj c) = config c.
Proof.
  unfold short_plan_handled, short_plan_laid_out. cbv zeta.
  destruct (msg.size traj <? HORIZON); reflexivity.
Qed.




(** C3.  With [HORIZON = 10], [backfill_reference(5)] refills the stages
    [[5, 10)] from the trajectory index [curr_idx + 5] on.  When exactly 2
    points are left from that index on ([|traj| - curr_idx = 7]) it copies
    them into the stages 5 and 6, zeroes the weights of the stages 7 to 9 and
    puts the terminal weight profile of the configuration on stage 6.  When
    only 2 points are left from [curr_idx] on ([|traj| - curr_idx = 2]) it
    copies nothing, zeroes the weights of all the stages 5 to 9 and puts the
    terminal weight profile of the configuration on stage 4. *)
Theorem backfill_soft_landing_horizon_10 (to_angle : msg.Complex32 -> R)
    (c : MpcController) :
  is_index (current_state_temporal_index c) ->
  msg.size (reference_trajectory c) + 10 < SIZE_MOD ->
  let curr_idx := current_state_temporal_index c in
  let max_pts := msg.size (reference_trajectory c) in
  (max_pts - curr_idx = 7 ->
   exists c',
     backfill_reference 10 to_angle 5 c = Ok tt c' /\
     soft_landing 10 to_angle 5 2 (curr_idx + 5) c c') /\
  (max_pts - curr_idx = 2 ->
   exists c',
     backfill_reference 10 to_angle 5 c = Ok tt c' /\
     soft_landing 10 to_angle 5 0 max_pts c c' /\
     ACADO.y (acadoVariables c') = ACADO.y (acadoVariables c)).
Proof.
  intros Hi Hs. cbv zeta.
  destruct (backfill_locals 10 5 c ltac:(lia) Hi Hs) as (E1 & E2 & E3 & E4).
  pose proof Hs as Hs'. rewrite SIZE_MOD_eq in Hs'. destruct Hi as [Hi0 Hi1].
  assert (Ets : current_state_temporal_index c + 5 < SIZE_MOD ->
                backfill_traj_start 10 c 5 =
                Z.min (current_state_temporal_index c + 5)
                  (msg.size (reference_trajectory c))).
  { intros Hlt. unfold backfill_traj_start. rewrite E1. cbv zeta.
    rewrite iadd_small by lia. reflexivity. }
  rewrite SIZE_MOD_eq in Ets.
  split; intros Hleft; specialize (Ets ltac:(lia)).
  - destruct (backfill_reference_soft_landing 10 to_angle fits_10 5 c)
      as (c' & Hok & Hsl); try (assumption || lia || (split; assumption)).
    exists c'. split; [exact Hok|].
    replace (backfill_safe_count 10 c 5) with 2 in Hsl by lia.
    replace (backfill_traj_start 10 c 5)
      with (current_state_temporal_index c + 5) in Hsl by lia.
    exact Hsl.
  - destruct (backfill_reference_soft_landing 10 to_angle fits_10 5 c)
      as (c' & Hok & Hsl); try (assumption || lia || (split; assumption)).
    exists c'. split; [exact Hok|].
    replace (backfill_safe_count 10 c 5) with 0 in Hsl by lia.
    replace (backfill_traj_start 10 c 5)
      with (msg.size (reference_trajectory c)) in Hsl by lia.
    split; [exact Hsl|].
    rewrite (backfill_reference_ok 10 to_angle fits_10) in Hok
      by (lia || (split; assumption) || assumption).
    injection Hok as <-. rewrite backfilled_y.
    replace (backfill_safe_count 10 c 5) with 0 by lia.
    rewrite Z.add_0_r. apply y_set_empty.
Qed.

Lemma backfill_soft_landing_horizon_10_witness :
  let c7 := example_controller (trajectory_of 7) 0 in
  let c2 := example_controller (trajectory_of 2) 0 in
  ((is_index (current_state_temporal_index c7) /\
    msg.size (reference_trajectory c7) + 10 < SIZE_MOD /\
    msg.size (reference_trajectory c7) - current_state_temporal_index c7 = 7)
   /\
   exists c',
     backfill_reference 10 to_angle_cartesian 5 c7 = Ok tt c' /\
     soft_landing 10 to_angle_cartesian 5 2
       (current_state_temporal_index c7 + 5) c7 c') /\
  ((is_index (current_state_temporal_index c2) /\
    msg.size (reference_trajectory c2) + 10 < SIZE_MOD /\
    msg.size (reference_trajectory c2) - current_state_temporal_index c2 = 2)
   /\
   exists c',
     backfill_reference 10 to_angle_cartesian 5 c2 = Ok tt c' /\
     soft_landing 10 to_angle_cartesian 5 0
       (msg.size (reference_trajectory c2)) c2 c' /\
     ACADO.y (acadoVariables c') = ACADO.y (acadoVariables c2)).
Proof.
  cbv zeta.
  assert (H1 : forall n, is_index (current_state_temporal_index
                                     (example_controller (trajectory_of n) 0)))
    by (intros n; split; [apply Z.le_refl|reflexivity]).
  assert (H7 : msg.size (reference_trajectory
                           (example_controller (trajectory_of 7) 0))
               + 10 < SIZE_MOD) by reflexivity.
  assert (H2 : msg.size (reference_trajectory
                           (example_controller (trajectory_of 2) 0))
               + 10 < SIZE_MOD) by reflexivity.
  assert (L7 : msg.size (reference_trajectory
                           (example_controller (trajectory_of 7) 0))
               - current_state_temporal_index
                   (example_controller (trajectory_of 7) 0) = 7)
    by reflexivity.
  assert (L2 : msg.size (reference_trajectory
                           (example_controller (trajectory_of 2) 0))
               - current_state_temporal_index
                   (example_controller (trajectory_of 2) 0) = 2)
    by reflexivity.
  split.
  - split; [exact (conj (H1 7%nat) (conj H7 L7))|].
    exact (proj1 (backfill_soft_landing_horizon_10 to_angle_cartesian
                    (example_controller (trajectory_of 7) 0) (H1 7%nat) H7)
             L7).
  - split; [exact (conj (H1 2%nat) (conj H2 L2))|].
    exact (proj2 (backfill_soft_landing_horizon_10 to_angle_cartesian
                    (example_controller (trajectory_of 2) 0) (H1 2%nat) H2)
             L2).
Defined.

(** With 2 points left from the tracked index on, [backfill_reference(5)]
    does not fill two stages and zero the other three: the stage 6, which
    would carry the terminal weight profile, has zero weights. *)
Lemma backfill_soft_landing_counterexample :
  let c := example_controller (trajectory_of 2) 0 in
  msg.size (reference_trajectory c) - current_state_temporal_index c = 2 /\
  exists c',
    backfill_reference 10 to_angle_cartesian 5 c = Ok tt c' /\
    forall first_pt, ~ soft_landing 10 to_angle_cartesian 5 2 first_pt c c'.
Proof.
  cbv zeta. split; [reflexivity|].
  set (c := example_controller (trajectory_of 2) 0).
  assert (H1 : is_index (current_state_temporal_index c))
    by (split; [apply Z.le_refl|reflexivity]).
  assert (H2 : msg.size (reference_trajectory c) + 10 < SIZE_MOD)
    by reflexivity.
  assert (H3 : backfill_safe_count 10 c 5 = 0) by reflexivity.
  destruct (backfill_reference_soft_landing 10 to_angle_cartesian fits_10 5 c)
    as (c' & Hok & Hsl); try (assumption || lia).
  exists c'. split; [exact Hok|].
  intros first_pt (_ & _ & Hprofile & _).
  destruct Hsl as (_ & Hzero & _). rewrite H3 in Hzero.
  change (10 - 5 + 2 - 1) with 6 in Hprofile.
  rewrite (Hzero 6 IDY_X IDY_X) in Hprofile by (unfold IDY_X, NY; lia).
  rewrite (backfill_reference_ok 10 to_angle_cartesian fits_10) in Hok
    by (assumption || lia).
  injection Hok as <-. cbn in Hprofile. lra.
Qed.

(** ** The heading pass across the cut of the angle *)

(** C6.  When the first two stage references head to [-3] and [3] and the
    measured heading is within [PI] of [-3], [ensure_reference_consistency]
    returns, the two stored headings end up at most [0.3] apart, the
    accumulated [err] is above the threshold [3.14159], and the result is
    [true]. *)
Theorem heading_unwrap (HORIZON horizon : Index) (c : MpcController) :
  0 <= HORIZON /\ size_W HORIZON < SIZE_MOD ->
  2 <= HORIZON -> 2 <= horizon ->
  (Rabs (ACADO.x0 (acadoVariables c) IDX_HEADING - -3) < PI)%R ->
  stage_ref c 0 IDY_HEADING = (-3)%R ->
  stage_ref c 1 IDY_HEADING = 3%R ->
  exists c' err,
    reference_consistency_error HORIZON horizon c = Ok err c' /\
    (Rabs (stage_ref c' 1 IDY_HEADING - stage_ref c' 0 IDY_HEADING)
     <= 3 / 10)%R /\
    (PI_3_14159 < err)%R /\
    ensure_reference_consistency HORIZON horizon c = Ok true c'.
Proof.
  intros Hfits HN Hh Hx0 Hy0 Hy1.
  destruct (heading_unwrap_general HORIZON Hfits horizon c HN Hh Hx0 Hy0 Hy1)
    as (c' & err & Hrun & H0 & H1 & Herr & Hret).
  pose proof PI_lower. pose proof PI_upper.
  exists c', err. repeat split; try assumption.
  - rewrite H0, H1.
    replace (3 - 2 * PI - -3)%R with (- (2 * PI - 6))%R by ring.
    rewrite Rabs_Ropp, Rabs_pos_eq by lra. lra.
  - unfold PI_3_14159. lra.
Qed.

Lemma heading_example_near :
  (Rabs (ACADO.x0 (acadoVariables heading_example) IDX_HEADING - -3) < PI)%R.
Proof.
  cbn. replace (-3 - -3)%R with 0%R by ring.
  rewrite Rabs_R0. exact PI_RGT_0.
Qed.

Lemma heading_unwrap_witness :
  ((0 <= 2 /\ size_W 2 < SIZE_MOD) /\ 2 <= 2 /\ 2 <= 2 /\
   (Rabs (ACADO.x0 (acadoVariables heading_example) IDX_HEADING - -3) < PI)%R /\
   stage_ref heading_example 0 IDY_HEADING = (-3)%R /\
   stage_ref heading_example 1 IDY_HEADING = 3%R) /\
  exists c' err,
    reference_consistency_error 2 2 heading_example = Ok err c' /\
    (Rabs (stage_ref c' 1 IDY_HEADING - stage_ref c' 0 IDY_HEADING)
     <= 3 / 10)%R /\
    (PI_3_14159 < err)%R /\
    ensure_reference_consistency 2 2 heading_example = Ok true c'.
Proof.
  assert (H1 : 2 <= 2) by lia.
  assert (H2 : stage_ref heading_example 0 IDY_HEADING = (-3)%R)
    by reflexivity.
  assert (H3 : stage_ref heading_example 1 IDY_HEADING = 3%R) by reflexivity.
  split.
  - exact (conj fits_2 (conj H1 (conj H1 (conj heading_example_near
             (conj H2 H3))))).
  - exact (heading_unwrap 2 2 heading_example fits_2 H1 H1
             heading_example_near H2 H3).
Defined.

(** On the headings [-3] and [3] the pass does not behave as described: it
    reports [true]. *)
Lemma heading_unwrap_counterexample :
  ~ heading_unwrap_as_described 2 2 heading_example.
Proof.
  intros (c' & err & _ & _ & _ & Hret).
  destruct (heading_unwrap_general 2 fits_2 2 heading_example)
    as (c'' & err'' & _ & _ & _ & _ & Hret');
    try (lia || reflexivity || exact heading_example_near).
  rewrite Hret' in Hret. discriminate.
Qed.

(** ** Copying the references *)

Section ReferenceCopy.

Variable HORIZON : Index.
Variable to_angle : msg.Complex32 -> R.
Variable from_angle : R -> msg.Complex32.
Hypothesis HORIZON_fits : 0 <= HORIZON /\ size_W HORIZON < SIZE_MOD.
Hypothesis angle_round_trip : precision_preserving to_angle from_angle.

(** C7.  With valid bounds, [set_reference(traj, y_start, traj_start, count)]
    returns and, for every [i < count], stage [y_start + i] holds [x], [y] and
    the longitudinal velocity of [traj[traj_start + i]] unchanged and the
    angle conversion of its heading; when that heading is the heading of an
    angle [a], the stored heading is within [1e-6] of [a]. *)
Theorem set_reference_copies (traj : Trajectory)
    (y_start traj_start count : Index) (c : MpcController) :
  0 <= y_start -> 0 <= traj_start -> 0 <= count ->
  y_start + count <= HORIZON ->
  traj_start + count <= msg.size traj ->
  msg.size traj < SIZE_MOD ->
  exists c',
    set_reference HORIZON to_angle traj y_start traj_start count c
    = Ok tt c' /\
    forall i, 0 <= i < count ->
      exists pt,
        nth_error (msg.points traj) (Z.to_nat (traj_start + i)) = Some pt /\
        holds_point to_angle c' (y_start + i) pt /\
        forall a, (- PI < a <= PI)%R -> msg.heading pt = from_angle a ->
          (Rabs (stage_ref c' (y_start + i) IDY_HEADING - a)
           <= 1 / 1000000)%R.
Proof.
  intros Hy Ht Hc Hyc Htc Hsz.
  eexists. split.
  { apply (set_reference_ok HORIZON to_angle HORIZON_fits); assumption. }
  intros i Hi.
  destruct (nth_error (msg.points traj) (Z.to_nat (traj_start + i)))
    as [pt|] eqn:Hpt.
  2:{ apply nth_error_None in Hpt. unfold msg.size in Htc. lia. }
  exists pt. split; [reflexivity|].
  assert (Hfield : forall k, 0 <= k < 4 ->
            stage_ref (set_y c (y_set to_angle traj (traj_start - y_start)
                                  y_start (y_start + count)
                                  (ACADO.y (acadoVariables c))))
              (y_start + i) k
            = point_field to_angle pt k).
  { intros k Hk. unfold stage_ref.
    cbn [set_y with_acado acadoVariables ACADO.with_y ACADO.y].
    rewrite y_set_at by assumption.
    replace (y_start + i + (traj_start - y_start)) with (traj_start + i)
      by lia.
    rewrite Hpt. case_cmp; reflexivity || lia. }
  split.
  - unfold holds_point.
    rewrite !Hfield by (unfold IDY_X, IDY_Y, IDY_HEADING, IDY_VEL_LONG; lia).
    repeat split; reflexivity.
  - intros a Ha Hhead.
    rewrite Hfield by (unfold IDY_HEADING; lia).
    unfold point_field, IDY_HEADING. cbn. rewrite Hhead.
    now apply angle_round_trip.
Qed.

End ReferenceCopy.

Lemma cartesian_round_trip :
  precision_preserving to_angle_cartesian from_angle_cartesian.
Proof.
  intros a Ha. unfold to_angle_cartesian, from_angle_cartesian. cbn.
  rewrite atan2_sin_cos by assumption.
  replace (a - a)%R with 0%R by ring. rewrite Rabs_R0. lra.
Qed.

Lemma set_reference_copies_witness :
  let traj := trajectory_of 3 in
  let c := example_controller (trajectory_of 0) 0 in
  ((0 <= 10 /\ size_W 10 < SIZE_MOD) /\
   precision_preserving to_angle_cartesian from_angle_cartesian /\
   0 <= 2 /\ 0 <= 1 /\ 0 <= 2 /\ 2 + 2 <= 10 /\ 1 + 2 <= msg.size traj /\
   msg.size traj < SIZE_MOD) /\
  exists c',
    set_reference 10 to_angle_cartesian traj 2 1 2 c = Ok tt c' /\
    forall i, 0 <= i < 2 ->
      exists pt,
        nth_error (msg.points traj) (Z.to_nat (1 + i)) = Some pt /\
        holds_point to_angle_cartesian c' (2 + i) pt /\
        forall a, (- PI < a <= PI)%R ->
          msg.heading pt = from_angle_cartesian a ->
          (Rabs (stage_ref c' (2 + i) IDY_HEADING - a) <= 1 / 1000000)%R.
Proof.
  cbv zeta.
  assert (H0 : 0 <= 2) by lia.
  assert (H1 : 0 <= 1) by lia.
  assert (H2 : 2 + 2 <= 10) by lia.
  assert (H3 : 1 + 2 <= msg.size (trajectory_of 3)) by (cbn; lia).
  assert (H4 : msg.size (trajectory_of 3) < SIZE_MOD) by reflexivity.
  split.
  - exact (conj fits_10 (conj cartesian_round_trip
             (conj H0 (conj H1 (conj H0 (conj H2 (conj H3 H4))))))).
  - exact (set_reference_copies 10 to_angle_cartesian from_angle_cartesian
             fits_10 cartesian_round_trip (trajectory_of 3)
             2 1 2 (example_controller (trajectory_of 0) 0)
             H0 H1 H0 H2 H3 H4).
Defined.

(** ** Weights stay diagonal *)

(** C9.  If every off-diagonal entry of every stage weight matrix and of the
    terminal weight matrix is zero before a call of a public operation, it is
    still zero in the state the call leaves behind, whether it returns or
    throws. *)
Theorem off_diagonal_zero_preserved (HORIZON NU : Index)
    (to_angle : msg.Complex32 -> R)
    (sample : Trajectory -> Trajectory -> Trajectory)
    (op : PublicOp) (c c' : MpcController) :
  off_diagonal_zero HORIZON c ->
  final_state (run HORIZON NU to_angle sample op c) = Some c' ->
  off_diagonal_zero HORIZON c'.
Proof.
  rewrite !off_diagonal_zero_iff. apply preserves_run.
Qed.

Lemma off_diagonal_zero_preserved_witness :
  let c := example_controller (trajectory_of 4) 0 in
  exists c',
    (off_diagonal_zero 10 c /\
     final_state (run 10 2 to_angle_cartesian no_resampling
                    (op_apply_weights example_config) c) = Some c') /\
    off_diagonal_zero 10 c'.
Proof.
  cbv zeta.
  assert (H1 : off_diagonal_zero 10 (example_controller (trajectory_of 4) 0))
    by apply example_off_diagonal_zero.
  assert (H2 : exists c',
            final_state (run 10 2 to_angle_cartesian no_resampling
                           (op_apply_weights example_config)
                           (example_controller (trajectory_of 4) 0))
            = Some c').
  { cbn [run]. unfold apply_weights, bind.
    rewrite (apply_nominal_weights_ok 10 fits_10) by (cbn; lia).
    rewrite set_terminal_weights_ok. eexists. reflexivity. }
  destruct H2 as [c' H2]. exists c'.
  split; [exact (conj H1 H2)|].
  exact (off_diagonal_zero_preserved 10 2 to_angle_cartesian no_resampling
           (op_apply_weights example_config)
           (example_controller (trajectory_of 4) 0) c' H1 H2).
Defined.

(** * Further properties of the operations *)

(** ** Errors come before any write *)

Section NeverThrows.

Lemma never_throws_ret {A} (a : A) : never_throws (ret a).
Proof. intros c. reflexivity. Qed.

Lemma never_throws_undefined {A} : never_throws (@undefined A).
Proof. intros c. reflexivity. Qed.

Lemma never_throws_bind {A B} (m : M A) (f : A -> M B) :
  never_throws m -> (forall a, never_throws (f a)) -> never_throws (bind m f).
Proof.
  intros Hm Hf c. unfold bind. specialize (Hm c).
  destruct (m c) as [a c1|what c1|]; [apply Hf|discriminate|reflexivity].
Qed.

Lemma never_throws_for_loop (body : Index -> M unit) (n : nat) :
  (forall i, never_throws (body i)) ->
  forall i, never_throws (for_loop n i body).
Proof.
  intros Hbody. induction n as [|n IH]; intros i; cbn [for_loop].
  - apply never_throws_ret.
  - apply never_throws_bind; [apply Hbody|intros _; apply IH].
Qed.

Lemma never_throws_store (sel : ACADO.variables -> array)
    (put : ACADO.variables -> array -> ACADO.variables)
    (size : Z) (i : Index) (v : AcadoReal) :
  never_throws (store sel put size i v).
Proof. intros c. unfold store. destruct (i <? size); reflexivity. Qed.

Lemma never_throws_copy (sel : ACADO.variables -> array)
    (put : ACADO.variables -> array -> ACADO.variables)
    (size : Z) (first last d_first : Index) :
  never_throws (copy sel put size first last d_first).
Proof. intros c. unfold copy. destruct (_ && _); reflexivity. Qed.

Lemma never_throws_fill (sel : ACADO.variables -> array)
    (put : ACADO.variables -> array -> ACADO.variables)
    (size : Z) (first last : Index) (v : AcadoReal) :
  never_throws (fill sel put size first last v).
Proof. intros c. unfold fill. destruct (_ && _); reflexivity. Qed.

Lemma never_throws_point_at (traj : Trajectory) (i : Index) :
  never_throws (point_at traj i).
Proof.
  unfold point_at. destruct (nth_error _ _);
    [apply never_throws_ret|apply never_throws_undefined].
Qed.

End NeverThrows.

Lemma apply_nominal_weights_throw_unchanged (HORIZON : Index)
    (cfg : StateWeight) (start end_ : Index) (c c' : MpcController)
    (what : string) :
  apply_nominal_weights HORIZON cfg start end_ c = Throw what c' -> c' = c.
Proof.
  unfold apply_nominal_weights. cbv zeta.
  destruct (start >? Z.min end_ HORIZON).
  - intros [= _ <-]. reflexivity.
  - intros H. exfalso.
    assert (Hn : never_throws
              (for_range start (Z.min end_ HORIZON) (fun i =>
                 store_W HORIZON
                   (iadd (iadd (imul i (imul NY NY)) (imul IDY_X NY)) IDY_X)
                   (pose cfg) ;;
                 store_W HORIZON
                   (iadd (iadd (imul i (imul NY NY)) (imul IDY_Y NY)) IDY_Y)
                   (pose cfg) ;;
                 store_W HORIZON
                   (iadd (iadd (imul i (imul NY NY)) (imul IDY_HEADING NY))
                      IDY_HEADING) (heading cfg) ;;
                 store_W HORIZON
                   (iadd (iadd (imul i (imul NY NY)) (imul IDY_VEL_LONG NY))
                      IDY_VEL_LONG) (longitudinal_velocity cfg)))).
    { apply never_throws_for_loop. intros i.
      repeat (apply never_throws_bind; [apply never_throws_store|intros _]).
      apply never_throws_store. }
    specialize (Hn c). rewrite H in Hn. discriminate.
Qed.

(** X1.  The bounds errors of [set_reference], [apply_nominal_weights],
    [zero_nominal_weights], [apply_terminal_weights] and [advance_problem]
    are raised before anything is written: whenever one of these calls
    throws, for any arguments, the controller is left exactly as it was. *)
Theorem bounds_errors_leave_state_unchanged (HORIZON NU : Index)
    (to_angle : msg.Complex32 -> R) (c c' : MpcController) (what : string) :
  (forall traj y_start traj_start count,
     set_reference HORIZON to_angle traj y_start traj_start count c
     = Throw what c' -> c' = c) /\
  (forall cfg start end_,
     apply_nominal_weights HORIZON cfg start end_ c = Throw what c' ->
     c' = c) /\
  (forall start end_,
     zero_nominal_weights HORIZON start end_ c = Throw what c' -> c' = c) /\
  (forall idx,
     apply_terminal_weights HORIZON idx c = Throw what c' -> c' = c) /\
  (forall count,
     advance_problem HORIZON NU count c = Throw what c' -> c' = c).
Proof.
  repeat split.
  - intros traj y_start traj_start count. unfold set_reference.
    destruct (_ || _).
    + intros [= _ <-]. reflexivity.
    + intros H. exfalso.
      assert (Hn : never_throws
                (for_range 0 count (fun i =>
                   pt <- point_at traj (iadd traj_start i) ;;
                   store_y HORIZON (iadd (imul (iadd y_start i) NY) IDY_X)
                     (msg.x pt) ;;
                   store_y HORIZON (iadd (imul (iadd y_start i) NY) IDY_Y)
                     (msg.y pt) ;;
                   store_y HORIZON
                     (iadd (imul (iadd y_start i) NY) IDY_VEL_LONG)
                     (msg.longitudinal_velocity_mps pt) ;;
                   store_y HORIZON
                     (iadd (imul (iadd y_start i) NY) IDY_HEADING)
                     (to_angle (msg.heading pt))))).
      { apply never_throws_for_loop. intros i.
        apply never_throws_bind; [apply never_throws_point_at|intros pt].
        repeat (apply never_throws_bind; [apply never_throws_store|intros _]).
        apply never_throws_store. }
      specialize (Hn c). rewrite H in Hn. discriminate.
  - intros cfg start end_. apply apply_nominal_weights_throw_unchanged.
  - intros start end_. unfold zero_nominal_weights. cbv zeta.
    destruct (_ >? _).
    + intros [= _ <-]. reflexivity.
    + intros H. exfalso.
      pose proof (never_throws_fill ACADO.W ACADO.with_W (size_W HORIZON)
                    (imul start (imul NY NY))
                    (imul (Z.min HORIZON end_) (imul NY NY)) 0%R c) as Hn.
      rewrite H in Hn. discriminate.
  - intros idx. unfold apply_terminal_weights.
    destruct (_ >=? _).
    + intros [= _ <-]. reflexivity.
    + unfold bind, get. apply apply_nominal_weights_throw_unchanged.
  - intros count. unfold advance_problem.
    destruct (_ <=? _).
    + intros [= _ <-]. reflexivity.
    + intros H. exfalso.
      assert (Hn : never_throws
                (copy ACADO.x ACADO.with_x (size_x HORIZON)
                   (imul NX (iadd count 1)) (imul (iadd HORIZON 1) NX) NX ;;
                 copy ACADO.y ACADO.with_y (size_y HORIZON)
                   (imul NY count) (imul HORIZON NY) 0 ;;
                 copy ACADO.u ACADO.with_u (size_u HORIZON NU)
                   (imul NU count) (imul HORIZON NU) 0)).
      { repeat (apply never_throws_bind; [apply never_throws_copy|intros _]).
        apply never_throws_copy. }
      specialize (Hn c). rewrite H in Hn. discriminate.
Qed.

Lemma bounds_errors_leave_state_unchanged_witness :
  exists what c',
    apply_nominal_weights 10 (nominal example_config) 5 3
      (example_controller (trajectory_of 4) 0) = Throw what c' /\
    c' = example_controller (trajectory_of 4) 0.
Proof.
  exists "Inconsistent bounds: apply! There's likely an indexing bug somewhere"%string,
    (example_controller (trajectory_of 4) 0).
  split; [reflexivity|].
  apply (proj1 (proj2 (bounds_errors_leave_state_unchanged 10 2
           to_angle_cartesian (example_controller (trajectory_of 4) 0)
           (example_controller (trajectory_of 4) 0)
           "Inconsistent bounds: apply! There's likely an indexing bug somewhere"))
           (nominal example_config) 5 3).
  reflexivity.
Defined.

(** ** What the operations never touch *)

Section MembersPreserved.

(** A property of the controller that does not depend on the buffers. *)
Variable P : MpcController -> Prop.
Hypothesis P_buffers : forall c a, P c -> P (with_acado c a).

Variable HORIZON : Index.
Variable NU : Index.
Variable to_angle : msg.Complex32 -> R.
Variable sample : Trajectory -> Trajectory -> Trajectory.

Lemma members_store (sel : ACADO.variables -> array)
    (put : ACADO.variables -> array -> ACADO.variables)
    (size : Z) (i : Index) (v : AcadoReal) :
  preserves P (store sel put size i v).
Proof.
  intros c c' HP. unfold store. destruct (i <? size); [|intros [=]].
  intros [= <-]. now apply P_buffers.
Qed.

Lemma members_copy (sel : ACADO.variables -> array)
    (put : ACADO.variables -> array -> ACADO.variables)
    (size : Z) (first last d_first : Index) :
  preserves P (copy sel put size first last d_first).
Proof.
  intros c c' HP. unfold copy. destruct (_ && _); [|intros [=]].
  intros [= <-]. now apply P_buffers.
Qed.

Lemma members_fill (sel : ACADO.variables -> array)
    (put : ACADO.variables -> array -> ACADO.variables)
    (size : Z) (first last : Index) (v : AcadoReal) :
  preserves P (fill sel put size first last v).
Proof.
  intros c c' HP. unfold fill. destruct (_ && _); [|intros [=]].
  intros [= <-]. now apply P_buffers.
Qed.

(** Operations built from stores, copies and fills keep [P]. *)
Ltac members :=
  repeat first
    [ apply preserves_ret
    | apply preserves_throw
    | apply preserves_undefined
    | apply preserves_get
    | apply preserves_point_at
    | apply preserves_load
    | apply members_store
    | apply members_copy
    | apply members_fill
    | apply preserves_for_loop; intros ?
    | apply preserves_bind; [|intros ?]
    | match goal with
      | |- preserves _ (if ?b then _ else _) => destruct b
      | |- preserves _ (match ?o with Some _ => _ | None => _ end) =>
          destruct o
      end ].

Lemma members_apply_nominal_weights (cfg : StateWeight) (start end_ : Index) :
  preserves P (apply_nominal_weights HORIZON cfg start end_).
Proof. unfold apply_nominal_weights, for_range, store_W. cbv zeta. members. Qed.

Lemma members_zero_nominal_weights (start end_ : Index) :
  preserves P (zero_nominal_weights HORIZON start end_).
Proof. unfold zero_nominal_weights. cbv zeta. members. Qed.

Lemma members_zero_terminal_weights : preserves P zero_terminal_weights.
Proof. unfold zero_terminal_weights, store_WN. members. Qed.

Lemma members_set_terminal_weights (cfg : StateWeight) :
  preserves P (set_terminal_weights cfg).
Proof. unfold set_terminal_weights, store_WN. members. Qed.

Lemma members_apply_terminal_weights (idx : Index) :
  preserves P (apply_terminal_weights HORIZON idx).
Proof.
  unfold apply_terminal_weights. members.
  apply members_apply_nominal_weights.
Qed.

Lemma members_set_reference (traj : Trajectory)
    (y_start traj_start count : Index) :
  preserves P (set_reference HORIZON to_angle traj y_start traj_start count).
Proof. unfold set_reference, for_range, store_y. members. Qed.

Lemma members_set_terminal_reference (pt : Point) :
  preserves P (set_terminal_reference to_angle pt).
Proof. unfold set_terminal_reference, store_yN. members. Qed.

Lemma members_advance_problem (count : Index) :
  preserves P (advance_problem HORIZON NU count).
Proof. unfold advance_problem. members. Qed.

Lemma members_backfill_reference (count : Index) :
  preserves P (backfill_reference HORIZON to_angle count).
Proof.
  unfold backfill_reference. cbv zeta.
  destruct (HORIZON <=? count); [apply preserves_throw|].
  apply preserves_bind; [apply preserves_get|intros c].
  apply preserves_bind; [apply members_set_reference|intros _].
  apply preserves_bind.
  - destruct (_ <? count); [|apply preserves_ret].
    apply preserves_bind;
      [apply members_zero_nominal_weights
      |intros _; apply members_apply_terminal_weights].
  - intros _. destruct (_ <? _); [|apply members_zero_terminal_weights].
    apply preserves_bind;
      [apply preserves_point_at
      |intros pt; apply members_set_terminal_reference].
Qed.

Lemma members_consistency_loop (n : nat) :
  forall (i : Index) (last_angle err : AcadoReal),
    preserves P (consistency_loop HORIZON n i last_angle err).
Proof.
  induction n as [|n IH]; intros i last_angle err; cbn [consistency_loop].
  - apply preserves_ret.
  - apply preserves_bind; [apply preserves_load|intros ref].
    destruct (fn ref last_angle err) as [[ref' last_angle'] err'].
    apply preserves_bind; [apply members_store|intros _]. apply IH.
Qed.

Lemma members_ensure_reference_consistency (horizon : Index) :
  preserves P (ensure_reference_consistency HORIZON horizon).
Proof.
  unfold ensure_reference_consistency, reference_consistency_error.
  cbv zeta.
  apply preserves_bind; [|intros ?; apply preserves_ret].
  apply preserves_bind; [apply preserves_load|intros last_angle].
  apply preserves_bind; [apply members_consistency_loop|intros [la err]].
  apply preserves_bind; [apply preserves_load|intros ref].
  destruct (fn ref la err) as [[ref' la'] err'].
  apply preserves_bind; [apply members_store|intros _].
  apply preserves_ret.
Qed.

(** [handle_new_trajectory] also writes the buffer of the resampler and the
    last applied reference index. *)
Hypothesis P_interpolated : forall c t, P c -> P (with_interpolated c t).
Hypothesis P_last_index : forall c i, P c -> P (with_last_reference_index c i).

Lemma members_handle_new_trajectory (trajectory : Trajectory) :
  preserves P (handle_new_trajectory HORIZON to_angle sample trajectory).
Proof.
  unfold handle_new_trajectory.
  apply preserves_bind; [apply preserves_get|intros c0].
  apply preserves_bind.
  { destruct (m_interpolated_trajectory c0); [|apply preserves_ret].
    intros c c' HP [= <-]. now apply P_interpolated. }
  intros _. apply preserves_bind; [apply preserves_get|intros c].
  cbv zeta.
  apply preserves_bind; [apply members_set_reference|intros _].
  apply preserves_bind; [apply members_apply_nominal_weights|intros _].
  apply preserves_bind.
  { destruct (_ <? HORIZON);
      [apply members_zero_nominal_weights|apply preserves_ret]. }
  intros _. apply preserves_bind.
  { destruct (_ >=? _).
    - apply preserves_bind;
        [apply members_zero_terminal_weights
        |intros _; apply members_apply_terminal_weights].
    - apply preserves_bind;
        [apply preserves_point_at
        |intros pt; apply members_set_terminal_reference]. }
  intros _. apply preserves_bind; [|intros _; apply preserves_ret].
  intros c1 c' HP [= <-]. now apply P_last_index.
Qed.

End MembersPreserved.

(** X2.  No public operation changes the configuration, the stored reference
    trajectory or the temporal index, whether it returns or throws; and every
    operation other than [handle_new_trajectory] also leaves the buffer of the
    resampler and the last applied reference index as they were. *)
Theorem operations_keep_members (HORIZON NU : Index)
    (to_angle : msg.Complex32 -> R)
    (sample : Trajectory -> Trajectory -> Trajectory)
    (op : PublicOp) (c c' : MpcController) :
  final_state (run HORIZON NU to_angle sample op c) = Some c' ->
  (config c' = config c /\
   reference_trajectory c' = reference_trajectory c /\
   current_state_temporal_index c' = current_state_temporal_index c) /\
  ((forall trajectory, op <> op_handle_new_trajectory trajectory) ->
   m_interpolated_trajectory c' = m_interpolated_trajectory c /\
   m_last_reference_index c' = m_last_reference_index c).
Proof.
  intros Hrun. split.
  - set (P := fun c1 : MpcController =>
                config c1 = config c /\
                reference_trajectory c1 = reference_trajectory c /\
                current_state_temporal_index c1
                = current_state_temporal_index c).
    assert (HP : forall c1 a, P c1 -> P (with_acado c1 a))
      by (intros c1 a H; exact H).
    assert (HP0 : P c) by (repeat split).
    cut (preserves P (run HORIZON NU to_angle sample op));
      [intros Hpres; exact (Hpres c c' HP0 Hrun)|].
    clear Hrun HP0.
    destruct op; cbn [run].
    + now apply members_apply_nominal_weights.
    + now apply members_zero_nominal_weights.
    + now apply members_set_terminal_weights.
    + now apply members_zero_terminal_weights.
    + now apply members_apply_terminal_weights.
    + apply preserves_bind;
        [now apply members_apply_nominal_weights
        |intros _; now apply members_set_terminal_weights].
    + now apply members_set_reference.
    + now apply members_set_terminal_reference.
    + apply preserves_bind; [|intros _; apply preserves_ret].
      apply members_handle_new_trajectory; try assumption;
        intros c1 t H; exact H.
    + now apply members_advance_problem.
    + now apply members_backfill_reference.
    + apply preserves_bind; [|intros _; apply preserves_ret].
      now apply members_ensure_reference_consistency.
  - intros Hop.
    set (P := fun c1 : MpcController =>
                m_interpolated_trajectory c1 = m_interpolated_trajectory c /\
                m_last_reference_index c1 = m_last_reference_index c).
    assert (HP : forall c1 a, P c1 -> P (with_acado c1 a))
      by (intros c1 a H; exact H).
    assert (HP0 : P c) by (repeat split).
    cut (preserves P (run HORIZON NU to_angle sample op));
      [intros Hpres; exact (Hpres c c' HP0 Hrun)|].
    clear Hrun HP0.
    destruct op; cbn [run].
    + now apply members_apply_nominal_weights.
    + now apply members_zero_nominal_weights.
    + now apply members_set_terminal_weights.
    + now apply members_zero_terminal_weights.
    + now apply members_apply_terminal_weights.
    + apply preserves_bind;
        [now apply members_apply_nominal_weights
        |intros _; now apply members_set_terminal_weights].
    + now apply members_set_reference.
    + now apply members_set_terminal_reference.
    + exfalso. now apply (Hop trajectory).
    + now apply members_advance_problem.
    + now apply members_backfill_reference.
    + apply preserves_bind; [|intros _; apply preserves_ret].
      now apply members_ensure_reference_consistency.
Qed.

Lemma operations_keep_members_witness :
  exists c',
    final_state (run 10 2 to_angle_cartesian no_resampling
                   (op_handle_new_trajectory (trajectory_of 0))
                   (example_controller (trajectory_of 4) 0)) = Some c' /\
    (config c' = example_config /\
     reference_trajectory c' = trajectory_of 4 /\
     current_state_temporal_index c' = 0) /\
    ((forall trajectory,
        op_handle_new_trajectory (trajectory_of 0)
        <> op_handle_new_trajectory trajectory) ->
     m_interpolated_trajectory c' = None /\
     m_last_reference_index c' = 0).
Proof.
  assert (H : exists c',
            final_state (run 10 2 to_angle_cartesian no_resampling
                           (op_handle_new_trajectory (trajectory_of 0))
                           (example_controller (trajectory_of 4) 0))
            = Some c').
  { cbn [run]. unfold bind at 1.
    rewrite (handle_new_trajectory_within 10 to_angle_cartesian no_resampling
               fits_10) by (reflexivity || (cbn; lia)).
    eexists. reflexivity. }
  destruct H as [c' H]. exists c'. split; [exact H|].
  exact (operations_keep_members 10 2 to_angle_cartesian no_resampling
           (op_handle_new_trajectory (trajectory_of 0))
           (example_controller (trajectory_of 4) 0) c' H).
Defined.

(** ** The weight primitives through the views *)

Section WeightEffects.

Variable HORIZON : Index.
Hypothesis HORIZON_fits : 0 <= HORIZON /\ size_W HORIZON < SIZE_MOD.

(** X3.  For [0 <= start <= min(end, HORIZON)], [apply_nominal_weights]
    returns; [end] is clamped to [HORIZON]; the stages of
    [[start, min(end, HORIZON))] carry the profile on their diagonal; every
    other entry of the stage weights (the other stages and all off-diagonal
    entries) and all the other buffers are left as they were. *)
Theorem apply_nominal_weights_effect (cfg : StateWeight) (start end_ : Index)
    (c : MpcController) :
  0 <= start <= Z.min end_ HORIZON ->
  exists c',
    apply_nominal_weights HORIZON cfg start end_ c = Ok tt c' /\
    (forall i, start <= i < Z.min end_ HORIZON -> carries_profile cfg c' i) /\
    (forall i r col, 0 <= r < NY -> 0 <= col < NY ->
       i < start \/ Z.min end_ HORIZON <= i \/ r <> col ->
       stage_weight c' i r col = stage_weight c i r col) /\
    ACADO.x (acadoVariables c') = ACADO.x (acadoVariables c) /\
    ACADO.u (acadoVariables c') = ACADO.u (acadoVariables c) /\
    ACADO.y (acadoVariables c') = ACADO.y (acadoVariables c) /\
    ACADO.yN (acadoVariables c') = ACADO.yN (acadoVariables c) /\
    ACADO.WN (acadoVariables c') = ACADO.WN (acadoVariables c) /\
    ACADO.x0 (acadoVariables c') = ACADO.x0 (acadoVariables c).
Proof.
  intros H. eexists. split.
  { now apply (apply_nominal_weights_ok HORIZON HORIZON_fits). }
  split; [|split; [|repeat split]].
  - intros i Hi. unfold carries_profile, stage_weight.
    cbn [set_W with_acado acadoVariables ACADO.with_W ACADO.W].
    repeat split;
      rewrite W_apply_at
        by (unfold IDY_X, IDY_Y, IDY_HEADING, IDY_VEL_LONG; lia);
      (case_cmp; [reflexivity|lia..]).
  - intros i r col Hr Hc Hout. unfold stage_weight, NY in *.
    cbn [set_W with_acado acadoVariables ACADO.with_W ACADO.W].
    rewrite W_apply_at by lia. unfold diag_profile.
    case_cmp; reflexivity || lia.
Qed.

Lemma W_zero_twice (first last : Z) (w : array) :
  W_zero first last (W_zero first last w) = W_zero first last w.
Proof.
  apply functional_extensionality; intros j. unfold W_zero.
  destruct (_ && _); reflexivity.
Qed.

(** X4.  For [0 <= start <= min(HORIZON, end)], [zero_nominal_weights]
    returns with every entry of the weights of the stages
    [[start, min(HORIZON, end))] zero and the weights of the other stages
    unchanged; calling it a second time with the same arguments changes
    nothing. *)
Theorem zero_nominal_weights_effect (start end_ : Index) (c : MpcController) :
  0 <= start <= Z.min HORIZON end_ ->
  exists c',
    zero_nominal_weights HORIZON start end_ c = Ok tt c' /\
    zero_stage_weights c' start (Z.min HORIZON end_) /\
    (forall i r col, 0 <= r < NY -> 0 <= col < NY ->
       i < start \/ Z.min HORIZON end_ <= i ->
       stage_weight c' i r col = stage_weight c i r col) /\
    zero_nominal_weights HORIZON start end_ c' = Ok tt c'.
Proof.
  intros H. eexists. split.
  { now apply (zero_nominal_weights_ok HORIZON HORIZON_fits). }
  split; [|split].
  - intros i r col Hi Hr Hc. unfold stage_weight, NY in *.
    cbn [set_W with_acado acadoVariables ACADO.with_W ACADO.W].
    rewrite W_zero_at by lia. case_cmp; reflexivity || lia.
  - intros i r col Hr Hc Hout. unfold stage_weight, NY in *.
    cbn [set_W with_acado acadoVariables ACADO.with_W ACADO.W].
    rewrite W_zero_at by lia. case_cmp; reflexivity || lia.
  - rewrite (zero_nominal_weights_ok HORIZON HORIZON_fits) by assumption.
    rewrite set_W_set_W.
    cbn [set_W with_acado acadoVariables ACADO.with_W ACADO.W].
    rewrite W_zero_twice. reflexivity.
Qed.

(** X5.  [apply_weights(cfg)] never fails: it returns with the nominal
    profile of [cfg] on the diagonal of every stage [[0, HORIZON)] and the
    terminal profile of [cfg] on the diagonal of [terminal_weight], and it
    leaves every off-diagonal weight entry as it was. *)
Theorem apply_weights_effect (cfg : OptimizationConfig) (c : MpcController) :
  exists c',
    apply_weights HORIZON cfg c = Ok tt c' /\
    (forall i, 0 <= i < HORIZON -> carries_profile (nominal cfg) c' i) /\
    terminal_weight c' IDYN_X IDYN_X = pose (terminal cfg) /\
    terminal_weight c' IDYN_Y IDYN_Y = pose (terminal cfg) /\
    terminal_weight c' IDYN_HEADING IDYN_HEADING = heading (terminal cfg) /\
    terminal_weight c' IDYN_VEL_LONG IDYN_VEL_LONG
    = longitudinal_velocity (terminal cfg) /\
    (forall i r col, 0 <= r < NY -> 0 <= col < NY -> r <> col ->
       stage_weight c' i r col = stage_weight c i r col) /\
    (forall r col, 0 <= r < NYN -> 0 <= col < NYN -> r <> col ->
       terminal_weight c' r col = terminal_weight c r col).
Proof.
  destruct HORIZON_fits as [HN _].
  eexists. split.
  { unfold apply_weights, bind.
    rewrite (apply_nominal_weights_ok HORIZON HORIZON_fits) by lia.
    rewrite set_terminal_weights_ok. rewrite Z.min_id. reflexivity. }
  split; [|repeat split].
  - intros i Hi. unfold carries_profile, stage_weight.
    cbn [set_W set_WN with_acado acadoVariables ACADO.with_W ACADO.with_WN
         ACADO.W].
    repeat split;
      rewrite W_apply_at
        by (unfold IDY_X, IDY_Y, IDY_HEADING, IDY_VEL_LONG; lia);
      (case_cmp; [reflexivity|lia..]).
  - intros i r col Hr Hc Hne. unfold stage_weight, NY in *.
    cbn [set_W set_WN with_acado acadoVariables ACADO.with_W ACADO.with_WN
         ACADO.W].
    rewrite W_apply_at by lia. unfold diag_profile.
    case_cmp; reflexivity || lia.
  - intros r col Hr Hc Hne. unfold terminal_weight, NYN in *.
    cbn [set_W set_WN with_acado acadoVariables ACADO.with_W ACADO.with_WN
         ACADO.WN].
    unfold WN_set, upd. case_cmp; reflexivity || lia.
Qed.

End WeightEffects.

Lemma apply_nominal_weights_effect_witness :
  (0 <= 10 /\ size_W 10 < SIZE_MOD) /\ 0 <= 2 <= Z.min 50 10 /\
  exists c',
    apply_nominal_weights 10 (nominal example_config) 2 50
      (example_controller (trajectory_of 4) 0) = Ok tt c' /\
    (forall i, 2 <= i < Z.min 50 10 ->
       carries_profile (nominal example_config) c' i) /\
    (forall i r col, 0 <= r < NY -> 0 <= col < NY ->
       i < 2 \/ Z.min 50 10 <= i \/ r <> col ->
       stage_weight c' i r col
       = stage_weight (example_controller (trajectory_of 4) 0) i r col) /\
    ACADO.x (acadoVariables c') = zero_array /\
    ACADO.u (acadoVariables c') = zero_array /\
    ACADO.y (acadoVariables c') = zero_array /\
    ACADO.yN (acadoVariables c') = zero_array /\
    ACADO.WN (acadoVariables c') = zero_array /\
    ACADO.x0 (acadoVariables c') = zero_array.
Proof.
  assert (H : 0 <= 2 <= Z.min 50 10) by (cbn; lia).
  split; [exact fits_10|]. split; [exact H|].
  exact (apply_nominal_weights_effect 10 fits_10 (nominal example_config)
           2 50 (example_controller (trajectory_of 4) 0) H).
Defined.

Lemma zero_nominal_weights_effect_witness :
  (0 <= 10 /\ size_W 10 < SIZE_MOD) /\ 0 <= 3 <= Z.min 10 7 /\
  exists c',
    zero_nominal_weights 10 3 7 (example_controller (trajectory_of 4) 0)
    = Ok tt c' /\
    zero_stage_weights c' 3 (Z.min 10 7) /\
    (forall i r col, 0 <= r < NY -> 0 <= col < NY ->
       i < 3 \/ Z.min 10 7 <= i ->
       stage_weight c' i r col
       = stage_weight (example_controller (trajectory_of 4) 0) i r col) /\
    zero_nominal_weights 10 3 7 c' = Ok tt c'.
Proof.
  assert (H : 0 <= 3 <= Z.min 10 7) by (cbn; lia).
  split; [exact fits_10|]. split; [exact H|].
  exact (zero_nominal_weights_effect 10 fits_10 3 7
           (example_controller (trajectory_of 4) 0) H).
Defined.

Lemma apply_weights_effect_witness :
  (0 <= 10 /\ size_W 10 < SIZE_MOD) /\
  exists c',
    apply_weights 10 example_config (example_controller (trajectory_of 4) 0)
    = Ok tt c' /\
    (forall i, 0 <= i < 10 -> carries_profile (nominal example_config) c' i) /\
    terminal_weight c' IDYN_X IDYN_X = pose (terminal example_config) /\
    terminal_weight c' IDYN_Y IDYN_Y = pose (terminal example_config) /\
    terminal_weight c' IDYN_HEADING IDYN_HEADING
    = heading (terminal example_config) /\
    terminal_weight c' IDYN_VEL_LONG IDYN_VEL_LONG
    = longitudinal_velocity (terminal example_config) /\
    (forall i r col, 0 <= r < NY -> 0 <= col < NY -> r <> col ->
       stage_weight c' i r col
       = stage_weight (example_controller (trajectory_of 4) 0) i r col) /\
    (forall r col, 0 <= r < NYN -> 0 <= col < NYN -> r <> col ->
       terminal_weight c' r col
       = terminal_weight (example_controller (trajectory_of 4) 0) r col).
Proof.
  split; [exact fits_10|].
  exact (apply_weights_effect 10 fits_10 example_config
           (example_controller (trajectory_of 4) 0)).
Defined.

(** ** More on copying references and rolling the horizon *)

Section Rolling.

Variable HORIZON : Index.
Variable NU : Index.
Variable to_angle : msg.Complex32 -> R.
Hypothesis HORIZON_fits : 0 <= HORIZON /\ size_W HORIZON < SIZE_MOD.
Hypothesis NU_fits : 0 <= NU /\ size_u HORIZON NU < SIZE_MOD.

Lemma advanced_views (count : Index) (c : MpcController) (i k : Z) :
  0 <= count < HORIZON -> 0 <= i < HORIZON - count ->
  (0 <= k < NY ->
   stage_ref (advanced HORIZON NU count c) i k = stage_ref c (i + count) k) /\
  (0 <= k < NU ->
   control NU (advanced HORIZON NU count c) i k
   = control NU c (i + count) k) /\
  (0 <= k < NX ->
   state (advanced HORIZON NU count c) (i + 1) k
   = state c (i + 1 + count) k).
Proof.
  intros Hc Hi. unfold stage_ref, control, state, advanced, NX, NY.
  cbn [acadoVariables with_acado ACADO.x ACADO.u ACADO.y].
  repeat split; intros Hk; rewrite std_copy_spec by lia.
  - case_cmp; try lia. f_equal. lia.
  - case_cmp; try nia. f_equal. lia.
  - case_cmp; try lia. f_equal. lia.
Qed.

(** X6.  Rolling in two steps is rolling once: for [a + b < HORIZON],
    [advance_problem(a)] followed by [advance_problem(b)] returns, and on
    the stages [[0, HORIZON - (a + b))] the references, controls and states
    it leaves are those [advance_problem(a + b)] leaves. *)
Theorem advance_problem_twice (a b : Index) (c : MpcController) :
  0 <= a -> 0 <= b -> a + b < HORIZON ->
  exists c1 c2 c12,
    advance_problem HORIZON NU a c = Ok tt c1 /\
    advance_problem HORIZON NU b c1 = Ok tt c2 /\
    advance_problem HORIZON NU (a + b) c = Ok tt c12 /\
    forall i, 0 <= i < HORIZON - (a + b) ->
      (forall k, 0 <= k < NY -> stage_ref c2 i k = stage_ref c12 i k) /\
      (forall k, 0 <= k < NU -> control NU c2 i k = control NU c12 i k) /\
      (forall k, 0 <= k < NX -> state c2 (i + 1) k = state c12 (i + 1) k).
Proof.
  intros Ha Hb Hab.
  exists (advanced HORIZON NU a c),
    (advanced HORIZON NU b (advanced HORIZON NU a c)),
    (advanced HORIZON NU (a + b) c).
  repeat split;
    try (apply (advance_problem_ok HORIZON NU HORIZON_fits NU_fits); lia).
  - intros k Hk.
    destruct (advanced_views b (advanced HORIZON NU a c) i k) as (-> & _);
      try lia.
    destruct (advanced_views a c (i + b) k) as (-> & _); try lia.
    destruct (advanced_views (a + b) c i k) as (-> & _); try lia.
    f_equal. lia.
  - intros k Hk.
    destruct (advanced_views b (advanced HORIZON NU a c) i k) as (_ & -> & _);
      try lia.
    destruct (advanced_views a c (i + b) k) as (_ & -> & _); try lia.
    destruct (advanced_views (a + b) c i k) as (_ & -> & _); try lia.
    f_equal. lia.
  - intros k Hk.
    destruct (advanced_views b (advanced HORIZON NU a c) i k) as (_ & _ & ->);
      try lia.
    replace (i + 1 + b) with (i + b + 1) by lia.
    destruct (advanced_views a c (i + b) k) as (_ & _ & ->); try lia.
    destruct (advanced_views (a + b) c i k) as (_ & _ & ->); try lia.
    f_equal. lia.
Qed.

(** X7.  With valid bounds, [set_reference] writes nothing but the stage
    references of [[y_start, y_start + count)]: the references of the other
    stages and all the other buffers are left as they were, and with
    [count = 0] the whole controller is. *)
Theorem set_reference_frame (traj : Trajectory)
    (y_start traj_start count : Index) (c : MpcController) :
  0 <= y_start -> 0 <= traj_start -> 0 <= count ->
  y_start + count <= HORIZON ->
  traj_start + count <= msg.size traj ->
  msg.size traj < SIZE_MOD ->
  exists c',
    set_reference HORIZON to_angle traj y_start traj_start count c
    = Ok tt c' /\
    (forall i k, 0 <= k < NY -> i < y_start \/ y_start + count <= i ->
       stage_ref c' i k = stage_ref c i k) /\
    ACADO.x (acadoVariables c') = ACADO.x (acadoVariables c) /\
    ACADO.u (acadoVariables c') = ACADO.u (acadoVariables c) /\
    ACADO.yN (acadoVariables c') = ACADO.yN (acadoVariables c) /\
    ACADO.W (acadoVariables c') = ACADO.W (acadoVariables c) /\
    ACADO.WN (acadoVariables c') = ACADO.WN (acadoVariables c) /\
    ACADO.x0 (acadoVariables c') = ACADO.x0 (acadoVariables c) /\
    (count = 0 -> c' = c).
Proof.
  intros Hy Ht Hc Hyc Htc Hsz. eexists. split.
  { apply (set_reference_ok HORIZON to_angle HORIZON_fits); assumption. }
  split; [|repeat split].
  - intros i k Hk Hout. unfold stage_ref, NY in *.
    cbn [set_y with_acado acadoVariables ACADO.with_y ACADO.y].
    rewrite y_set_at by assumption. case_cmp; reflexivity || lia.
  - intros ->. rewrite Z.add_0_r, y_set_empty. apply set_y_same.
Qed.

End Rolling.

Lemma advance_problem_twice_witness :
  ((0 <= 10 /\ size_W 10 < SIZE_MOD) /\ (0 <= 2 /\ size_u 10 2 < SIZE_MOD) /\
   0 <= 3 /\ 0 <= 4 /\ 3 + 4 < 10) /\
  exists c1 c2 c12,
    advance_problem 10 2 3 heading_example = Ok tt c1 /\
    advance_problem 10 2 4 c1 = Ok tt c2 /\
    advance_problem 10 2 (3 + 4) heading_example = Ok tt c12 /\
    forall i, 0 <= i < 10 - (3 + 4) ->
      (forall k, 0 <= k < NY -> stage_ref c2 i k = stage_ref c12 i k) /\
      (forall k, 0 <= k < 2 -> control 2 c2 i k = control 2 c12 i k) /\
      (forall k, 0 <= k < NX -> state c2 (i + 1) k = state c12 (i + 1) k).
Proof.
  assert (H1 : 0 <= 2 /\ size_u 10 2 < SIZE_MOD) by (split; [lia|reflexivity]).
  assert (H2 : 0 <= 3) by lia.
  assert (H3 : 0 <= 4) by lia.
  assert (H4 : 3 + 4 < 10) by lia.
  split; [exact (conj fits_10 (conj H1 (conj H2 (conj H3 H4))))|].
  exact (advance_problem_twice 10 2 fits_10 H1 3 4 heading_example H2 H3 H4).
Defined.

Lemma set_reference_frame_witness :
  let traj := trajectory_of 3 in
  ((0 <= 10 /\ size_W 10 < SIZE_MOD) /\
   0 <= 2 /\ 0 <= 1 /\ 0 <= 2 /\ 2 + 2 <= 10 /\ 1 + 2 <= msg.size traj /\
   msg.size traj < SIZE_MOD) /\
  exists c',
    set_reference 10 to_angle_cartesian traj 2 1 2 heading_example
    = Ok tt c' /\
    (forall i k, 0 <= k < NY -> i < 2 \/ 2 + 2 <= i ->
       stage_ref c' i k = stage_ref heading_example i k) /\
    ACADO.x (acadoVariables c') = ACADO.x (acadoVariables heading_example) /\
    ACADO.u (acadoVariables c') = ACADO.u (acadoVariables heading_example) /\
    ACADO.yN (acadoVariables c') = ACADO.yN (acadoVariables heading_example) /\
    ACADO.W (acadoVariables c') = ACADO.W (acadoVariables heading_example) /\
    ACADO.WN (acadoVariables c') = ACADO.WN (acadoVariables heading_example) /\
    ACADO.x0 (acadoVariables c') = ACADO.x0 (acadoVariables heading_example) /\
    (2 = 0 -> c' = heading_example).
Proof.
  cbv zeta.
  assert (H0 : 0 <= 2) by lia.
  assert (H1 : 0 <= 1) by lia.
  assert (H2 : 2 + 2 <= 10) by lia.
  assert (H3 : 1 + 2 <= msg.size (trajectory_of 3)) by (cbn; lia).
  assert (H4 : msg.size (trajectory_of 3) < SIZE_MOD) by reflexivity.
  split.
  - exact (conj fits_10 (conj H0 (conj H1 (conj H0 (conj H2 (conj H3 H4)))))).
  - exact (set_reference_frame 10 to_angle_cartesian fits_10 (trajectory_of 3)
             2 1 2 heading_example H0 H1 H0 H2 H3 H4).
Defined.

(** ** New plans of any length *)

Lemma bind_ok_inv {A B} (m : M A) (f : A -> M B) (c c' : MpcController)
    (b : B) :
  bind m f c = Ok b c' -> exists a c1, m c = Ok a c1 /\ f a c1 = Ok b c'.
Proof.
  unfold bind. destruct (m c) as [a c1|what c1|]; try discriminate.
  intros H. now exists a, c1.
Qed.

Lemma preserves_ok (P : MpcController -> Prop) {A} (m : M A)
    (c c' : MpcController) (a : A) :
  preserves P m -> P c -> m c = Ok a c' -> P c'.
Proof. intros Hm HP H. apply (Hm c c' HP). now rewrite H. Qed.

Section NewPlans.

Variable HORIZON : Index.
Variable to_angle : msg.Complex32 -> R.
Variable sample : Trajectory -> Trajectory -> Trajectory.
Hypothesis HORIZON_fits : 0 <= HORIZON /\ size_W HORIZON < SIZE_MOD.

Lemma handle_new_trajectory_beyond (traj : Trajectory) (c : MpcController) :
  m_interpolated_trajectory c = None ->
  HORIZON < msg.size traj -> msg.size traj < SIZE_MOD ->
  exists pt,
    nth_error (msg.points traj) (Z.to_nat HORIZON) = Some pt /\
    handle_new_trajectory HORIZON to_angle sample traj c =
    Ok traj (long_plan_handled HORIZON to_angle traj pt c).
Proof.
  intros Hnone Hsize Hsz. destruct HORIZON_fits as [HN HW].
  destruct (nth_error (msg.points traj) (Z.to_nat HORIZON)) as [pt|] eqn:Hpt.
  2:{ apply nth_error_None in Hpt. unfold msg.size in Hsize. lia. }
  exists pt. split; [reflexivity|].
  unfold handle_new_trajectory.
  unfold bind at 1. unfold get. rewrite Hnone.
  unfold bind at 1. unfold ret. unfold bind at 1. rewrite Hnone.
  rewrite Z.min_r by lia.
  unfold bind at 1.
  rewrite (set_reference_ok HORIZON to_angle HORIZON_fits) by lia.
  rewrite Z.sub_0_r, Z.add_0_l.
  unfold bind at 1.
  rewrite (apply_nominal_weights_ok HORIZON HORIZON_fits) by lia.
  rewrite Z.min_id.
  destruct (Z.ltb_spec HORIZON HORIZON); [lia|].
  destruct (Z.geb_spec HORIZON (msg.size traj)); [lia|].
  unfold bind, point_at. rewrite Hpt. reflexivity.
Qed.

(** X8.  Without resampler, for a trajectory of more than [HORIZON] points,
    [handle_new_trajectory] returns the trajectory, with the stage references
    following its first [HORIZON] points, the nominal profile of the
    configuration on the diagonal of every stage, the terminal reference
    holding the point of index [HORIZON], the terminal weight untouched and
    the last applied reference index reset to 0. *)
Theorem handle_new_trajectory_long (traj : Trajectory) (c : MpcController) :
  m_interpolated_trajectory c = None ->
  HORIZON < msg.size traj -> msg.size traj < SIZE_MOD ->
  exists c',
    handle_new_trajectory HORIZON to_angle sample traj c = Ok traj c' /\
    aligned to_angle c' traj 0 HORIZON /\
    (forall i, 0 <= i < HORIZON ->
       carries_profile (nominal (config c)) c' i) /\
    (exists pt,
       nth_error (msg.points traj) (Z.to_nat HORIZON) = Some pt /\
       terminal_ref c' IDYN_X = msg.x pt /\
       terminal_ref c' IDYN_Y = msg.y pt /\
       terminal_ref c' IDYN_VEL_LONG = msg.longitudinal_velocity_mps pt /\
       terminal_ref c' IDYN_HEADING = to_angle (msg.heading pt)) /\
    ACADO.WN (acadoVariables c') = ACADO.WN (acadoVariables c) /\
    m_last_reference_index c' = 0.
Proof.
  intros Hnone Hsize Hsz.
  destruct (handle_new_trajectory_beyond traj c Hnone Hsize Hsz)
    as (pt & Hpt & Hrun).
  eexists. split; [exact Hrun|].
  split; [|split; [|split; [|split; reflexivity]]].
  - intros i Hi.
    destruct (nth_error (msg.points traj) (Z.to_nat (0 + i))) as [p|] eqn:Hp.
    2:{ apply nth_error_None in Hp. unfold msg.size in Hsize. lia. }
    exists p. split; [reflexivity|].
    unfold holds_point, stage_ref, long_plan_handled. cbv zeta.
    cbn [with_last_reference_index set_yN set_W set_y with_acado
         acadoVariables ACADO.with_yN ACADO.with_W ACADO.with_y ACADO.y].
    rewrite !y_set_at
      by (unfold IDY_X, IDY_Y, IDY_HEADING, IDY_VEL_LONG; lia).
    rewrite Z.add_0_r. rewrite Z.add_0_l in Hp. rewrite Hp.
    replace ((0 <=? i) && (i <? HORIZON)) with true
      by (case_cmp; reflexivity || lia).
    repeat split; reflexivity.
  - intros i Hi. unfold carries_profile, stage_weight, long_plan_handled.
    cbv zeta.
    cbn [with_last_reference_index set_yN set_W set_y with_acado
         acadoVariables ACADO.with_yN ACADO.with_W ACADO.with_y ACADO.W].
    repeat split;
      rewrite W_apply_at
        by (unfold IDY_X, IDY_Y, IDY_HEADING, IDY_VEL_LONG; lia);
      (case_cmp; [reflexivity|lia..]).
  - exists pt. split; [exact Hpt|]. repeat split; reflexivity.
Qed.

(** X9.  Without resampler, for a trajectory of [n] points with
    [1 <= n <= HORIZON], [handle_new_trajectory] returns the trajectory, with
    the first [n] stage references following its points, the nominal profile
    on the diagonal of the stages before [n - 1], the terminal profile on
    the diagonal of stage [n - 1], zero weights on the stages from [n] on,
    a zero diagonal of [terminal_weight], the terminal reference untouched
    and the last applied reference index reset to 0. *)
Theorem handle_new_trajectory_within_horizon (traj : Trajectory)
    (c : MpcController) :
  m_interpolated_trajectory c = None ->
  1 <= msg.size traj <= HORIZON ->
  exists c',
    handle_new_trajectory HORIZON to_angle sample traj c = Ok traj c' /\
    aligned to_angle c' traj 0 (msg.size traj) /\
    (forall i, 0 <= i < msg.size traj - 1 ->
       carries_profile (nominal (config c)) c' i) /\
    carries_profile (terminal (config c)) c' (msg.size traj - 1) /\
    zero_stage_weights c' (msg.size traj) HORIZON /\
    (forall r, 0 <= r < NYN -> terminal_weight c' r r = 0%R) /\
    ACADO.yN (acadoVariables c') = ACADO.yN (acadoVariables c) /\
    m_last_reference_index c' = 0.
Proof.
  intros Hnone Hsize.
  exists (short_plan_handled HORIZON to_angle traj c).
  assert (HW : ACADO.W (acadoVariables
                          (short_plan_handled HORIZON to_angle traj c)) =
               W_apply (terminal (config c)) (msg.size traj - 1)
                 (msg.size traj)
                 (W_zero (msg.size traj) HORIZON
                    (W_apply (nominal (config c)) 0 (msg.size traj)
                       (ACADO.W (acadoVariables c))))).
  { unfold short_plan_handled, short_plan_laid_out. cbv zeta.
    destruct (Z.ltb_spec (msg.size traj) HORIZON); [reflexivity|].
    cbn [with_last_reference_index set_WN set_W set_y with_acado
         acadoVariables ACADO.with_WN ACADO.with_W ACADO.with_y ACADO.W].
    f_equal. apply functional_extensionality; intros j. unfold W_zero.
    case_cmp; reflexivity || lia. }
  assert (Hy : ACADO.y (acadoVariables
                          (short_plan_handled HORIZON to_angle traj c)) =
               y_set to_angle traj 0 0 (msg.size traj)
                 (ACADO.y (acadoVariables c))).
  { unfold short_plan_handled, short_plan_laid_out. cbv zeta.
    destruct (msg.size traj <? HORIZON); reflexivity. }
  split; [|split; [|split; [|split; [|split; [|split; [|split]]]]]].
  - rewrite (handle_new_trajectory_within HORIZON to_angle sample
               HORIZON_fits) by (assumption || lia).
    destruct (Z.eqb_spec (msg.size traj) 0); [lia|reflexivity].
  - intros i Hi.
    destruct (nth_error (msg.points traj) (Z.to_nat (0 + i))) as [p|] eqn:Hp.
    2:{ apply nth_error_None in Hp. unfold msg.size in Hi. lia. }
    exists p. split; [reflexivity|].
    unfold holds_point, stage_ref. rewrite Hy.
    rewrite !y_set_at
      by (unfold IDY_X, IDY_Y, IDY_HEADING, IDY_VEL_LONG; lia).
    rewrite Z.add_0_r. rewrite Z.add_0_l in Hp. rewrite Hp.
    replace ((0 <=? i) && (i <? msg.size traj)) with true
      by (case_cmp; reflexivity || lia).
    repeat split; reflexivity.
  - intros i Hi. unfold carries_profile, stage_weight. rewrite HW.
    repeat split;
      rewrite W_apply_at, W_zero_at, W_apply_at
        by (unfold IDY_X, IDY_Y, IDY_HEADING, IDY_VEL_LONG; lia);
      (case_cmp; reflexivity || lia).
  - unfold carries_profile, stage_weight. rewrite HW.
    repeat split;
      rewrite W_apply_at
        by (unfold IDY_X, IDY_Y, IDY_HEADING, IDY_VEL_LONG; lia);
      (case_cmp; [reflexivity|lia..]).
  - intros i r col Hi Hr Hc. unfold stage_weight, NY in *. rewrite HW.
    rewrite W_apply_at, W_zero_at by lia.
    case_cmp; reflexivity || lia.
  - intros r Hr. unfold terminal_weight, NYN in *.
    rewrite short_plan_handled_WN. unfold WN_set, upd.
    case_cmp; reflexivity || lia.
  - unfold short_plan_handled, short_plan_laid_out. cbv zeta.
    destruct (msg.size traj <? HORIZON); reflexivity.
  - reflexivity.
Qed.

(** X10.  Whenever [handle_new_trajectory] returns, it returns the trajectory
    it worked on: the given one when no resampler is configured, else the
    result of the resampler, which it has stored in the resampler's buffer;
    and the last applied reference index is 0. *)
Theorem handle_new_trajectory_result (trajectory t : Trajectory)
    (c c' : MpcController) :
  handle_new_trajectory HORIZON to_angle sample trajectory c = Ok t c' ->
  match m_interpolated_trajectory c with
  | Some buffer =>
      t = sample trajectory buffer /\
      m_interpolated_trajectory c' = Some (sample trajectory buffer)
  | None => t = trajectory /\ m_interpolated_trajectory c' = None
  end /\
  m_last_reference_index c' = 0.
Proof.
  unfold handle_new_trajectory. intros H.
  apply bind_ok_inv in H as (c0 & c0' & [= <- <-] & H).
  apply bind_ok_inv in H as ([] & ca & Ha & H).
  apply bind_ok_inv in H as (cb & cb' & [= <- <-] & H).
  cbv zeta in H.
  set (P := fun c1 : MpcController =>
              m_interpolated_trajectory c1 = m_interpolated_trajectory ca)
    in *.
  assert (HPb : forall c1 a, P c1 -> P (with_acado c1 a))
    by (intros c1 a H1; exact H1).
  apply bind_ok_inv in H as ([] & c1 & H1 & H).
  apply bind_ok_inv in H as ([] & c2 & H2 & H).
  apply bind_ok_inv in H as ([] & c3 & H3 & H).
  apply bind_ok_inv in H as ([] & c4 & H4 & H).
  apply bind_ok_inv in H as ([] & c5 & [= <-] & [= <- <-]).
  assert (HP1 : P c1).
  { eapply preserves_ok; [|reflexivity|exact H1].
    now apply members_set_reference. }
  assert (HP2 : P c2).
  { eapply preserves_ok; [|exact HP1|exact H2].
    now apply members_apply_nominal_weights. }
  assert (HP3 : P c3).
  { eapply preserves_ok; [|exact HP2|exact H3].
    destruct (_ <? HORIZON);
      [now apply members_zero_nominal_weights|apply preserves_ret]. }
  assert (HP4 : P c4).
  { eapply preserves_ok; [|exact HP3|exact H4].
    destruct (_ >=? _).
    - apply preserves_bind;
        [now apply members_zero_terminal_weights
        |intros _; now apply members_apply_terminal_weights].
    - apply preserves_bind;
        [apply preserves_point_at
        |intros pt; now apply members_set_terminal_reference]. }
  unfold P in HP4. cbn [m_interpolated_trajectory with_last_reference_index
                        m_last_reference_index].
  rewrite HP4.
  destruct (m_interpolated_trajectory c) as [buffer|] eqn:E.
  - injection Ha as <-. cbn. repeat split; reflexivity.
  - injection Ha as <-. rewrite E. repeat split; reflexivity.
Qed.

End NewPlans.

Lemma handle_new_trajectory_long_witness :
  ((0 <= 2 /\ size_W 2 < SIZE_MOD) /\
   m_interpolated_trajectory heading_example = None /\
   2 < msg.size (trajectory_of 5) /\ msg.size (trajectory_of 5) < SIZE_MOD) /\
  exists c',
    handle_new_trajectory 2 to_angle_cartesian no_resampling
      (trajectory_of 5) heading_example = Ok (trajectory_of 5) c' /\
    aligned to_angle_cartesian c' (trajectory_of 5) 0 2 /\
    (forall i, 0 <= i < 2 ->
       carries_profile (nominal (config heading_example)) c' i) /\
    (exists pt,
       nth_error (msg.points (trajectory_of 5)) (Z.to_nat 2) = Some pt /\
       terminal_ref c' IDYN_X = msg.x pt /\
       terminal_ref c' IDYN_Y = msg.y pt /\
       terminal_ref c' IDYN_VEL_LONG = msg.longitudinal_velocity_mps pt /\
       terminal_ref c' IDYN_HEADING = to_angle_cartesian (msg.heading pt)) /\
    ACADO.WN (acadoVariables c') = ACADO.WN (acadoVariables heading_example) /\
    m_last_reference_index c' = 0.
Proof.
  assert (H1 : m_interpolated_trajectory heading_example = None)
    by reflexivity.
  assert (H2 : 2 < msg.size (trajectory_of 5)) by reflexivity.
  assert (H3 : msg.size (trajectory_of 5) < SIZE_MOD) by reflexivity.
  split; [exact (conj fits_2 (conj H1 (conj H2 H3)))|].
  exact (handle_new_trajectory_long 2 to_angle_cartesian no_resampling fits_2
           (trajectory_of 5) heading_example H1 H2 H3).
Defined.

Lemma handle_new_trajectory_within_horizon_witness :
  ((0 <= 10 /\ size_W 10 < SIZE_MOD) /\
   m_interpolated_trajectory heading_example = None /\
   1 <= msg.size (trajectory_of 3) <= 10) /\
  exists c',
    handle_new_trajectory 10 to_angle_cartesian no_resampling
      (trajectory_of 3) heading_example = Ok (trajectory_of 3) c' /\
    aligned to_angle_cartesian c' (trajectory_of 3) 0
      (msg.size (trajectory_of 3)) /\
    (forall i, 0 <= i < msg.size (trajectory_of 3) - 1 ->
       carries_profile (nominal (config heading_example)) c' i) /\
    carries_profile (terminal (config heading_example)) c'
      (msg.size (trajectory_of 3) - 1) /\
    zero_stage_weights c' (msg.size (trajectory_of 3)) 10 /\
    (forall r, 0 <= r < NYN -> terminal_weight c' r r = 0%R) /\
    ACADO.yN (acadoVariables c') = ACADO.yN (acadoVariables heading_example) /\
    m_last_reference_index c' = 0.
Proof.
  assert (H1 : m_interpolated_trajectory heading_example = None)
    by reflexivity.
  assert (H2 : 1 <= msg.size (trajectory_of 3) <= 10) by (cbn; lia).
  split; [exact (conj fits_10 (conj H1 H2))|].
  exact (handle_new_trajectory_within_horizon 10 to_angle_cartesian
           no_resampling fits_10 (trajectory_of 3) heading_example H1 H2).
Defined.

Lemma handle_new_trajectory_result_witness :
  exists c',
    handle_new_trajectory 10 to_angle_cartesian no_resampling
      (trajectory_of 3) heading_example = Ok (trajectory_of 3) c' /\
    (trajectory_of 3 = trajectory_of 3 /\
     m_interpolated_trajectory c' = None) /\
    m_last_reference_index c' = 0.
Proof.
  assert (H : exists c',
            handle_new_trajectory 10 to_angle_cartesian no_resampling
              (trajectory_of 3) heading_example = Ok (trajectory_of 3) c').
  { rewrite (handle_new_trajectory_within 10 to_angle_cartesian
               no_resampling fits_10) by (reflexivity || (cbn; lia)).
    eexists. reflexivity. }
  destruct H as (c' & H). exists c'. split; [exact H|].
  exact (handle_new_trajectory_result 10 to_angle_cartesian no_resampling
           (trajectory_of 3) (trajectory_of 3) heading_example c' H).
Defined.

(** ** Refills with enough trajectory, and the roll as a whole *)

Section Refill.

Variable HORIZON : Index.
Variable to_angle : msg.Complex32 -> R.
Hypothesis HORIZON_fits : 0 <= HORIZON /\ size_W HORIZON < SIZE_MOD.

Lemma backfill_enough_locals (count : Index) (c : MpcController) :
  0 <= count < HORIZON ->
  0 <= current_state_temporal_index c ->
  current_state_temporal_index c + HORIZON
  <= msg.size (reference_trajectory c) ->
  msg.size (reference_trajectory c) + HORIZON < SIZE_MOD ->
  backfill_traj_start HORIZON c count
  = current_state_temporal_index c + HORIZON - count /\
  backfill_safe_count HORIZON c count = count.
Proof.
  intros Hc Hi He Hs. pose proof Hs as Hs'. rewrite SIZE_MOD_eq in Hs'.
  assert (Hidx : is_index (current_state_temporal_index c))
    by (split; [assumption|rewrite SIZE_MOD_eq; lia]).
  destruct (backfill_locals HORIZON count c Hc Hidx Hs) as (E1 & E2 & E3 & E4).
  assert (Ets : backfill_traj_start HORIZON c count
                = current_state_temporal_index c + HORIZON - count).
  { unfold backfill_traj_start. rewrite E1. cbv zeta.
    rewrite iadd_small by (rewrite SIZE_MOD_eq; lia). lia. }
  split; [exact Ets|]. lia.
Qed.

Lemma backfilled_enough (count : Index) (c : MpcController) :
  0 <= count < HORIZON ->
  0 <= current_state_temporal_index c ->
  current_state_temporal_index c + HORIZON
  <= msg.size (reference_trajectory c) ->
  msg.size (reference_trajectory c) + HORIZON < SIZE_MOD ->
  let traj := reference_trajectory c in
  let curr_idx := current_state_temporal_index c in
  let c1 := set_y c (y_set to_angle traj curr_idx (HORIZON - count) HORIZON
                       (ACADO.y (acadoVariables c))) in
  backfill_reference HORIZON to_angle count c =
  Ok tt
    (if curr_idx + HORIZON <? msg.size traj then
       match nth_error (msg.points traj) (Z.to_nat (curr_idx + HORIZON)) with
       | Some pt =>
           set_yN c1 (yN_set to_angle pt (ACADO.yN (acadoVariables c1)))
       | None => c1
       end
     else set_WN c1 (WN_set 0%R 0%R 0%R (ACADO.WN (acadoVariables c1)))).
Proof.
  intros Hc Hi He Hs. cbv zeta.
  destruct (backfill_enough_locals count c Hc Hi He Hs) as (Ets & Esc).
  assert (Hidx : is_index (current_state_temporal_index c)).
  { split; [assumption|]. rewrite SIZE_MOD_eq in *. lia. }
  rewrite (backfill_reference_ok HORIZON to_angle HORIZON_fits)
    by assumption.
  unfold backfilled. cbv zeta. rewrite Ets, Esc.
  destruct (Z.ltb_spec count count); [lia|].
  replace (current_state_temporal_index c + HORIZON - count
           - (HORIZON - count)) with (current_state_temporal_index c) by lia.
  replace (HORIZON - count + count) with HORIZON by lia.
  replace (current_state_temporal_index c + HORIZON - count + count)
    with (current_state_temporal_index c + HORIZON) by lia.
  reflexivity.
Qed.

(** X11.  When the stored trajectory reaches the end of the horizon
    ([curr_idx + HORIZON <= |traj|]), [backfill_reference(count)] returns
    with every tail stage [i] of [[HORIZON - count, HORIZON)] holding the
    trajectory point of index [curr_idx + i]; the references of the other
    stages and all stage weights are left as they were.  If a point of index
    [curr_idx + HORIZON] exists, it becomes the terminal reference and the
    terminal weight is untouched; else the diagonal of the terminal weight is
    zeroed and the terminal reference is untouched. *)
Theorem backfill_reference_enough (count : Index) (c : MpcController) :
  0 <= count < HORIZON ->
  0 <= current_state_temporal_index c ->
  current_state_temporal_index c + HORIZON
  <= msg.size (reference_trajectory c) ->
  msg.size (reference_trajectory c) + HORIZON < SIZE_MOD ->
  let traj := reference_trajectory c in
  let curr_idx := current_state_temporal_index c in
  exists c',
    backfill_reference HORIZON to_angle count c = Ok tt c' /\
    (forall i, HORIZON - count <= i < HORIZON ->
       exists pt,
         nth_error (msg.points traj) (Z.to_nat (curr_idx + i)) = Some pt /\
         holds_point to_angle c' i pt) /\
    (forall i k, 0 <= k < NY -> i < HORIZON - count ->
       stage_ref c' i k = stage_ref c i k) /\
    ACADO.W (acadoVariables c') = ACADO.W (acadoVariables c) /\
    (curr_idx + HORIZON < msg.size traj ->
     (exists pt,
        nth_error (msg.points traj) (Z.to_nat (curr_idx + HORIZON))
        = Some pt /\
        terminal_ref c' IDYN_X = msg.x pt /\
        terminal_ref c' IDYN_Y = msg.y pt /\
        terminal_ref c' IDYN_VEL_LONG = msg.longitudinal_velocity_mps pt /\
        terminal_ref c' IDYN_HEADING = to_angle (msg.heading pt)) /\
     ACADO.WN (acadoVariables c') = ACADO.WN (acadoVariables c)) /\
    (curr_idx + HORIZON = msg.size traj ->
     (forall r, 0 <= r < NYN -> terminal_weight c' r r = 0%R) /\
     ACADO.yN (acadoVariables c') = ACADO.yN (acadoVariables c)).
Proof.
  intros Hc Hi He Hs. cbv zeta.
  pose proof (backfilled_enough count c Hc Hi He Hs) as Hrun.
  cbv zeta in Hrun.
  eexists. split; [exact Hrun|]. clear Hrun.
  set (ci := current_state_temporal_index c) in *.
  set (traj := reference_trajectory c) in *.
  assert (Hy : forall c1,
            ACADO.y (acadoVariables
              (if ci + HORIZON <? msg.size traj then
                 match nth_error (msg.points traj) (Z.to_nat (ci + HORIZON))
                 with
                 | Some pt =>
                     set_yN c1 (yN_set to_angle pt
                                  (ACADO.yN (acadoVariables c1)))
                 | None => c1
                 end
               else set_WN c1 (WN_set 0%R 0%R 0%R
                                 (ACADO.WN (acadoVariables c1)))))
            = ACADO.y (acadoVariables c1)).
  { intros c1. destruct (_ <? _); [destruct (nth_error _ _)|]; reflexivity. }
  split; [|split; [|split; [|split]]].
  - intros i Hi'.
    destruct (nth_error (msg.points traj) (Z.to_nat (ci + i))) as [pt|] eqn:Hpt.
    2:{ apply nth_error_None in Hpt. unfold msg.size in He. lia. }
    exists pt. split; [reflexivity|].
    unfold holds_point, stage_ref. rewrite Hy.
    cbn [set_y with_acado acadoVariables ACADO.with_y ACADO.y].
    rewrite !y_set_at
      by (unfold IDY_X, IDY_Y, IDY_HEADING, IDY_VEL_LONG; lia).
    replace (i + ci) with (ci + i) by lia. rewrite Hpt.
    replace ((HORIZON - count <=? i) && (i <? HORIZON)) with true
      by (case_cmp; reflexivity || lia).
    repeat split; reflexivity.
  - intros i k Hk Hlt. unfold stage_ref. rewrite Hy.
    cbn [set_y with_acado acadoVariables ACADO.with_y ACADO.y].
    unfold NY in *. rewrite y_set_at by assumption.
    case_cmp; reflexivity || lia.
  - destruct (_ <? _); [destruct (nth_error _ _)|]; reflexivity.
  - intros Hlt. destruct (Z.ltb_spec (ci + HORIZON) (msg.size traj)); [|lia].
    destruct (nth_error (msg.points traj) (Z.to_nat (ci + HORIZON)))
      as [pt|] eqn:Hpt.
    2:{ apply nth_error_None in Hpt. unfold msg.size in Hlt. lia. }
    split; [|reflexivity].
    exists pt. repeat split; reflexivity.
  - intros Heq. destruct (Z.ltb_spec (ci + HORIZON) (msg.size traj)); [lia|].
    split; [|reflexivity].
    intros r Hr. unfold terminal_weight, NYN in *.
    cbn [set_WN set_y with_acado acadoVariables ACADO.with_WN ACADO.with_y
         ACADO.WN].
    unfold WN_set, upd. case_cmp; reflexivity || lia.
Qed.

End Refill.

Section Roll.

Variable HORIZON : Index.
Variable NU : Index.
Variable to_angle : msg.Complex32 -> R.
Hypothesis HORIZON_fits : 0 <= HORIZON /\ size_W HORIZON < SIZE_MOD.
Hypothesis NU_fits : 0 <= NU /\ size_u HORIZON NU < SIZE_MOD.

(** X12.  Rolling keeps the references on the trajectory.  Let the [HORIZON]
    stage references follow the stored trajectory from index [base] on.
    After [advance_problem(count)], once the temporal index has moved on to
    [base + count], [backfill_reference(count)] returns and the [HORIZON]
    stage references follow the trajectory from index [base + count] on,
    provided the trajectory reaches that far. *)
Theorem roll_keeps_alignment (count base : Index) (c : MpcController) :
  0 <= count < HORIZON -> 0 <= base ->
  base + count + HORIZON <= msg.size (reference_trajectory c) ->
  msg.size (reference_trajectory c) + HORIZON < SIZE_MOD ->
  aligned to_angle c (reference_trajectory c) base HORIZON ->
  exists c1,
    advance_problem HORIZON NU count c = Ok tt c1 /\
    forall c2,
      acadoVariables c2 = acadoVariables c1 ->
      reference_trajectory c2 = reference_trajectory c ->
      current_state_temporal_index c2 = base + count ->
      exists c3,
        backfill_reference HORIZON to_angle count c2 = Ok tt c3 /\
        aligned to_angle c3 (reference_trajectory c) (base + count) HORIZON.
Proof.
  intros Hc Hb He Hs Hal.
  exists (advanced HORIZON NU count c). split.
  { now apply (advance_problem_ok HORIZON NU HORIZON_fits NU_fits). }
  intros c2 Hbuf Htraj Hidx.
  pose proof (backfilled_enough HORIZON to_angle HORIZON_fits count c2)
    as Hrun.
  rewrite Htraj, Hidx in Hrun. cbv zeta in Hrun.
  specialize (Hrun Hc ltac:(lia) ltac:(lia) Hs).
  eexists. split; [exact Hrun|]. clear Hrun.
  intros i Hi.
  set (traj := reference_trajectory c) in *.
  assert (Hy : forall c1,
            ACADO.y (acadoVariables
              (if base + count + HORIZON <? msg.size traj then
                 match nth_error (msg.points traj)
                         (Z.to_nat (base + count + HORIZON)) with
                 | Some pt =>
                     set_yN c1 (yN_set to_angle pt
                                  (ACADO.yN (acadoVariables c1)))
                 | None => c1
                 end
               else set_WN c1 (WN_set 0%R 0%R 0%R
                                 (ACADO.WN (acadoVariables c1)))))
            = ACADO.y (acadoVariables c1)).
  { intros c1. destruct (_ <? _); [destruct (nth_error _ _)|]; reflexivity. }
  destruct (Z_lt_ge_dec i (HORIZON - count)) as [Hlow|Hhigh].
  - destruct (Hal (i + count) ltac:(lia)) as (pt & Hpt & Hp).
    exists pt. split.
    { replace (base + count + i) with (base + (i + count)) by lia.
      exact Hpt. }
    unfold holds_point, stage_ref in *. rewrite Hy.
    cbn [set_y with_acado acadoVariables ACADO.with_y ACADO.y].
    rewrite !y_set_at
      by (unfold IDY_X, IDY_Y, IDY_HEADING, IDY_VEL_LONG; lia).
    replace ((HORIZON - count <=? i) && (i <? HORIZON)) with false
      by (case_cmp; reflexivity || lia).
    rewrite Hbuf.
    destruct (advanced_views HORIZON NU HORIZON_fits NU_fits count c i IDY_X Hc ltac:(lia))
      as (Hx & _).
    destruct (advanced_views HORIZON NU HORIZON_fits NU_fits count c i IDY_Y Hc ltac:(lia))
      as (Hyy & _).
    destruct (advanced_views HORIZON NU HORIZON_fits NU_fits count c i IDY_VEL_LONG Hc ltac:(lia))
      as (Hv & _).
    destruct (advanced_views HORIZON NU HORIZON_fits NU_fits count c i IDY_HEADING Hc ltac:(lia))
      as (Hh & _).
    unfold stage_ref in Hx, Hyy, Hv, Hh.
    rewrite Hx, Hyy, Hv, Hh
      by (unfold IDY_X, IDY_Y, IDY_HEADING, IDY_VEL_LONG, NY; lia).
    exact Hp.
  - destruct (nth_error (msg.points traj) (Z.to_nat (base + count + i)))
      as [pt|] eqn:Hpt.
    2:{ apply nth_error_None in Hpt. unfold msg.size in He. lia. }
    exists pt. split; [reflexivity|].
    unfold holds_point, stage_ref. rewrite Hy.
    cbn [set_y with_acado acadoVariables ACADO.with_y ACADO.y].
    rewrite !y_set_at
      by (unfold IDY_X, IDY_Y, IDY_HEADING, IDY_VEL_LONG; lia).
    replace (i + (base + count)) with (base + count + i) by lia. rewrite Hpt.
    replace ((HORIZON - count <=? i) && (i <? HORIZON)) with true
      by (case_cmp; reflexivity || lia).
    repeat split; reflexivity.
Qed.

End Roll.

(** ** The heading pass and the terminal stage in general *)

(** The loop writes the headings of the stages it visits and nothing else. *)
Lemma unwrap_loop_frame (n : nat) :
  forall (i : Z) (last_angle err : R) (r : array) (j : Z),
    (forall k, i <= k < i + Z.of_nat n -> j <> k * 4 + 2) ->
    fst (unwrap_loop n i last_angle err r) j = r j.
Proof.
  induction n as [|n IH]; intros i last_angle err r j Hj; cbn [unwrap_loop].
  - reflexivity.
  - destruct (fn (r (i * 4 + 2)) last_angle err) as [[ref' la'] err'].
    rewrite IH by (intros k Hk; apply Hj; lia).
    apply upd_neq. apply Hj. lia.
Qed.

Section PassAndTerminalStage.

Variable HORIZON : Index.
Hypothesis HORIZON_fits : 0 <= HORIZON /\ size_W HORIZON < SIZE_MOD.

Lemma reference_consistency_error_ok (horizon : Index) (c : MpcController) :
  reference_consistency_error HORIZON horizon c =
  Ok (snd (consistency_pass HORIZON horizon c))
    (fst (consistency_pass HORIZON horizon c)).
Proof.
  destruct HORIZON_fits as [HN _].
  unfold reference_consistency_error, consistency_pass. cbv zeta.
  unfold bind at 1.
  change (load ACADO.x0 size_x0 IDX_HEADING c)
    with (Ok (ACADO.x0 (acadoVariables c) IDX_HEADING) c).
  unfold bind at 1.
  rewrite (consistency_loop_ok HORIZON HORIZON_fits) by lia. cbv zeta.
  destruct (unwrap_loop _ _ _ _ _) as [y' [la' err']]. cbn [fst snd].
  unfold bind at 1.
  change (load ACADO.yN size_yN IDY_HEADING (set_y c y'))
    with (@Ok AcadoReal (ACADO.yN (acadoVariables c) IDY_HEADING)
            (set_y c y')).
  cbv beta iota.
  destruct (fn (ACADO.yN (acadoVariables c) IDY_HEADING) la' err')
    as [[ref'' la''] err''].
  reflexivity.
Qed.

Lemma ensure_reference_consistency_ok (horizon : Index) (c : MpcController) :
  ensure_reference_consistency HORIZON horizon c =
  Ok (if Rgt_dec (snd (consistency_pass HORIZON horizon c)) PI_3_14159
      then true else false)
    (fst (consistency_pass HORIZON horizon c)).
Proof.
  unfold ensure_reference_consistency, bind.
  rewrite reference_consistency_error_ok. reflexivity.
Qed.

(** X13.  [ensure_reference_consistency] always returns, whatever the
    buffers hold, and writes nothing but the headings of the first
    [min(horizon, HORIZON)] stage references and of the terminal reference:
    the other components of the references, the stages from
    [min(horizon, HORIZON)] on and all the other buffers are left as they
    were.  The values it computes play no part in this. *)
Theorem ensure_reference_consistency_frame (horizon : Index)
    (c : MpcController) :
  exists b c',
    ensure_reference_consistency HORIZON horizon c = Ok b c' /\
    (forall i k, 0 <= k < NY ->
       k <> IDY_HEADING \/ i < 0 \/ Z.min horizon HORIZON <= i ->
       stage_ref c' i k = stage_ref c i k) /\
    (forall k, k <> IDY_HEADING -> terminal_ref c' k = terminal_ref c k) /\
    ACADO.x (acadoVariables c') = ACADO.x (acadoVariables c) /\
    ACADO.u (acadoVariables c') = ACADO.u (acadoVariables c) /\
    ACADO.W (acadoVariables c') = ACADO.W (acadoVariables c) /\
    ACADO.WN (acadoVariables c') = ACADO.WN (acadoVariables c) /\
    ACADO.x0 (acadoVariables c') = ACADO.x0 (acadoVariables c).
Proof.
  eexists _, _. split; [apply ensure_reference_consistency_ok|].
  unfold consistency_pass. cbv zeta. cbn [fst]. rewrite Z.sub_0_r.
  split; [|split; [|repeat split]].
  - intros i k Hk Hout. unfold stage_ref, NY, IDY_HEADING in *.
    cbn [set_yN set_y with_acado acadoVariables ACADO.with_yN ACADO.with_y
         ACADO.y].
    apply unwrap_loop_frame. intros k' Hk'. lia.
  - intros k Hk. unfold terminal_ref.
    cbn [set_yN set_y with_acado acadoVariables ACADO.with_yN ACADO.with_y
         ACADO.yN].
    now apply upd_neq.
Qed.

(** X14.  For [idx < HORIZON], [apply_terminal_weights(idx)] returns with the
    terminal profile of the controller's configuration on the diagonal of
    stage [idx]; every other entry of the stage weights and all the other
    buffers are left as they were. *)
Theorem apply_terminal_weights_effect (idx : Index) (c : MpcController) :
  0 <= idx < HORIZON ->
  exists c',
    apply_terminal_weights HORIZON idx c = Ok tt c' /\
    carries_profile (terminal (config c)) c' idx /\
    (forall i r col, 0 <= r < NY -> 0 <= col < NY ->
       i <> idx \/ r <> col ->
       stage_weight c' i r col = stage_weight c i r col) /\
    ACADO.x (acadoVariables c') = ACADO.x (acadoVariables c) /\
    ACADO.u (acadoVariables c') = ACADO.u (acadoVariables c) /\
    ACADO.y (acadoVariables c') = ACADO.y (acadoVariables c) /\
    ACADO.yN (acadoVariables c') = ACADO.yN (acadoVariables c) /\
    ACADO.WN (acadoVariables c') = ACADO.WN (acadoVariables c) /\
    ACADO.x0 (acadoVariables c') = ACADO.x0 (acadoVariables c).
Proof.
  intros H. eexists. split.
  { now apply (apply_terminal_weights_ok HORIZON HORIZON_fits). }
  split; [|split; [|repeat split]].
  - unfold carries_profile, stage_weight.
    cbn [set_W with_acado acadoVariables ACADO.with_W ACADO.W].
    repeat split;
      rewrite W_apply_at
        by (unfold IDY_X, IDY_Y, IDY_HEADING, IDY_VEL_LONG; lia);
      (case_cmp; [reflexivity|lia..]).
  - intros i r col Hr Hc Hout. unfold stage_weight, NY in *.
    cbn [set_W with_acado acadoVariables ACADO.with_W ACADO.W].
    rewrite W_apply_at by lia. unfold diag_profile.
    case_cmp; reflexivity || lia.
Qed.
End PassAndTerminalStage.

(** ** The general properties on concrete controllers *)

Lemma fits_u_2 (HORIZON : Index) :
  0 <= HORIZON -> HORIZON * 2 < SIZE_MOD ->
  0 <= 2 /\ size_u HORIZON 2 < SIZE_MOD.
Proof. intros H1 H2. split; [lia|exact H2]. Qed.

Lemma backfill_reference_enough_witness :
  let c := example_controller (trajectory_of 12) 1 in
  ((0 <= 10 /\ size_W 10 < SIZE_MOD) /\ 0 <= 5 < 10 /\
   0 <= current_state_temporal_index c /\
   current_state_temporal_index c + 10 <= msg.size (reference_trajectory c) /\
   msg.size (reference_trajectory c) + 10 < SIZE_MOD) /\
  exists c',
    backfill_reference 10 to_angle_cartesian 5 c = Ok tt c' /\
    (forall i, 10 - 5 <= i < 10 ->
       exists pt,
         nth_error (msg.points (reference_trajectory c))
           (Z.to_nat (current_state_temporal_index c + i)) = Some pt /\
         holds_point to_angle_cartesian c' i pt) /\
    (forall i k, 0 <= k < NY -> i < 10 - 5 ->
       stage_ref c' i k = stage_ref c i k) /\
    ACADO.W (acadoVariables c') = ACADO.W (acadoVariables c) /\
    (current_state_temporal_index c + 10 < msg.size (reference_trajectory c) ->
     (exists pt,
        nth_error (msg.points (reference_trajectory c))
          (Z.to_nat (current_state_temporal_index c + 10)) = Some pt /\
        terminal_ref c' IDYN_X = msg.x pt /\
        terminal_ref c' IDYN_Y = msg.y pt /\
        terminal_ref c' IDYN_VEL_LONG = msg.longitudinal_velocity_mps pt /\
        terminal_ref c' IDYN_HEADING = to_angle_cartesian (msg.heading pt)) /\
     ACADO.WN (acadoVariables c') = ACADO.WN (acadoVariables c)) /\
    (current_state_temporal_index c + 10 = msg.size (reference_trajectory c) ->
     (forall r, 0 <= r < NYN -> terminal_weight c' r r = 0%R) /\
     ACADO.yN (acadoVariables c') = ACADO.yN (acadoVariables c)).
Proof.
  cbv zeta.
  assert (H1 : 0 <= 5 < 10) by lia.
  assert (H2 : 0 <= current_state_temporal_index
                      (example_controller (trajectory_of 12) 1))
    by (cbn; lia).
  assert (H3 : current_state_temporal_index
                 (example_controller (trajectory_of 12) 1) + 10
               <= msg.size (reference_trajectory
                              (example_controller (trajectory_of 12) 1)))
    by (cbn; lia).
  assert (H4 : msg.size (reference_trajectory
                           (example_controller (trajectory_of 12) 1)) + 10
               < SIZE_MOD) by reflexivity.
  split; [exact (conj fits_10 (conj H1 (conj H2 (conj H3 H4))))|].
  exact (backfill_reference_enough 10 to_angle_cartesian fits_10 5
           (example_controller (trajectory_of 12) 1) H1 H2 H3 H4).
Defined.

Lemma following_controller_aligned (n : nat) :
  (2 <= n)%nat ->
  aligned to_angle_cartesian (following_controller n) (trajectory_of n) 0 2.
Proof.
  intros Hn i Hi.
  destruct (nth_error (msg.points (trajectory_of n)) (Z.to_nat (0 + i)))
    as [pt|] eqn:Hpt.
  2:{ apply nth_error_None in Hpt. cbn in Hpt.
      rewrite length_map, length_seq in Hpt. lia. }
  exists pt. split; [reflexivity|].
  unfold holds_point, stage_ref, following_controller.
  cbn [acadoVariables ACADO.y].
  rewrite !y_set_at by (unfold IDY_X, IDY_Y, IDY_HEADING, IDY_VEL_LONG; lia).
  rewrite Z.add_0_r. rewrite Z.add_0_l in Hpt. rewrite Hpt.
  replace ((0 <=? i) && (i <? 2)) with true by (case_cmp; reflexivity || lia).
  repeat split; reflexivity.
Qed.

Lemma roll_keeps_alignment_witness :
  let c := following_controller 6 in
  ((0 <= 2 /\ size_W 2 < SIZE_MOD) /\ (0 <= 2 /\ size_u 2 2 < SIZE_MOD) /\
   0 <= 1 < 2 /\ 0 <= 0 /\
   0 + 1 + 2 <= msg.size (reference_trajectory c) /\
   msg.size (reference_trajectory c) + 2 < SIZE_MOD /\
   aligned to_angle_cartesian c (reference_trajectory c) 0 2) /\
  exists c1,
    advance_problem 2 2 1 c = Ok tt c1 /\
    forall c2,
      acadoVariables c2 = acadoVariables c1 ->
      reference_trajectory c2 = reference_trajectory c ->
      current_state_temporal_index c2 = 0 + 1 ->
      exists c3,
        backfill_reference 2 to_angle_cartesian 1 c2 = Ok tt c3 /\
        aligned to_angle_cartesian c3 (reference_trajectory c) (0 + 1) 2.
Proof.
  cbv zeta.
  assert (H0 : 0 <= 2 /\ size_u 2 2 < SIZE_MOD)
    by (split; [lia|reflexivity]).
  assert (H1 : 0 <= 1 < 2) by lia.
  assert (H2 : 0 <= 0) by lia.
  assert (H3 : 0 + 1 + 2
               <= msg.size (reference_trajectory (following_controller 6)))
    by (cbn; lia).
  assert (H4 : msg.size (reference_trajectory (following_controller 6)) + 2
               < SIZE_MOD) by reflexivity.
  assert (H5 : aligned to_angle_cartesian (following_controller 6)
                 (reference_trajectory (following_controller 6)) 0 2)
    by (apply following_controller_aligned; lia).
  split;
    [exact (conj fits_2 (conj H0 (conj H1 (conj H2 (conj H3 (conj H4 H5))))))|].
  exact (roll_keeps_alignment 2 2 to_angle_cartesian fits_2 H0 1 0
           (following_controller 6) H1 H2 H3 H4 H5).
Defined.

Lemma ensure_reference_consistency_frame_witness :
  (0 <= 2 /\ size_W 2 < SIZE_MOD) /\
  exists b c',
    ensure_reference_consistency 2 2 heading_example = Ok b c' /\
    (forall i k, 0 <= k < NY ->
       k <> IDY_HEADING \/ i < 0 \/ Z.min 2 2 <= i ->
       stage_ref c' i k = stage_ref heading_example i k) /\
    (forall k, k <> IDY_HEADING ->
       terminal_ref c' k = terminal_ref heading_example k) /\
    ACADO.x (acadoVariables c') = ACADO.x (acadoVariables heading_example) /\
    ACADO.u (acadoVariables c') = ACADO.u (acadoVariables heading_example) /\
    ACADO.W (acadoVariables c') = ACADO.W (acadoVariables heading_example) /\
    ACADO.WN (acadoVariables c') = ACADO.WN (acadoVariables heading_example) /\
    ACADO.x0 (acadoVariables c') = ACADO.x0 (acadoVariables heading_example).
Proof.
  split; [exact fits_2|].
  exact (ensure_reference_consistency_frame 2 fits_2 2 heading_example).
Defined.

Lemma apply_terminal_weights_effect_witness :
  let c := example_controller (trajectory_of 4) 0 in
  ((0 <= 10 /\ size_W 10 < SIZE_MOD) /\ 0 <= 4 < 10) /\
  exists c',
    apply_terminal_weights 10 4 c = Ok tt c' /\
    carries_profile (terminal (config c)) c' 4 /\
    (forall i r col, 0 <= r < NY -> 0 <= col < NY ->
       i <> 4 \/ r <> col ->
       stage_weight c' i r col = stage_weight c i r col) /\
    ACADO.x (acadoVariables c') = ACADO.x (acadoVariables c) /\
    ACADO.u (acadoVariables c') = ACADO.u (acadoVariables c) /\
    ACADO.y (acadoVariables c') = ACADO.y (acadoVariables c) /\
    ACADO.yN (acadoVariables c') = ACADO.yN (acadoVariables c) /\
    ACADO.WN (acadoVariables c') = ACADO.WN (acadoVariables c) /\
    ACADO.x0 (acadoVariables c') = ACADO.x0 (acadoVariables c).
Proof.
  cbv zeta.
  assert (H : 0 <= 4 < 10) by lia.
  split; [exact (conj fits_10 H)|].
  exact (apply_terminal_weights_effect 10 fits_10 4
           (example_controller (trajectory_of 4) 0) H).
Defined.
